(** * opencode-antigravity-auth: token refresh and streaming transformer

    A shallow embedding of

    - [src/plugin/core/streaming/transformer.ts] (the SSE line transformer,
      the thinking-signature scan, the [ThoughtBuffer] and the
      [SignatureStore] of [createSignatureStore]),
    - [src/plugin/token.ts] (retry policy and [refreshAccessToken]),
    - the proactive refresh queue ([needsRefresh], [isExpired],
      [getAccountsNeedingRefresh], [hasUrgentRefreshNeeds], [addJitter],
      [runRefreshCheck], [stop]),

    together with the properties of the specification that concern them.

    JavaScript strings are sequences of UTF-16 code units ([list N]); the
    values that [JSON.parse] produces are a tree type; the built-ins of the
    platform that the code calls ([JSON.parse], [JSON.stringify],
    [Number::toString], ...) are fields of the class [Platform], so every
    theorem holds for whatever the platform implements, and a reference
    implementation ([Reference]) instantiates them for the closed examples. *)

From Stdlib Require Import ZArith NArith QArith Qround Qminmax Ascii String List Lia Lqa Bool.
From stdpp Require Import base decidable option list gmap.

Set Default Proof Using "Type".
Set Warnings "-register-all".

(** Closes a closed equation by evaluation in the virtual machine, without
    normalising the types of its sides. *)
Ltac vm_refl :=
  lazymatch goal with
  | |- @eq ?T ?a ?b => vm_cast_no_check (@eq_refl T b)
  end.

(** Linear arithmetic over [N] with division and remainder by constants. *)
Ltac nlia := zify; Z.to_euclidean_division_equations; lia.

(** ** JavaScript strings *)

Module Js.

(** A string is its sequence of UTF-16 code units. *)
Abbreviation jstring := (list N).

Definition unit_of_ascii (a : ascii) : N := N_of_ascii a.

(** [lit "abc"] is the JavaScript string literal ['abc'] (ASCII only). *)
Definition lit (s : string) : jstring := map unit_of_ascii (list_ascii_of_string s).

(** Code unit of the double quote; [jlit] writes a JSON text with ['] where
    the text has a double quote. *)
Definition dquote : N := 34%N.

Definition jlit (s : string) : jstring :=
  map (fun c => if (c =? 39)%N then dquote else c) (lit s).

Definition newline : N := 10%N.

Arguments lit : simpl never.
Arguments jlit : simpl never.

(** [s.startsWith(p)] *)
Fixpoint startsWith (s p : jstring) : bool :=
  match p, s with
  | [], _ => true
  | _ :: _, [] => false
  | c :: p', d :: s' => (c =? d)%N && startsWith s' p'
  end.

(** [s.slice(n)] for a literal [n >= 0]. *)
Definition slice (n : nat) (s : jstring) : jstring := drop n s.

(** White space and line terminators, as [String.prototype.trim] strips
    them (ECMA-262, WhiteSpace and LineTerminator). *)
Definition is_space (c : N) : bool :=
  ((9 <=? c) && (c <=? 13) || (c =? 32) || (c =? 160) || (c =? 5760)
   || (8192 <=? c) && (c <=? 8202) || (c =? 8232) || (c =? 8233)
   || (c =? 8239) || (c =? 8287) || (c =? 12288) || (c =? 65279))%N.

Fixpoint trimStart (s : jstring) : jstring :=
  match s with
  | c :: s' => if is_space c then trimStart s' else s
  | [] => []
  end.

Definition trimEnd (s : jstring) : jstring := rev (trimStart (rev s)).

Definition trim (s : jstring) : jstring := trimEnd (trimStart s).

(** [s.split('\n')]: never empty; a string with [n] newlines has [n+1]
    segments. *)
Fixpoint split_nl (s : jstring) : list jstring :=
  match s with
  | [] => [[]]
  | c :: s' =>
      if (c =? newline)%N then [] :: split_nl s'
      else match split_nl s' with
           | l :: ls => (c :: l) :: ls
           | [] => [[c]]
           end
  end.

(** The segments before the last one, and the last one: the complete
    lines of a text and what follows its last newline. *)
Definition complete (s : jstring) : list jstring := removelast (split_nl s).
Definition pending (s : jstring) : jstring := List.last (split_nl s) [].

(** [a.join(sep)] on an array of strings. *)
Fixpoint join (sep : jstring) (l : list jstring) : jstring :=
  match l with
  | [] => []
  | [x] => x
  | x :: rest => x ++ sep ++ join sep rest
  end.

(** [s.includes(p)] *)
Fixpoint includes (s p : jstring) : bool :=
  startsWith s p ||
  match s with
  | [] => false
  | _ :: s' => includes s' p
  end.

(** [!s] for a string is [s === ''] *)
Definition nonempty (s : jstring) : bool :=
  match s with [] => false | _ => true end.

(** ** Completions: a call returns or throws *)

Inductive completion (E A : Type) : Type :=
| Normal (a : A)
| Throw (e : E).
Arguments Normal {E A} a.
Arguments Throw {E A} e.

(** ** Values *)

(** The values [JSON.parse] builds, and [undefined]. An object is its list
    of own properties in insertion order. [number] is the platform's
    type of Numbers. *)
Inductive value (number : Type) : Type :=
| JUndefined
| JNull
| JBool (b : bool)
| JNum (n : number)
| JStr (s : jstring)
| JArr (l : list (value number))
| JObj (l : list (jstring * value number)).
Arguments JUndefined {number}.
Arguments JNull {number}.
Arguments JBool {number} b.
Arguments JNum {number} n.
Arguments JStr {number} s.
Arguments JArr {number} l.
Arguments JObj {number} l.

(** The built-ins of the platform that the code relies on. *)
Class Platform : Type := {
  number : Type;
  (** [!n] : [n] is [+0], [-0] or [NaN] *)
  num_falsy : number -> bool;
  (** [Number::toString] *)
  num_toString : number -> jstring;
  (** the Number of an integer literal of the source *)
  num_of_Z : Z -> number;
  (** [JSON.parse(s)]; [None] when it throws a SyntaxError *)
  JSON_parse : jstring -> option (value number);
  (** [JSON.stringify(v)] for [v] other than [undefined] *)
  JSON_stringify : value number -> jstring;
  (** the message of the SyntaxError that [response.json()] rejects with *)
  syntax_error_message : jstring -> jstring;
  (** the relational comparisons [n <= 0] of a Number and [s <= 0] of a
      string (converted by [StringToNumber]) *)
  num_le_zero : number -> bool;
  str_le_zero : jstring -> bool;
}.

Abbreviation val := (value number).

Section Values.
Context `{P : Platform}.

(** Own property lookup in an object built by [JSON.parse]. *)
Fixpoint own (k : jstring) (l : list (jstring * val)) : option val :=
  match l with
  | [] => None
  | (k', v) :: l' => if bool_decide (k' = k) then Some v else own k l'
  end.

(** [ToBoolean] *)
Definition truthy (v : val) : bool :=
  match v with
  | JUndefined | JNull => false
  | JBool b => b
  | JNum n => negb (num_falsy n)
  | JStr s => nonempty s
  | JArr _ | JObj _ => true
  end.

(** [a || b] *)
Definition or_else (a b : val) : val := if truthy a then a else b.

(** [v === true] and [v === 'text'] *)
Definition is_true (v : val) : bool :=
  match v with JBool true => true | _ => false end.

Definition is_str (s : jstring) (v : val) : bool :=
  match v with JStr t => bool_decide (t = s) | _ => false end.

(** [v !== undefined] *)
Definition defined (v : val) : bool :=
  match v with JUndefined => false | _ => true end.

(** [Array.isArray(v)] *)
Definition isArray (v : val) : bool :=
  match v with JArr _ => true | _ => false end.

(** [typeof v === 'object'] ([null] included) *)
Definition typeof_object (v : val) : bool :=
  match v with JNull | JArr _ | JObj _ => true | _ => false end.

(** [typeof v === 'string'] *)
Definition typeof_string (v : val) : bool :=
  match v with JStr _ => true | _ => false end.

(** The property names the code reads. None of them is defined on the
    prototypes of Object, Array, String, Number or Boolean, and none is
    [length] or an index, so reading one from a value that is not a plain
    object gives [undefined]. *)
Inductive field : Type :=
| f_response | f_candidates | f_content | f_parts | f_thought | f_type
| f_text | f_thinking | f_thoughtSignature | f_signature
| f_error | f_error_description | f_code | f_status | f_message
| f_access_token | f_expires_in | f_refresh_token.

Definition field_name (f : field) : jstring :=
  lit match f with
      | f_response => "response" | f_candidates => "candidates"
      | f_content => "content" | f_parts => "parts" | f_thought => "thought"
      | f_type => "type" | f_text => "text" | f_thinking => "thinking"
      | f_thoughtSignature => "thoughtSignature" | f_signature => "signature"
      | f_error => "error" | f_error_description => "error_description"
      | f_code => "code" | f_status => "status" | f_message => "message"
      | f_access_token => "access_token" | f_expires_in => "expires_in"
      | f_refresh_token => "refresh_token"
      end.

(** [v.f]: a TypeError on [null] and [undefined]. *)
Definition prop (v : val) (f : field) : completion unit val :=
  match v with
  | JUndefined | JNull => Throw tt
  | JObj l => Normal (default JUndefined (own (field_name f) l))
  | _ => Normal JUndefined
  end.

(** [v?.f] *)
Definition prop_opt (v : val) (f : field) : val :=
  match v with
  | JObj l => default JUndefined (own (field_name f) l)
  | _ => JUndefined
  end.

(** [ToString(v)], as string concatenation and [Array.prototype.join]
    apply it. An array is joined with commas, its [null] and [undefined]
    elements as empty strings. An object is ['[object Object]'], unless it
    has an own property [toString]: that one is no function, [valueOf]
    returns the object itself, and the conversion throws a TypeError. *)
Fixpoint toString (v : val) : completion unit jstring :=
  match v with
  | JUndefined => Normal (lit "undefined")
  | JNull => Normal (lit "null")
  | JBool true => Normal (lit "true")
  | JBool false => Normal (lit "false")
  | JNum n => Normal (num_toString n)
  | JStr s => Normal s
  | JArr l =>
      (fix elems (l : list val) : completion unit jstring :=
         match l with
         | [] => Normal []
         | x :: rest =>
             match (match x with
                    | JUndefined | JNull => Normal []
                    | _ => toString x
                    end) with
             | Throw e => Throw e
             | Normal sx =>
                 match rest with
                 | [] => Normal sx
                 | _ => match elems rest with
                        | Throw e => Throw e
                        | Normal sr => Normal (sx ++ lit "," ++ sr)
                        end
                 end
             end
         end) l
  | JObj l =>
      match own (lit "toString") l with
      | Some _ => Throw tt
      | None => Normal (lit "[object Object]")
      end
  end.

(** [v <= 0]: [ToPrimitive] with hint number, then [ToNumber]; an array
    or object goes through its string. *)
Definition le_zero (v : val) : completion unit bool :=
  match v with
  | JUndefined => Normal false
  | JNull => Normal true
  | JBool b => Normal (negb b)
  | JNum n => Normal (num_le_zero n)
  | JStr s => Normal (str_le_zero s)
  | JArr _ | JObj _ =>
      match toString v with
      | Normal s => Normal (str_le_zero s)
      | Throw e => Throw e
      end
  end.

End Values.
End Js.

(** ** A reference platform

    [JSON.parse] and [JSON.stringify] after ECMA-404 and ECMA-262, for the
    closed examples. A Number is kept as the exact decimal its text
    denotes and printed in plain decimal notation: the rounding to a
    double is not modelled. The examples below hold no Number but small
    integers (a status code, 3600), which a double holds exactly. *)

Module Reference.
Import Js.

(** A Number of the reference platform: the decimal [mant * 10 ^ exp10]
    that a numeric text denotes, kept exactly. *)
Record decimal : Type := { mant : Z; exp10 : Z }.

Abbreviation rval := (value decimal).

Definition digit_unit (d : Z) : N := Z.to_N (48 + d).

(** Decimal digits of a natural number, most significant first. *)
Fixpoint digits_fuel (fuel : nat) (n : Z) (acc : jstring) : jstring :=
  match fuel with
  | O => acc
  | S fuel' =>
      let acc' := digit_unit (n mod 10) :: acc in
      if (n / 10 =? 0)%Z then acc' else digits_fuel fuel' (n / 10) acc'
  end.

Definition digits (n : Z) : jstring :=
  digits_fuel (S (Z.to_nat (Z.log2 n))) n [].

(** Plain decimal notation: an integer as its digits, a fraction with a
    point. *)
Definition decimal_toString (d : decimal) : jstring :=
  let sign := if (mant d <? 0)%Z then lit "-" else [] in
  let m := Z.abs (mant d) in
  if (0 <=? exp10 d)%Z then sign ++ digits (m * 10 ^ exp10 d)
  else
    let scale := (10 ^ (- exp10 d))%Z in
    let frac := digits (m mod scale) in
    sign ++ digits (m / scale) ++ lit "."
      ++ replicate (Z.to_nat (- exp10 d) - length frac) (digit_unit 0) ++ frac.

(** *** [JSON.parse] (ECMA-404) *)

Definition is_json_ws (c : N) : bool :=
  ((c =? 32) || (c =? 9) || (c =? 10) || (c =? 13))%N.

Fixpoint skip_ws (s : jstring) : jstring :=
  match s with
  | c :: s' => if is_json_ws c then skip_ws s' else s
  | [] => []
  end.

Definition is_digit (c : N) : bool := ((48 <=? c) && (c <=? 57))%N.

Definition hex_value (c : N) : option N :=
  if is_digit c then Some (c - 48)%N
  else if ((97 <=? c) && (c <=? 102))%N then Some (c - 87)%N
  else if ((65 <=? c) && (c <=? 70))%N then Some (c - 55)%N
  else None.

(** The characters of a string after its opening quote, up to the closing
    one. *)
Fixpoint parse_chars (s : jstring) : option (jstring * jstring) :=
  match s with
  | [] => None
  | c :: s' =>
      if (c =? dquote)%N then Some ([], s')
      else if (c <? 32)%N then None
      else if (c =? 92)%N then
        match s' with
        | e :: s'' =>
            let simple (u : N) :=
              match parse_chars s'' with
              | Some (t, r) => Some (u :: t, r)
              | None => None
              end in
            if (e =? dquote)%N then simple dquote
            else if (e =? 92)%N then simple 92%N
            else if (e =? 47)%N then simple 47%N
            else if (e =? 98)%N then simple 8%N
            else if (e =? 102)%N then simple 12%N
            else if (e =? 110)%N then simple 10%N
            else if (e =? 114)%N then simple 13%N
            else if (e =? 116)%N then simple 9%N
            else if (e =? 117)%N then
              match s'' with
              | h1 :: h2 :: h3 :: h4 :: s3 =>
                  match hex_value h1, hex_value h2, hex_value h3, hex_value h4 with
                  | Some a, Some b, Some c', Some d =>
                      match parse_chars s3 with
                      | Some (t, r) => Some ((((a * 16 + b) * 16 + c') * 16 + d)%N :: t, r)
                      | None => None
                      end
                  | _, _, _, _ => None
                  end
              | _ => None
              end
            else None
        | [] => None
        end
      else
        match parse_chars s' with
        | Some (t, r) => Some (c :: t, r)
        | None => None
        end
  end.

(** The longest prefix of decimal digits, as their values. *)
Fixpoint take_digits (s : jstring) : list Z * jstring :=
  match s with
  | c :: s' =>
      if is_digit c then
        let '(ds, r) := take_digits s' in (Z.of_N (c - 48) :: ds, r)
      else ([], s)
  | [] => ([], [])
  end.

Definition of_digits (ds : list Z) : Z :=
  fold_left (fun acc d => (acc * 10 + d)%Z) ds 0%Z.

(** An exponent part [e], [e+] or [e-] followed by digits, if there is
    one; [None] when the part is started and has no digit. *)
Definition parse_exponent (s : jstring) : option (Z * jstring) :=
  match s with
  | c :: s' =>
      if ((c =? 101) || (c =? 69))%N then
        let '(neg, s1) :=
          match s' with
          | 45%N :: r => (true, r)
          | 43%N :: r => (false, r)
          | _ => (false, s')
          end in
        match take_digits s1 with
        | ([], _) => None
        | (ds, r) => Some (if neg then (- of_digits ds)%Z else of_digits ds, r)
        end
      else Some (0%Z, s)
  | [] => Some (0%Z, [])
  end.

(** A JSON number: an optional minus, an integer part with no leading
    zero, an optional fraction with at least one digit, an optional
    exponent. *)
Definition parse_number (s : jstring) : option (decimal * jstring) :=
  let '(neg, s1) := match s with 45%N :: r => (true, r) | _ => (false, s) end in
  match take_digits s1 with
  | ([], _) => None
  | (0%Z :: _ :: _, _) => None
  | (ip, s2) =>
      let frac :=
        match s2 with
        | 46%N :: r =>
            match take_digits r with
            | ([], _) => None
            | (fp, r') => Some (fp, r')
            end
        | _ => Some ([], s2)
        end in
      match frac with
      | None => None
      | Some (fp, s3) =>
          match parse_exponent s3 with
          | None => None
          | Some (e, s4) =>
              let m := of_digits (ip ++ fp) in
              Some ({| mant := if neg then (- m)%Z else m;
                       exp10 := (e - Z.of_nat (length fp))%Z |}, s4)
          end
      end
  end.

(** [JSON.parse] keeps the last value of a repeated key, at the place of
    the first. *)
Fixpoint put (k : jstring) (v : rval) (l : list (jstring * rval))
  : list (jstring * rval) :=
  match l with
  | [] => [(k, v)]
  | (k', v') :: l' =>
      if bool_decide (k' = k) then (k, v) :: l' else (k', v') :: put k v l'
  end.

Fixpoint parse_value (fuel : nat) (s : jstring) : option (rval * jstring) :=
  match fuel with
  | O => None
  | S fuel' =>
      match skip_ws s with
      | [] => None
      | c :: r =>
          if (c =? 123)%N then
            match skip_ws r with
            | 125%N :: r' => Some (JObj [], r')
            | _ => parse_members fuel' r []
            end
          else if (c =? 91)%N then
            match skip_ws r with
            | 93%N :: r' => Some (JArr [], r')
            | _ => parse_elements fuel' r []
            end
          else if (c =? dquote)%N then
            match parse_chars r with
            | Some (t, r') => Some (JStr t, r')
            | None => None
            end
          else if startsWith (c :: r) (lit "true") then Some (JBool true, drop 4 (c :: r))
          else if startsWith (c :: r) (lit "false") then Some (JBool false, drop 5 (c :: r))
          else if startsWith (c :: r) (lit "null") then Some (JNull, drop 4 (c :: r))
          else
            match parse_number (c :: r) with
            | Some (d, r') => Some (JNum d, r')
            | None => None
            end
      end
  end
with parse_elements (fuel : nat) (s : jstring) (acc : list rval)
  : option (rval * jstring) :=
  match fuel with
  | O => None
  | S fuel' =>
      match parse_value fuel' s with
      | None => None
      | Some (v, r) =>
          match skip_ws r with
          | 44%N :: r' => parse_elements fuel' r' (acc ++ [v])
          | 93%N :: r' => Some (JArr (acc ++ [v]), r')
          | _ => None
          end
      end
  end
with parse_members (fuel : nat) (s : jstring) (acc : list (jstring * rval))
  : option (rval * jstring) :=
  match fuel with
  | O => None
  | S fuel' =>
      match skip_ws s with
      | 34%N :: r =>
          match parse_chars r with
          | None => None
          | Some (k, r1) =>
              match skip_ws r1 with
              | 58%N :: r2 =>
                  match parse_value fuel' r2 with
                  | None => None
                  | Some (v, r3) =>
                      match skip_ws r3 with
                      | 44%N :: r4 => parse_members fuel' r4 (put k v acc)
                      | 125%N :: r4 => Some (JObj (put k v acc), r4)
                      | _ => None
                      end
                  end
              | _ => None
              end
          end
      | _ => None
      end
  end.

Definition parse (s : jstring) : option rval :=
  match parse_value (S (length s)) s with
  | Some (v, r) => match skip_ws r with [] => Some v | _ => None end
  | None => None
  end.

(** *** [JSON.stringify] *)

Definition hex_digit (n : N) : N := if (n <? 10)%N then (48 + n)%N else (87 + n)%N.

Definition escape_unit (c : N) : jstring :=
  lit "\u" ++ [hex_digit (c / 4096); hex_digit (c / 256 mod 16);
               hex_digit (c / 16 mod 16); hex_digit (c mod 16)]%N.

Definition is_lead (c : N) : bool := ((55296 <=? c) && (c <=? 56319))%N.
Definition is_trail (c : N) : bool := ((56320 <=? c) && (c <=? 57343))%N.

(** [QuoteJSONString] without its quotes; [lead] tells that the previous
    unit was a lead surrogate written as it is. *)
Fixpoint quote_units (lead : bool) (s : jstring) : jstring :=
  match s with
  | [] => []
  | c :: s' =>
      if (c =? 8)%N then lit "\b" ++ quote_units false s'
      else if (c =? 9)%N then lit "\t" ++ quote_units false s'
      else if (c =? 10)%N then lit "\n" ++ quote_units false s'
      else if (c =? 12)%N then lit "\f" ++ quote_units false s'
      else if (c =? 13)%N then lit "\r" ++ quote_units false s'
      else if (c =? dquote)%N then [92%N; dquote] ++ quote_units false s'
      else if (c =? 92)%N then [92%N; 92%N] ++ quote_units false s'
      else if (c <? 32)%N then escape_unit c ++ quote_units false s'
      else if is_lead c then
        match s' with
        | d :: _ => if is_trail d then c :: quote_units true s'
                    else escape_unit c ++ quote_units false s'
        | [] => escape_unit c
        end
      else if is_trail c then
        (if lead then [c] else escape_unit c) ++ quote_units false s'
      else c :: quote_units false s'
  end.

Definition quote (s : jstring) : jstring := [dquote] ++ quote_units false s ++ [dquote].

Fixpoint stringify (v : rval) : jstring :=
  match v with
  | JUndefined | JNull => lit "null"
  | JBool true => lit "true"
  | JBool false => lit "false"
  | JNum d => decimal_toString d
  | JStr s => quote s
  | JArr l =>
      lit "[" ++ join (lit ",") (map stringify l) ++ lit "]"
  | JObj l =>
      lit "{"
      ++ join (lit ",")
           ((fix members (l : list (jstring * rval)) : list jstring :=
               match l with
               | [] => []
               | (_, JUndefined) :: l' => members l'
               | (k, x) :: l' => (quote k ++ lit ":" ++ stringify x) :: members l'
               end) l)
      ++ lit "}"
  end.


(** *** Numbers of the reference platform *)

(** The decimal rounds to zero as a double: its magnitude is at most
    [2 ^ -1075]. *)
Definition rounds_to_zero (d : decimal) : bool :=
  if (0 <=? exp10 d)%Z then (mant d =? 0)%Z
  else (Z.abs (mant d) * 2 ^ 1075 <=? 10 ^ (- exp10 d))%Z.

(** [StringToNumber(s) <= 0] for a decimal literal with an optional sign,
    [Infinity], or a binary, octal or hexadecimal literal; any other text
    is [NaN]. *)
Definition all_zero (ds : list Z) : bool := forallb (fun d => (d =? 0)%Z) ds.

Definition radix_digits_zero (base : N) (s : jstring) : option bool :=
  match s with
  | [] => None
  | _ =>
      if forallb (fun c => match hex_value c with
                           | Some h => (h <? base)%N
                           | None => false
                           end) s
      then Some (forallb (fun c => (c =? 48)%N) s)
      else None
  end.

Definition string_le_zero (s : jstring) : bool :=
  match trim s with
  | [] => true
  | 48%N :: x :: r =>
      if ((x =? 120) || (x =? 88))%N then default false (radix_digits_zero 16 r)
      else if ((x =? 111) || (x =? 79))%N then default false (radix_digits_zero 8 r)
      else if ((x =? 98) || (x =? 66))%N then default false (radix_digits_zero 2 r)
      else
        let '(ip, s1) := take_digits (48%N :: x :: r) in
        let '(fp, s2) := match s1 with
                         | 46%N :: r' => take_digits r'
                         | _ => ([], s1)
                         end in
        match parse_exponent s2 with
        | Some (e, []) =>
            rounds_to_zero {| mant := of_digits (ip ++ fp);
                              exp10 := (e - Z.of_nat (length fp))%Z |}
        | _ => false
        end
  | t =>
      let '(neg, s0) := match t with
                        | 45%N :: r => (true, r)
                        | 43%N :: r => (false, r)
                        | _ => (false, t)
                        end in
      if bool_decide (s0 = lit "Infinity") then neg
      else
        let '(ip, s1) := take_digits s0 in
        let '(fp, s2) := match s1 with
                         | 46%N :: r' => take_digits r'
                         | _ => ([], s1)
                         end in
        match ip ++ fp, parse_exponent s2 with
        | _ :: _, Some (e, []) =>
            neg || rounds_to_zero {| mant := of_digits (ip ++ fp);
                                     exp10 := (e - Z.of_nat (length fp))%Z |}
        | _, _ => false
        end
  end.

Definition platform : Platform := {|
  number := decimal;
  num_falsy := rounds_to_zero;
  num_toString := decimal_toString;
  num_of_Z := fun z => {| mant := z; exp10 := 0 |};
  JSON_parse := parse;
  JSON_stringify := stringify;
  syntax_error_message := fun _ => lit "Unexpected token in JSON";
  num_le_zero := fun d => (mant d <=? 0)%Z || rounds_to_zero d;
  str_le_zero := string_le_zero;
|}.

End Reference.

(** ** [TextDecoder] and [TextEncoder] (WHATWG Encoding, UTF-8) *)

Module Utf8.
Import Js.

(** The state of the UTF-8 decoder, with the flag of [TextDecoder] that
    tells whether the byte order mark was passed. *)
Record decoder : Type := {
  code_point : N;
  bytes_seen : N;
  bytes_needed : N;
  lower_boundary : N;
  upper_boundary : N;
  bom_seen : bool;
}.

(** [new TextDecoder()] *)
Definition fresh : decoder :=
  {| code_point := 0; bytes_seen := 0; bytes_needed := 0;
     lower_boundary := 128; upper_boundary := 191; bom_seen := false |}.

Definition reset (d : decoder) : decoder :=
  {| code_point := 0; bytes_seen := 0; bytes_needed := 0;
     lower_boundary := 128; upper_boundary := 191; bom_seen := bom_seen d |}.

Definition replacement : N := 65533%N.

(** A byte that starts a character ([bytes_needed] is 0). *)
Definition lead_byte (d : decoder) (b : N) : decoder * list N :=
  if (b <=? 127)%N then (d, [b])
  else if ((194 <=? b) && (b <=? 223))%N then
    ({| code_point := N.land b 31; bytes_seen := 0; bytes_needed := 1;
        lower_boundary := 128; upper_boundary := 191; bom_seen := bom_seen d |}, [])
  else if ((224 <=? b) && (b <=? 239))%N then
    ({| code_point := N.land b 15; bytes_seen := 0; bytes_needed := 2;
        lower_boundary := if (b =? 224)%N then 160%N else 128%N;
        upper_boundary := if (b =? 237)%N then 159%N else 191%N;
        bom_seen := bom_seen d |}, [])
  else if ((240 <=? b) && (b <=? 244))%N then
    ({| code_point := N.land b 7; bytes_seen := 0; bytes_needed := 3;
        lower_boundary := if (b =? 240)%N then 144%N else 128%N;
        upper_boundary := if (b =? 244)%N then 143%N else 191%N;
        bom_seen := bom_seen d |}, [])
  else (d, [replacement]).

(** The handler of the decoder on one byte: the code points it emits, an
    error as U+FFFD. A byte out of the boundaries ends the character in
    error and is read again as a first byte. *)
Definition handler (d : decoder) (b : N) : decoder * list N :=
  if (bytes_needed d =? 0)%N then lead_byte d b
  else if negb ((lower_boundary d <=? b) && (b <=? upper_boundary d))%N then
    let '(d', out) := lead_byte (reset d) b in (d', replacement :: out)
  else
    let cp := N.lor (N.shiftl (code_point d) 6) (N.land b 63) in
    let seen := (bytes_seen d + 1)%N in
    if (seen =? bytes_needed d)%N then (reset d, [cp])
    else
      ({| code_point := cp; bytes_seen := seen; bytes_needed := bytes_needed d;
          lower_boundary := 128; upper_boundary := 191; bom_seen := bom_seen d |}, []).

(** A scalar value as UTF-16 code units. *)
Definition units_of (cp : N) : jstring :=
  if (cp <? 65536)%N then [cp]
  else [(55296 + (cp - 65536) / 1024)%N; (56320 + (cp - 65536) mod 1024)%N].

(** Serializing the output: the first code point is dropped when it is the
    byte order mark. *)
Fixpoint serialize (seen : bool) (cps : list N) : bool * jstring :=
  match cps with
  | [] => (seen, [])
  | cp :: rest =>
      let '(seen', s) := serialize true rest in
      (seen', if negb seen && (cp =? 65279)%N then s else units_of cp ++ s)
  end.

Definition with_bom (d : decoder) (seen : bool) : decoder :=
  {| code_point := code_point d; bytes_seen := bytes_seen d;
     bytes_needed := bytes_needed d; lower_boundary := lower_boundary d;
     upper_boundary := upper_boundary d; bom_seen := seen |}.

(** One byte through the decoder, as text. *)
Definition decode_byte (d : decoder) (b : Byte.byte) : decoder * jstring :=
  let '(d', cps) := handler d (Byte.to_N b) in
  let '(seen, s) := serialize (bom_seen d') cps in
  (with_bom d' seen, s).

(** [decoder.decode(chunk, { stream: true })] *)
Fixpoint decode (d : decoder) (chunk : list Byte.byte) : decoder * jstring :=
  match chunk with
  | [] => (d, [])
  | b :: rest =>
      let '(d1, s1) := decode_byte d b in
      let '(d2, s2) := decode d1 rest in
      (d2, s1 ++ s2)
  end.

(** [decoder.decode()]: the end of the stream; a character left
    incomplete is an error. *)
Definition decode_end (d : decoder) : decoder * jstring :=
  if (bytes_needed d =? 0)%N then (d, [])
  else
    let '(seen, s) := serialize (bom_seen d) [replacement] in
    (with_bom (reset d) seen, s).

(** The UTF-8 bytes of a scalar value. *)
Definition bytes_of (cp : N) : list Byte.byte :=
  let byte (n : N) := default Byte.x00 (Byte.of_N n) in
  if (cp <? 128)%N then [byte cp]
  else if (cp <? 2048)%N then
    [byte (192 + cp / 64); byte (128 + cp mod 64)]%N
  else if (cp <? 65536)%N then
    [byte (224 + cp / 4096); byte (128 + cp / 64 mod 64); byte (128 + cp mod 64)]%N
  else
    [byte (240 + cp / 262144); byte (128 + cp / 4096 mod 64);
     byte (128 + cp / 64 mod 64); byte (128 + cp mod 64)]%N.

(** [encoder.encode(s)]: a surrogate without its pair is U+FFFD. *)
Fixpoint encode (s : jstring) : list Byte.byte :=
  match s with
  | [] => []
  | c :: s' =>
      if ((55296 <=? c) && (c <=? 56319))%N then
        match s' with
        | d :: s'' =>
            if ((56320 <=? d) && (d <=? 57343))%N then
              bytes_of (65536 + (c - 55296) * 1024 + (d - 56320))%N ++ encode s''
            else bytes_of replacement ++ encode s'
        | [] => bytes_of replacement
        end
      else if ((56320 <=? c) && (c <=? 57343))%N then bytes_of replacement ++ encode s'
      else bytes_of c ++ encode s'
  end.

(** The decoder between two characters, and in the middle of one. *)
Definition idle (seen : bool) : decoder :=
  {| code_point := 0; bytes_seen := 0; bytes_needed := 0;
     lower_boundary := 128; upper_boundary := 191; bom_seen := seen |}.

Definition partial (cp seen needed lower upper : N) (bom : bool) : decoder :=
  {| code_point := cp; bytes_seen := seen; bytes_needed := needed;
     lower_boundary := lower; upper_boundary := upper; bom_seen := bom |}.

(** A Unicode scalar value: a code point that is no surrogate. *)
Definition scalar (cp : N) : Prop := (cp < 55296 \/ 57344 <= cp < 1114112)%N.

(** What the decoder shows of a scalar value: nothing of a byte order
    mark that comes first. *)
Definition shown (seen : bool) (cp : N) : jstring :=
  if negb seen && (cp =? 65279)%N then [] else units_of cp.

(** A string of 16-bit code units whose surrogates come in pairs. *)
Fixpoint well_formed (s : jstring) : bool :=
  match s with
  | [] => true
  | c :: s' =>
      if ((55296 <=? c) && (c <=? 56319))%N then
        match s' with
        | d :: s'' => ((56320 <=? d) && (d <=? 57343))%N && well_formed s''
        | [] => false
        end
      else if ((56320 <=? c) && (c <=? 57343))%N then false
      else (c <? 65536)%N && well_formed s'
  end.

Definition starts_with_bom (s : jstring) : bool :=
  match s with
  | c :: _ => (c =? 65279)%N
  | [] => false
  end.

End Utf8.

(** ** [createThoughtBuffer] and [createSignatureStore] *)

Module ThoughtBuffer.
Import Js.

(** [new Map<number, string>()]; an index is an integral Number. *)
Definition createThoughtBuffer : gmap Z jstring := ∅.

(** [get: (index) => buffer.get(index)] *)
Definition get (index : Z) (buffer : gmap Z jstring) : option jstring :=
  buffer !! index.

(** [set: (index, text) => buffer.set(index, text)] *)
Definition set (index : Z) (text : jstring) (buffer : gmap Z jstring)
  : gmap Z jstring :=
  <[index := text]> buffer.

(** [clear: () => buffer.clear()] *)
Definition clear (buffer : gmap Z jstring) : gmap Z jstring := ∅.

End ThoughtBuffer.

Module SignatureStore.
Import Js.
Section Store.
Context `{P : Platform}.

(** [SignedThinking]: the signature is whatever truthy value the response
    carried (the source casts it to [string] without a check). *)
Record SignedThinking : Type := { text : jstring; signature : val }.

(** [new Map<string, SignedThinking>()] *)
Definition createSignatureStore : gmap jstring SignedThinking := ∅.

Definition get (key : jstring) (store : gmap jstring SignedThinking)
  : option SignedThinking :=
  store !! key.

Definition set (key : jstring) (v : SignedThinking)
  (store : gmap jstring SignedThinking) : gmap jstring SignedThinking :=
  <[key := v]> store.

Definition has (key : jstring) (store : gmap jstring SignedThinking) : bool :=
  bool_decide (is_Some (store !! key)).

Definition delete (key : jstring) (store : gmap jstring SignedThinking)
  : gmap jstring SignedThinking :=
  base.delete key store.

(** The four operations of the interface, and a call of one at a reading
    of the clock (milliseconds). The store never reads the clock: the
    reading is there to state how old an entry is. *)
Inductive op : Type :=
| Get (key : jstring)
| Set_ (key : jstring) (v : SignedThinking)
| Has (key : jstring)
| Delete (key : jstring).

Record call : Type := { at_ms : Z; what : op }.

Definition step (store : gmap jstring SignedThinking) (c : call)
  : gmap jstring SignedThinking :=
  match what c with
  | Get _ | Has _ => store
  | Set_ k v => set k v store
  | Delete k => delete k store
  end.

(** The store after a sequence of calls, oldest first. *)
Definition run (calls : list call) : gmap jstring SignedThinking :=
  foldl step createSignatureStore calls.

(** What the calls wrote last under [key], and when; [past] is latest
    first. *)
Fixpoint latest (key : jstring) (past : list call) : option (Z * SignedThinking) :=
  match past with
  | [] => None
  | c :: past' =>
      match what c with
      | Set_ k v => if bool_decide (k = key) then Some (at_ms c, v) else latest key past'
      | Delete k => if bool_decide (k = key) then None else latest key past'
      | Get _ | Has _ => latest key past'
      end
  end.

(** The reading of the specification: a [get] at time [now] returns no
    entry written more than [ttl] milliseconds earlier. *)
Definition expires_after (ttl : Z) : Prop :=
  forall (calls : list call) (now : Z) (key : jstring) (t0 : Z) (v : SignedThinking),
    latest key (rev calls) = Some (t0, v) ->
    (ttl < now - t0)%Z ->
    get key (run calls) = None.

End Store.
End SignatureStore.

(** ** [transformer.ts] *)

Module Transformer.
Import Js.
Export SignatureStore.
Section Transformer.
Context `{P : Platform}.

(** The state of whoever owns the callbacks: a callback reads and writes
    it, returns or throws; it has no access to the store, the buffer or
    the debug flag. *)
Context {W : Type}.

Record StreamingCallbacks : Type := {
  onCacheSignature : option (jstring -> jstring -> val -> W -> completion unit unit * W);
  onInjectDebug : option (val -> jstring -> W -> completion unit val * W);
  transformThinkingParts : option (val -> W -> completion unit val * W);
}.

Record StreamingOptions : Type := {
  cacheSignatures : option bool;
  signatureSessionKey : option jstring;
  debugText : option jstring;
}.

(** What a line transform reads and writes: the signature store, the
    thought buffer, [debugState.injected], and the callbacks' state. *)
Record Env : Type := {
  signatureStore : gmap jstring SignedThinking;
  thoughtBuffer : gmap Z jstring;
  injected : bool;
  world : W;
}.

(** *** State and exceptions *)

Definition M (A : Type) : Type := Env -> completion unit A * Env.

Definition ret {A : Type} (a : A) : M A := fun e => (Normal a, e).

Definition bind {A B : Type} (m : M A) (k : A -> M B) : M B :=
  fun e =>
    match m e with
    | (Normal a, e') => k a e'
    | (Throw x, e') => (Throw x, e')
    end.

Local Notation "x <- m ;; k" := (bind m (fun x => k))
  (at level 100, m at next level, right associativity).
Local Notation "m ;;; k" := (bind m (fun _ => k))
  (at level 100, right associativity).

Definition lift {A : Type} (c : completion unit A) : M A := fun e => (c, e).

Definition throw {A : Type} : M A := fun e => (Throw tt, e).

Definition with_world (e : Env) (w : W) : Env :=
  {| signatureStore := signatureStore e; thoughtBuffer := thoughtBuffer e;
     injected := injected e; world := w |}.

(** A callback, run on the [world]. *)
Definition call {A : Type} (f : W -> completion unit A * W) : M A :=
  fun e => let '(r, w) := f (world e) in (r, with_world e w).

(** [thoughtBuffer.get(index) ?? ''] *)
Definition thought (index : Z) : M jstring :=
  fun e => (Normal (default [] (ThoughtBuffer.get index (thoughtBuffer e))), e).

Definition set_thought (index : Z) (text : jstring) : M unit :=
  fun e =>
    (Normal tt,
     {| signatureStore := signatureStore e;
        thoughtBuffer := ThoughtBuffer.set index text (thoughtBuffer e);
        injected := injected e; world := world e |}).

Definition store_set (key : jstring) (v : SignedThinking) : M unit :=
  fun e =>
    (Normal tt,
     {| signatureStore := SignatureStore.set key v (signatureStore e);
        thoughtBuffer := thoughtBuffer e;
        injected := injected e; world := world e |}).

Definition set_injected : M unit :=
  fun e =>
    (Normal tt,
     {| signatureStore := signatureStore e; thoughtBuffer := thoughtBuffer e;
        injected := true; world := world e |}).

(** [array.forEach((x, index) => f)] from index [i] on. *)
Fixpoint forEach {A : Type} (f : A -> nat -> M unit) (l : list A) (i : nat) : M unit :=
  match l with
  | [] => ret tt
  | x :: rest => f x i ;;; forEach f rest (S i)
  end.

(** [onCacheSignature?.(key, text, signature); signatureStore.set(...)] *)
Definition cache_signature (callbacks : StreamingCallbacks)
  (signatureSessionKey fullText : jstring) (signature : val) : M unit :=
  match onCacheSignature callbacks with
  | Some f => call (f signatureSessionKey fullText signature)
  | None => ret tt
  end ;;;
  store_set signatureSessionKey {| text := fullText; signature := signature |}.

(** The body of [content.parts.forEach((part) => ...)] is two [if]s. The
    first accumulates the text of a thought. *)
Definition accumulate_thought (index : Z) (p : val) : M unit :=
  p_thought <- lift (prop p f_thought) ;;
  p_type <- lift (prop p f_type) ;;
  if is_true p_thought || is_str (lit "thinking") p_type then
    p_text <- lift (prop p f_text) ;;
    p_thinking <- lift (prop p f_thinking) ;;
    let text := or_else (or_else p_text p_thinking) (JStr []) in
    if truthy text then
      current <- thought index ;;
      s <- lift (toString text) ;;
      set_thought index (current ++ s)
    else ret tt
  else ret tt.

(** The second pairs a signature with the text accumulated so far. *)
Definition cache_part_signature (callbacks : StreamingCallbacks)
  (signatureSessionKey : jstring) (index : Z) (p : val) : M unit :=
  p_thoughtSignature <- lift (prop p f_thoughtSignature) ;;
  if truthy p_thoughtSignature then
    fullText <- thought index ;;
    if nonempty fullText then
      cache_signature callbacks signatureSessionKey fullText p_thoughtSignature
    else ret tt
  else ret tt.

Definition scan_part (callbacks : StreamingCallbacks)
  (signatureSessionKey : jstring) (index : Z) (p : val) : M unit :=
  accumulate_thought index p ;;;
  cache_part_signature callbacks signatureSessionKey index p.

(** The body of [resp.candidates.forEach((candidate, index) => ...)]. *)
Definition scan_candidate (callbacks : StreamingCallbacks)
  (signatureSessionKey : jstring) (cand : val) (index : nat) : M unit :=
  let content := prop_opt cand f_content in
  if negb (truthy content) then ret tt
  else
    parts <- lift (prop content f_parts) ;;
    match parts with
    | JArr ps =>
        forEach (fun part _ =>
                   scan_part callbacks signatureSessionKey (Z.of_nat index) part)
                ps 0
    | _ => ret tt
    end.

(** [resp.content.forEach((block) => ...)], with [thinkingText] the
    variable the closure updates. *)
Fixpoint scan_blocks (callbacks : StreamingCallbacks)
  (signatureSessionKey : jstring) (blocks : list val) (thinkingText : jstring)
  : M unit :=
  match blocks with
  | [] => ret tt
  | b :: rest =>
      thinkingText' <-
        (if is_str (lit "thinking") (prop_opt b f_type) then
           let piece := or_else (or_else (prop_opt b f_thinking) (prop_opt b f_text))
                                (JStr []) in
           s <- lift (toString piece) ;;
           ret (thinkingText ++ s)
         else ret thinkingText) ;;
      (if truthy (prop_opt b f_signature) && nonempty thinkingText' then
         cache_signature callbacks signatureSessionKey thinkingText'
                         (prop_opt b f_signature)
       else ret tt) ;;;
      scan_blocks callbacks signatureSessionKey rest thinkingText'
  end.

Definition cacheThinkingSignaturesFromResponse (response : val)
  (signatureSessionKey : jstring) (callbacks : StreamingCallbacks) : M unit :=
  if negb (truthy response) || negb (typeof_object response) then ret tt
  else
    candidates <- lift (prop response f_candidates) ;;
    match candidates with
    | JArr cs => forEach (scan_candidate callbacks signatureSessionKey) cs 0
    | _ => ret tt
    end ;;;
    content <- lift (prop response f_content) ;;
    match content with
    | JArr bs => scan_blocks callbacks signatureSessionKey bs []
    | _ => ret tt
    end.

(** The text of [JSON.stringify(v)] in a template literal. *)
Definition stringify_text (v : val) : jstring :=
  match v with
  | JUndefined => lit "undefined"
  | _ => JSON_stringify v
  end.

(** [options.cacheSignatures && options.signatureSessionKey] *)
Definition caching_key (options : StreamingOptions) : option jstring :=
  match cacheSignatures options, signatureSessionKey options with
  | Some true, Some k => if nonempty k then Some k else None
  | _, _ => None
  end.

(** [options.debugText && callbacks.onInjectDebug && !debugState.injected] *)
Definition debug_injection (callbacks : StreamingCallbacks)
  (options : StreamingOptions) (already : bool)
  : option (val -> W -> completion unit val * W) :=
  match debugText options, onInjectDebug callbacks with
  | Some t, Some f => if nonempty t && negb already then Some (fun r => f r t) else None
  | _, _ => None
  end.

(** The [try] block of [transformSseLine]: the rewritten line, or [None]
    when the block falls through to [return line]. *)
Definition rewrite_line (json : jstring) (callbacks : StreamingCallbacks)
  (options : StreamingOptions) : M (option jstring) :=
  match JSON_parse json with
  | None => throw
  | Some parsed =>
      parsed_response <- lift (prop parsed f_response) ;;
      if defined parsed_response then
        match caching_key options with
        | Some key => cacheThinkingSignaturesFromResponse parsed_response key callbacks
        | None => ret tt
        end ;;;
        response <-
          (fun e =>
             match debug_injection callbacks options (injected e) with
             | Some inject => (r <- call (inject parsed_response) ;; set_injected ;;; ret r) e
             | None => ret parsed_response e
             end) ;;
        transformed <-
          match transformThinkingParts callbacks with
          | Some f => call (f response)
          | None => ret response
          end ;;
        ret (Some (lit "data: " ++ stringify_text transformed))
      else ret None
  end.

Definition transformSseLine (line : jstring) (callbacks : StreamingCallbacks)
  (options : StreamingOptions) (e : Env) : jstring * Env :=
  if negb (startsWith line (lit "data:")) then (line, e)
  else
    let json := trim (slice 5 line) in
    if negb (nonempty json) then (line, e)
    else
      match rewrite_line json callbacks options e with
      | (Normal (Some out), e') => (out, e')
      | (Normal None, e') => (line, e')
      | (Throw _, e') => (line, e')
      end.

(** A line is not transformable when it does not start with the marker,
    when its payload is empty, when the payload is no JSON text, or when
    the parsed payload has no [response]. *)
Definition lacks_response (parsed : val) : bool :=
  negb (defined (prop_opt parsed f_response)).

Definition not_transformable (line : jstring) : Prop :=
  startsWith line (lit "data:") = false
  \/ trim (slice 5 line) = []
  \/ JSON_parse (trim (slice 5 line)) = None
  \/ exists parsed, JSON_parse (trim (slice 5 line)) = Some parsed
                    /\ lacks_response parsed = true.

(** *** [transformStreamingPayload] *)

(** The function mapped over the lines; only the callback's state is
    touched. *)
Definition transform_payload_line
  (transformThinkingParts : option (val -> W -> completion unit val * W))
  (line : jstring) (w : W) : jstring * W :=
  if negb (startsWith line (lit "data:")) then (line, w)
  else
    let json := trim (slice 5 line) in
    if negb (nonempty json) then (line, w)
    else
      match JSON_parse json with
      | None => (line, w)
      | Some parsed =>
          match prop parsed f_response with
          | Throw _ => (line, w)
          | Normal parsed_response =>
              if defined parsed_response then
                match transformThinkingParts with
                | Some f =>
                    match f parsed_response w with
                    | (Normal transformed, w') =>
                        (lit "data: " ++ stringify_text transformed, w')
                    | (Throw _, w') => (line, w')
                    end
                | None => (lit "data: " ++ stringify_text parsed_response, w)
                end
              else (line, w)
          end
      end.

(** [lines.map(f)], in order. *)
Fixpoint map_lines (f : jstring -> W -> jstring * W) (lines : list jstring) (w : W)
  : list jstring * W :=
  match lines with
  | [] => ([], w)
  | l :: rest =>
      let '(l', w1) := f l w in
      let '(rest', w2) := map_lines f rest w1 in
      (l' :: rest', w2)
  end.

Definition transformStreamingPayload (payload : jstring)
  (transformThinkingParts : option (val -> W -> completion unit val * W))
  (w : W) : jstring * W :=
  let '(lines, w') :=
    map_lines (transform_payload_line transformThinkingParts) (split_nl payload) w in
  (join [newline] lines, w').

(** *** [createStreamingTransformer] *)

(** The transformer between two calls: the decoder, the carry-over
    [buffer], what the line transforms share, and the chunks enqueued so
    far. *)
Record Stream : Type := {
  decoder : Utf8.decoder;
  buffer : jstring;
  env : Env;
  enqueued : list (list Byte.byte);
}.

Definition createStreamingTransformer (store : gmap jstring SignedThinking) (w : W)
  : Stream :=
  {| decoder := Utf8.fresh; buffer := [];
     env := {| signatureStore := store;
               thoughtBuffer := ThoughtBuffer.createThoughtBuffer;
               injected := false; world := w |};
     enqueued := [] |}.

(** [for (const line of lines) controller.enqueue(encode(transformSseLine(line) + '\n'))] *)
Fixpoint emit_lines (callbacks : StreamingCallbacks) (options : StreamingOptions)
  (lines : list jstring) (e : Env) : list (list Byte.byte) * Env :=
  match lines with
  | [] => ([], e)
  | line :: rest =>
      let '(transformedLine, e1) := transformSseLine line callbacks options e in
      let '(out, e2) := emit_lines callbacks options rest e1 in
      (Utf8.encode (transformedLine ++ [newline]) :: out, e2)
  end.

(** [transform(chunk, controller)] *)
Definition transform (callbacks : StreamingCallbacks) (options : StreamingOptions)
  (chunk : list Byte.byte) (s : Stream) : Stream :=
  let '(d, text) := Utf8.decode (decoder s) chunk in
  let buffer1 := buffer s ++ text in
  let lines := split_nl buffer1 in
  let buffer2 := List.last lines [] in
  let '(out, e) := emit_lines callbacks options (removelast lines) (env s) in
  {| decoder := d; buffer := buffer2; env := e; enqueued := enqueued s ++ out |}.

(** [flush(controller)] *)
Definition flush (callbacks : StreamingCallbacks) (options : StreamingOptions)
  (s : Stream) : Stream :=
  let '(d, text) := Utf8.decode_end (decoder s) in
  let buffer1 := buffer s ++ text in
  if nonempty buffer1 then
    let '(transformedLine, e) := transformSseLine buffer1 callbacks options (env s) in
    {| decoder := d; buffer := buffer1; env := e;
       enqueued := enqueued s ++ [Utf8.encode transformedLine] |}
  else {| decoder := d; buffer := buffer1; env := env s; enqueued := enqueued s |}.

(** A whole stream: the chunks written in order, then the close. *)
Definition pipe (callbacks : StreamingCallbacks) (options : StreamingOptions)
  (chunks : list (list Byte.byte)) (s : Stream) : Stream :=
  flush callbacks options (foldl (fun s chunk => transform callbacks options chunk s) s chunks).

(** The bytes that come out. *)
Definition output (s : Stream) : list Byte.byte := concat (enqueued s).

(** The options with [debugText] left out. *)
Definition no_debug (options : StreamingOptions) : StreamingOptions :=
  {| cacheSignatures := cacheSignatures options;
     signatureSessionKey := signatureSessionKey options;
     debugText := None |}.

(** How far [e'] may be from [e] after line transforms that cache under
    [key] (no caching when [key] is [None]): the store differs at [key]
    only, an entry that was written has a text that is not empty, the
    buffered thoughts were only appended to, the debug flag was not
    reset, and without caching neither the store nor the buffer was
    written. *)
Definition evolves (key : option jstring) (e e' : Env) : Prop :=
  (forall k, key <> Some k -> signatureStore e' !! k = signatureStore e !! k)
  /\ (forall k v, signatureStore e' !! k = Some v ->
        signatureStore e !! k = Some v \/ text v <> [])
  /\ (forall i t, thoughtBuffer e !! i = Some t ->
        exists t', thoughtBuffer e' !! i = Some (t ++ t'))
  /\ (injected e = true -> injected e' = true)
  /\ (key = None ->
      signatureStore e' = signatureStore e /\ thoughtBuffer e' = thoughtBuffer e).

(** A part that thinks [t]: it is marked as a thought (or is of type
    ['thinking']), its text (or else its [thinking]) is the string [t],
    not empty, and it carries no signature. *)
Definition thinks (p : val) (t : jstring) : Prop :=
  is_true (prop_opt p f_thought) || is_str (lit "thinking") (prop_opt p f_type) = true
  /\ or_else (or_else (prop_opt p f_text) (prop_opt p f_thinking)) (JStr []) = JStr t
  /\ t <> []
  /\ truthy (prop_opt p f_thoughtSignature) = false.

(** A part that only signs: no thought, and a signature. *)
Definition signs (p : val) (signature : val) : Prop :=
  is_true (prop_opt p f_thought) || is_str (lit "thinking") (prop_opt p f_type) = false
  /\ prop_opt p f_thoughtSignature = signature
  /\ truthy signature = true.


(** A computation that keeps within [evolves], from every state. *)
Definition keeps {A : Type} (key : option jstring) (m : M A) : Prop :=
  forall e, evolves key e (snd (m e)).

End Transformer.
End Transformer.

(** ** The proactive refresh queue *)

Module RefreshQueue.

(** [expires] is epoch milliseconds, or absent. *)
Record ManagedAccount : Type := { index : Z; expires : option Z }.

Record ProactiveRefreshConfig : Type := {
  enabled : bool;
  bufferSeconds : Z;
  checkIntervalSeconds : Z;
}.

Definition DEFAULT_PROACTIVE_REFRESH_CONFIG : ProactiveRefreshConfig :=
  {| enabled := true; bufferSeconds := 1800; checkIntervalSeconds := 300 |}.

(** [!account.expires]: [undefined] and [0] are falsy. *)
Definition no_expiry (account : ManagedAccount) : bool :=
  match expires account with
  | None => true
  | Some e => (e =? 0)%Z
  end.

(** [needsRefresh(account)], with [now] the reading of [Date.now()]. *)
Definition needsRefresh (config : ProactiveRefreshConfig) (now : Z)
  (account : ManagedAccount) : bool :=
  if no_expiry account then false
  else
    let bufferMs := (bufferSeconds config * 1000)%Z in
    let refreshThreshold := (now + bufferMs)%Z in
    match expires account with
    | Some e => (e <=? refreshThreshold)%Z
    | None => false
    end.

(** [isExpired(account)] *)
Definition isExpired (now : Z) (account : ManagedAccount) : bool :=
  if no_expiry account then false
  else match expires account with
       | Some e => (e <=? now)%Z
       | None => false
       end.

(** [getAccountsNeedingRefresh()] over the accounts of the manager. *)
Definition getAccountsNeedingRefresh (config : ProactiveRefreshConfig) (now : Z)
  (accounts : list ManagedAccount) : list ManagedAccount :=
  List.filter
    (fun account =>
       if isExpired now account then false else needsRefresh config now account)
    accounts.


(** [hasUrgentRefreshNeeds()] over the accounts of the manager. *)
Definition hasUrgentRefreshNeeds (now : Z) (accounts : list ManagedAccount) : bool :=
  let urgentThresholdMs := (60 * 1000)%Z in
  existsb
    (fun account =>
       if no_expiry account then false
       else match expires account with
            | Some e => (e <=? now + urgentThresholdMs)%Z
            | None => false
            end)
    accounts.

End RefreshQueue.

(** ** Retry policy of [token.ts] *)

Module RetryPolicy.

Definition MAX_RETRIES : nat := 3.
Definition INITIAL_RETRY_DELAY_MS : Q := 100.
Definition MAX_RETRY_DELAY_MS : Q := 2000.

(** [getRetryDelay(attempt)], with [random] the draw of [Math.random()].
    Numbers are exact rationals here: the rounding of the platform's
    doubles is not modelled. *)
Definition getRetryDelay (attempt : nat) (random : Q) : Z :=
  let exponentialDelay := (INITIAL_RETRY_DELAY_MS * inject_Z (2 ^ Z.of_nat attempt))%Q in
  let cappedDelay := Qmin exponentialDelay MAX_RETRY_DELAY_MS in
  let jitter := (cappedDelay * ((8 # 10) + random * (4 # 10)))%Q in
  Qfloor jitter.

(** The capped exponential delay, before jitter. *)
Definition cappedDelay (attempt : nat) : Q :=
  Qmin (INITIAL_RETRY_DELAY_MS * inject_Z (2 ^ Z.of_nat attempt))%Q MAX_RETRY_DELAY_MS.


End RetryPolicy.

(** ** [token.ts] *)

Module Token.
Import Js.
Section Token.
Context `{P : Platform}.

(** [RefreshParts]; a field is [undefined] when absent. After a refresh
    the token is whatever the endpoint sent. *)
Record RefreshParts : Type := {
  refreshToken : val;
  projectId : val;
  managedProjectId : val;
}.

Record OAuthAuthDetails : Type := {
  refresh : jstring;
  access : option jstring;
  expires : option number;
}.

(** The functions of [./auth] that the code calls; the format of the
    refresh blob is theirs. *)
Class Auth : Type := {
  parseRefreshParts : jstring -> RefreshParts;
  formatRefreshParts : RefreshParts -> jstring;
  calculateTokenExpiry : Z -> val -> number;
}.
Context `{A : Auth}.

Record AntigravityTokenRefreshError : Type := {
  message : jstring;
  code : val;
  description : val;
  status : Z;
  statusText : jstring;
}.

(** What a [catch] can receive: the error of this module, another [Error]
    (a [TypeError] or not, with its message), or a value that is no
    [Error]. *)
Inductive Thrown : Type :=
| RefreshError (e : AntigravityTokenRefreshError)
| OtherError (isTypeError : bool) (msg : jstring)
| NotAnError.

(** A [Response] of [fetch]: the status line and the body, or the error
    that reading the body rejects with. *)
Record Response : Type := {
  r_status : Z;
  r_statusText : jstring;
  r_body : completion Thrown jstring;
}.

(** [response.ok] *)
Definition ok (r : Response) : bool := ((200 <=? r_status r) && (r_status r <=? 299))%Z.

(** What the world answers: the outcome of the [n]-th [fetch], the [n]-th
    draw of [Math.random()], the reading of [Date.now()] at the [n]-th
    attempt. *)
Record Network : Type := {
  endpoint : nat -> completion Thrown Response;
  random : nat -> Q;
  clock : nat -> Z;
}.

(** Modelled from the spec: the caches of [./cache] and [./project], which
    are not among the sources. The auth cache maps a refresh blob to the
    auth stored for it; the project-context cache holds the refresh blobs
    with a cached context. [attempts] counts the calls of
    [attemptTokenRefresh], [slept] lists the delays of [sleep] (oldest
    first), [draws] counts the calls of [Math.random()]. *)
Record World : Type := {
  authCache : gmap jstring OAuthAuthDetails;
  projectContextCache : gset jstring;
  attempts : nat;
  slept : list Z;
  draws : nat;
}.

Definition T (X : Type) : Type := World -> completion Thrown X * World.

Definition ret {X : Type} (x : X) : T X := fun w => (Normal x, w).

Definition bind {X Y : Type} (m : T X) (k : X -> T Y) : T Y :=
  fun w =>
    match m w with
    | (Normal x, w') => k x w'
    | (Throw e, w') => (Throw e, w')
    end.

Local Notation "x <- m ;; k" := (bind m (fun x => k))
  (at level 100, m at next level, right associativity).
Local Notation "m ;;; k" := (bind m (fun _ => k))
  (at level 100, right associativity).

Definition throw {X : Type} (e : Thrown) : T X := fun w => (Throw e, w).

Definition lift {X : Type} (c : completion Thrown X) : T X := fun w => (c, w).

(** A TypeError raised by the platform (a property of [null], an object
    with no primitive value); its message plays no part. *)
Definition type_error : Thrown := OtherError true (lit "TypeError").

Definition lift_js {X : Type} (c : completion unit X) : T X :=
  fun w => (match c with Normal x => Normal x | Throw _ => Throw type_error end, w).

(** Modelled from the spec: [storeCachedAuth(auth)] files the auth under
    its refresh blob; [clearCachedAuth(refresh)] and
    [invalidateProjectContextCache(refresh)] remove what is cached under
    the blob. *)
Definition storeCachedAuth (auth : OAuthAuthDetails) : T unit :=
  fun w =>
    (Normal tt,
     {| authCache := <[refresh auth := auth]> (authCache w);
        projectContextCache := projectContextCache w;
        attempts := attempts w; slept := slept w; draws := draws w |}).

Definition clearCachedAuth (blob : jstring) : T unit :=
  fun w =>
    (Normal tt,
     {| authCache := delete blob (authCache w);
        projectContextCache := projectContextCache w;
        attempts := attempts w; slept := slept w; draws := draws w |}).

Definition invalidateProjectContextCache (blob : jstring) : T unit :=
  fun w =>
    (Normal tt,
     {| authCache := authCache w;
        projectContextCache := projectContextCache w ∖ {[blob]};
        attempts := attempts w; slept := slept w; draws := draws w |}).

(** [await sleep(ms)], with no abort signal. *)
Definition sleep (ms : Z) : T unit :=
  fun w =>
    (Normal tt,
     {| authCache := authCache w; projectContextCache := projectContextCache w;
        attempts := attempts w; slept := slept w ++ [ms]; draws := draws w |}).

(** [getRetryDelay(attempt)], drawing from [Math.random()]. *)
Definition getRetryDelay (net : Network) (attempt : nat) : T Z :=
  fun w =>
    (Normal (RetryPolicy.getRetryDelay attempt (random net (draws w))),
     {| authCache := authCache w; projectContextCache := projectContextCache w;
        attempts := attempts w; slept := slept w; draws := S (draws w) |}).

(** [isRetryableError(error)] *)
Definition isRetryableError (error : Thrown) : bool :=
  match error with
  | RefreshError e =>
      if is_str (lit "invalid_grant") (code e) || is_str (lit "invalid_client") (code e)
      then false
      else ((500 <=? status e) || (status e =? 429))%Z
  | OtherError isTypeError msg => isTypeError || includes msg (lit "fetch")
  | NotAnError => false
  end.

(** [a ?? b] *)
Definition nullish_or (a b : val) : val :=
  match a with
  | JUndefined | JNull => b
  | _ => a
  end.

Definition of_text (t : option jstring) : val :=
  match t with Some s => JStr s | None => JUndefined end.

(** [parseOAuthErrorPayload(text)]: the pair [(code, description)]. *)
Definition parseOAuthErrorPayload (text : option jstring) : val * val :=
  match text with
  | None | Some [] => (JUndefined, JUndefined)
  | Some t =>
      match JSON_parse t with
      | None => (JUndefined, JStr t)
      | Some payload =>
          if negb (truthy payload) || negb (typeof_object payload) then (JUndefined, JStr t)
          else
            let error := prop_opt payload f_error in
            let nested := truthy error && typeof_object error in
            let code :=
              if typeof_string error then error
              else if nested then nullish_or (prop_opt error f_status) (prop_opt error f_code)
              else JUndefined in
            if negb (typeof_string error) && nested
               && negb (truthy (prop_opt payload f_error_description))
               && truthy (prop_opt error f_message)
            then (code, prop_opt error f_message)
            else
              let description := prop_opt payload f_error_description in
              if truthy description then (code, description)
              else if nested && truthy (prop_opt error f_message)
              then (code, prop_opt error f_message)
              else (code, JUndefined)
      end
  end.

(** [parts.filter(Boolean).join(': ')] *)
Fixpoint join_truthy (parts : list val) : completion unit jstring :=
  match parts with
  | [] => Normal []
  | v :: rest =>
      if truthy v then
        match toString v, join_truthy rest with
        | Normal s, Normal r =>
            Normal (if existsb truthy rest then s ++ lit ": " ++ r else s)
        | _, _ => Throw tt
        end
      else join_truthy rest
  end.

(** The error that [attemptTokenRefresh] builds from a response that is
    not [ok]; building its message throws when a part has no string. *)
Definition refresh_error (r : Response) : completion unit AntigravityTokenRefreshError :=
  let errorText := match r_body r with Normal t => Some t | Throw _ => None end in
  let '(code, description) := parseOAuthErrorPayload errorText in
  match join_truthy [code; nullish_or description (of_text errorText)] with
  | Throw e => Throw e
  | Normal details =>
      let baseMessage :=
        lit "Antigravity token refresh failed (" ++ num_toString (num_of_Z (r_status r))
          ++ lit " " ++ r_statusText r ++ lit ")" in
      Normal {| message := if nonempty details
                           then baseMessage ++ lit " - " ++ details else baseMessage;
                code := code;
                description := nullish_or description (of_text errorText);
                status := r_status r;
                statusText := r_statusText r |}
  end.

(** [response.json()] *)
Definition json (r : Response) : completion Thrown val :=
  match r_body r with
  | Throw e => Throw e
  | Normal t =>
      match JSON_parse t with
      | Some v => Normal v
      | None => Throw (OtherError false (syntax_error_message t))
      end
  end.

(** [attemptTokenRefresh(parts, auth)] *)
Definition attemptTokenRefresh (net : Network) (parts : RefreshParts)
  (auth : OAuthAuthDetails) : T OAuthAuthDetails :=
  fun w =>
    let n := attempts w in
    let startTime := clock net n in
    (response <- lift (endpoint net n) ;;
     if negb (ok response) then
       e <- lift_js (refresh_error response) ;;
       (if is_str (lit "invalid_grant") (code e) then
          invalidateProjectContextCache (refresh auth) ;;;
          clearCachedAuth (refresh auth)
        else ret tt) ;;;
       throw (RefreshError e)
     else
       payload <- lift (json response) ;;
       access_token <- lift_js (prop payload f_access_token) ;;
       match access_token with
       | JStr ((_ :: _) as token) =>
           expires_in <- lift_js (prop payload f_expires_in) ;;
           nonpositive <-
             (if truthy expires_in then lift_js (le_zero expires_in) else ret true) ;;
           let expires_in' :=
             if nonpositive then JNum (num_of_Z 3600) else expires_in in
           refresh_token <- lift_js (prop payload f_refresh_token) ;;
           let refreshedParts :=
             {| refreshToken := nullish_or refresh_token (refreshToken parts);
                projectId := projectId parts;
                managedProjectId := managedProjectId parts |} in
           ret {| refresh := formatRefreshParts refreshedParts;
                  access := Some token;
                  expires := Some (calculateTokenExpiry startTime expires_in') |}
       | _ =>
           throw (RefreshError
                    {| message := lit "Token refresh response missing access_token";
                       code := JUndefined; description := JUndefined;
                       status := 500; statusText := lit "Invalid Response" |})
       end)
      {| authCache := authCache w; projectContextCache := projectContextCache w;
         attempts := S n; slept := slept w; draws := draws w |}.

(** After the loop: [lastError] is raised when it is the error of this
    module, and swallowed otherwise. *)
Definition exhausted (lastError : option Thrown) : T (option OAuthAuthDetails) :=
  match lastError with
  | Some (RefreshError e) => throw (RefreshError e)
  | _ => ret None
  end.

(** [for (let attempt = 0; attempt <= MAX_RETRIES; attempt++) { ... }] and
    what follows it; [remaining] counts the iterations left before the
    loop condition fails. *)
Fixpoint attempt_loop (net : Network) (max_retries : nat) (parts : RefreshParts)
  (auth : OAuthAuthDetails) (remaining attempt : nat) (lastError : option Thrown)
  : T (option OAuthAuthDetails) :=
  match remaining with
  | O => exhausted lastError
  | S remaining' =>
      fun w =>
        match attemptTokenRefresh net parts auth w with
        | (Normal updatedAuth, w1) =>
            (storeCachedAuth updatedAuth ;;;
             invalidateProjectContextCache (refresh auth) ;;;
             ret (Some updatedAuth)) w1
        | (Throw error, w1) =>
            if negb (isRetryableError error) then
              match error with
              | RefreshError _ => (Throw error, w1)
              | _ => (Normal None, w1)
              end
            else if (max_retries <=? attempt)%nat then exhausted (Some error) w1
            else
              (delay <- getRetryDelay net attempt ;;
               sleep delay ;;;
               attempt_loop net max_retries parts auth remaining' (S attempt) (Some error)) w1
        end
  end.

(** [refreshAccessToken(auth, client, providerId)]; the result is
    [undefined] ([None]), the refreshed auth, or an error raised. *)
Definition refreshAccessToken (net : Network) (auth : OAuthAuthDetails)
  : T (option OAuthAuthDetails) :=
  let parts := parseRefreshParts (refresh auth) in
  if negb (truthy (refreshToken parts)) then ret None
  else
    attempt_loop net RetryPolicy.MAX_RETRIES parts auth
                 (S RetryPolicy.MAX_RETRIES) 0 None.

(** The [n]-th [fetch] is answered by a response that is not [ok], and
    [attemptTokenRefresh] classifies it as the error [e]. *)
Definition fails_with (net : Network) (n : nat) (e : AntigravityTokenRefreshError)
  : Prop :=
  exists r, endpoint net n = Normal r /\ ok r = false /\ refresh_error r = Normal e.

(** The world after one more attempt that wrote nothing else. *)
Definition attempted (w : World) : World :=
  {| authCache := authCache w; projectContextCache := projectContextCache w;
     attempts := S (attempts w); slept := slept w; draws := draws w |}.

(** The world after an attempt that found the grant revoked. *)
Definition purged (blob : jstring) (w : World) : World :=
  {| authCache := delete blob (authCache w);
     projectContextCache := projectContextCache w ∖ {[blob]};
     attempts := S (attempts w); slept := slept w; draws := draws w |}.

(** The world after a failed attempt and the sleep that follows it. *)
Definition retried (net : Network) (attempt : nat) (w : World) : World :=
  {| authCache := authCache w; projectContextCache := projectContextCache w;
     attempts := S (attempts w);
     slept := slept w ++ [RetryPolicy.getRetryDelay attempt (random net (draws w))];
     draws := S (draws w) |}.

(** The world after [n] failed attempts, numbered from [attempt], each
    followed by its sleep. *)
Fixpoint retries (net : Network) (attempt n : nat) (w : World) : World :=
  match n with
  | O => w
  | S n' => retries net (S attempt) n' (retried net attempt w)
  end.

(** The code of the error is one of the two that are never retried. *)
Definition auth_code (e : AntigravityTokenRefreshError) : bool :=
  is_str (lit "invalid_grant") (code e) || is_str (lit "invalid_client") (code e).

(** How the [n]-th call of [attemptTokenRefresh] ends: the call reads the
    world only through its count of attempts. *)
Definition outcome (net : Network) (parts : RefreshParts) (auth : OAuthAuthDetails)
  (n : nat) : completion Thrown OAuthAuthDetails :=
  fst (attemptTokenRefresh net parts auth
         {| authCache := ∅; projectContextCache := ∅;
            attempts := n; slept := []; draws := 0 |}).

(** The [n]-th [fetch] is answered by a response that is not [ok] and
    whose classified code is [invalid_grant]: the attempt purges the
    caches before it raises. *)
Definition revoked_at (net : Network) (n : nat) : bool :=
  match endpoint net n with
  | Normal r =>
      negb (ok r)
      && match refresh_error r with
         | Normal e => is_str (lit "invalid_grant") (code e)
         | Throw _ => false
         end
  | Throw _ => false
  end.

(** The world after the attempt numbered as [w] counts. *)
Definition after_attempt (net : Network) (blob : jstring) (w : World) : World :=
  if revoked_at net (attempts w) then purged blob w else attempted w.

(** The world after a refresh that succeeded with [updatedAuth]. *)
Definition cached (blob : jstring) (updatedAuth : OAuthAuthDetails) (w : World) : World :=
  {| authCache := <[refresh updatedAuth := updatedAuth]> (authCache w);
     projectContextCache := projectContextCache w ∖ {[blob]};
     attempts := attempts w; slept := slept w; draws := draws w |}.



(** The delays of [n] consecutive sleeps, the first after attempt
    [attempt] with the [d]-th draw of [Math.random()]. *)
Definition backoff (net : Network) (attempt d n : nat) : list Z :=
  map (fun i => RetryPolicy.getRetryDelay (attempt + i) (random net (d + i))) (seq 0 n).

End Token.
End Token.

(** ** A refresh check of the queue *)

Module RefreshCheck.
Import Js.
Section Check.
Context `{P : Platform} `{A : !Token.Auth}.

(** The account manager of [./accounts], which is not among the sources:
    its state and the methods that the queue calls. A method returns or
    throws; what it throws is only logged. *)
Class AccountManager : Type := {
  manager : Type;
  getAccounts : manager -> list RefreshQueue.ManagedAccount;
  toAuthDetails :
    manager -> RefreshQueue.ManagedAccount -> completion unit Token.OAuthAuthDetails;
  updateFromAuth :
    RefreshQueue.ManagedAccount -> Token.OAuthAuthDetails -> manager
    -> completion unit unit * manager;
  saveToDisk : manager -> completion unit unit * manager;
}.
Context `{AM : AccountManager}.

Record RefreshQueueState : Type := {
  isRunning : bool;
  intervalHandle : option Z;
  isRefreshing : bool;
  lastCheckTime : Z;
  lastRefreshTime : Z;
  refreshCount : Z;
  errorCount : Z;
}.

(** What a check reads and writes: the state of the queue, its account
    manager ([null] until [setAccountManager]), and the world of the
    token refresh. *)
Record Queue : Type := {
  state : RefreshQueueState;
  accountManager : option manager;
  tokens : Token.World;
}.

(** What a check does not decide: the reading of [Date.now()] when it
    starts, the reading after the refresh of the [i]-th account, and
    whether [stop()] was called while the check was waiting for that
    refresh. No other call comes in between. *)
Record Schedule : Type := {
  now : Z;
  refreshed_at : nat -> Z;
  stopped_during : nat -> bool;
}.

(** [stop()] *)
Definition stop (s : RefreshQueueState) : RefreshQueueState :=
  if negb (isRunning s) then s
  else
    {| isRunning := false; intervalHandle := None;
       isRefreshing := isRefreshing s; lastCheckTime := lastCheckTime s;
       lastRefreshTime := lastRefreshTime s; refreshCount := refreshCount s;
       errorCount := errorCount s |}.

(** [this.state.errorCount++] *)
Definition count_error (s : RefreshQueueState) : RefreshQueueState :=
  {| isRunning := isRunning s; intervalHandle := intervalHandle s;
     isRefreshing := isRefreshing s; lastCheckTime := lastCheckTime s;
     lastRefreshTime := lastRefreshTime s; refreshCount := refreshCount s;
     errorCount := errorCount s + 1 |}.

(** [this.state.refreshCount++; this.state.lastRefreshTime = Date.now()] *)
Definition count_refresh (at_ms : Z) (s : RefreshQueueState) : RefreshQueueState :=
  {| isRunning := isRunning s; intervalHandle := intervalHandle s;
     isRefreshing := isRefreshing s; lastCheckTime := lastCheckTime s;
     lastRefreshTime := at_ms; refreshCount := refreshCount s + 1;
     errorCount := errorCount s |}.

(** [refreshToken(auth, account)]: the log aside, a call of
    [refreshAccessToken]. *)
Definition refreshToken (net : Token.Network) (auth : Token.OAuthAuthDetails)
  (account : RefreshQueue.ManagedAccount)
  : Token.T (option Token.OAuthAuthDetails) :=
  Token.refreshAccessToken net auth.

(** The inner [try] of the loop, for the [i]-th account to refresh. *)
Definition refresh_account (net : Token.Network) (sch : Schedule) (i : nat)
  (account : RefreshQueue.ManagedAccount) (q : Queue) : Queue :=
  match accountManager q with
  | None =>
      {| state := count_error (state q); accountManager := None; tokens := tokens q |}
  | Some m =>
      match toAuthDetails m account with
      | Throw _ =>
          {| state := count_error (state q); accountManager := Some m;
             tokens := tokens q |}
      | Normal auth =>
          let '(refreshed, w) := refreshToken net auth account (tokens q) in
          let s := if stopped_during sch i then stop (state q) else state q in
          match refreshed with
          | Throw _ =>
              {| state := count_error s; accountManager := Some m; tokens := w |}
          | Normal None => {| state := s; accountManager := Some m; tokens := w |}
          | Normal (Some auth') =>
              match updateFromAuth account auth' m with
              | (Throw _, m1) =>
                  {| state := count_error s; accountManager := Some m1; tokens := w |}
              | (Normal _, m1) =>
                  {| state := count_refresh (refreshed_at sch i) s;
                     accountManager := Some (snd (saveToDisk m1)); tokens := w |}
              end
          end
      end
  end.

(** [for (const account of accountsToRefresh) { if (!this.state.isRunning) break; ... }] *)
Fixpoint refresh_accounts (net : Token.Network) (sch : Schedule)
  (accounts : list RefreshQueue.ManagedAccount) (i : nat) (q : Queue) : Queue :=
  match accounts with
  | [] => q
  | account :: rest =>
      if negb (isRunning (state q)) then q
      else refresh_accounts net sch rest (S i) (refresh_account net sch i account q)
  end.

Definition with_state (q : Queue) (s : RefreshQueueState) : Queue :=
  {| state := s; accountManager := accountManager q; tokens := tokens q |}.

(** [runRefreshCheck()] *)
Definition runRefreshCheck (config : RefreshQueue.ProactiveRefreshConfig)
  (net : Token.Network) (sch : Schedule) (q : Queue) : Queue :=
  if isRefreshing (state q) then q
  else
    match accountManager q with
    | None => q
    | Some m =>
        let q1 :=
          with_state q
            {| isRunning := isRunning (state q);
               intervalHandle := intervalHandle (state q);
               isRefreshing := true; lastCheckTime := now sch;
               lastRefreshTime := lastRefreshTime (state q);
               refreshCount := refreshCount (state q);
               errorCount := errorCount (state q) |} in
        let accountsToRefresh :=
          RefreshQueue.getAccountsNeedingRefresh config (now sch) (getAccounts m) in
        let q2 :=
          match accountsToRefresh with
          | [] => q1
          | _ => refresh_accounts net sch accountsToRefresh 0 q1
          end in
        with_state q2
          {| isRunning := isRunning (state q2);
             intervalHandle := intervalHandle (state q2);
             isRefreshing := false; lastCheckTime := lastCheckTime (state q2);
             lastRefreshTime := lastRefreshTime (state q2);
             refreshCount := refreshCount (state q2);
             errorCount := errorCount (state q2) |}
    end.

(** How far [q'] may be from [q] after at most [k] accounts were
    refreshed: each account counts once at most, as a refresh or as an
    error, and costs at most [MAX_RETRIES + 1] calls of [fetch]; the check
    neither starts the queue nor touches its own flag and time. *)
Definition within (k : Z) (q q' : Queue) : Prop :=
  (refreshCount (state q) <= refreshCount (state q'))%Z
  /\ (errorCount (state q) <= errorCount (state q'))%Z
  /\ (refreshCount (state q') - refreshCount (state q)
      + (errorCount (state q') - errorCount (state q)) <= k)%Z
  /\ (Z.of_nat (Token.attempts (tokens q)) <= Z.of_nat (Token.attempts (tokens q'))
      <= Z.of_nat (Token.attempts (tokens q))
         + Z.of_nat (S RetryPolicy.MAX_RETRIES) * k)%Z
  /\ (isRunning (state q') = true -> isRunning (state q) = true)
  /\ isRefreshing (state q') = isRefreshing (state q)
  /\ lastCheckTime (state q') = lastCheckTime (state q).

End Check.
End RefreshCheck.

(** ** Closed inputs for the examples *)

Module Examples.
Import Js.
#[local] Existing Instance Reference.platform.

(** Callbacks whose owner keeps the log of the signatures it was told. *)
Definition logging : Transformer.StreamingCallbacks (W := list (jstring * jstring * val)) :=
  {| Transformer.onCacheSignature :=
       Some (fun key text signature log => (Normal tt, log ++ [(key, text, signature)]));
     Transformer.onInjectDebug := None;
     Transformer.transformThinkingParts := None |}.

(** Callbacks whose [transformThinkingParts] wraps the response in an
    array and counts its calls. *)
Definition wrapping : Transformer.StreamingCallbacks (W := nat) :=
  {| Transformer.onCacheSignature := None;
     Transformer.onInjectDebug := None;
     Transformer.transformThinkingParts := Some (fun r n => (Normal (JArr [r]), S n)) |}.

Definition counting_env : Transformer.Env (W := nat) :=
  {| Transformer.signatureStore := SignatureStore.createSignatureStore;
     Transformer.thoughtBuffer := ThoughtBuffer.createThoughtBuffer;
     Transformer.injected := false;
     Transformer.world := 0 |}.

Definition hi_line : jstring := jlit "data: {'response':{'text':'hi'}}".

Definition caching : Transformer.StreamingOptions :=
  {| Transformer.cacheSignatures := Some true;
     Transformer.signatureSessionKey := Some (lit "session");
     Transformer.debugText := None |}.

Definition plain : Transformer.StreamingOptions :=
  {| Transformer.cacheSignatures := None;
     Transformer.signatureSessionKey := None;
     Transformer.debugText := None |}.

Definition fresh_env : Transformer.Env (W := list (jstring * jstring * val)) :=
  {| Transformer.signatureStore := SignatureStore.createSignatureStore;
     Transformer.thoughtBuffer := ThoughtBuffer.createThoughtBuffer;
     Transformer.injected := false;
     Transformer.world := [] |}.

(** The scenario of the specification: candidate 0 thinks ['A'] then ['B']
    and then carries a signature; candidate 1 does not think. *)
Definition two_candidates : val :=
  default JNull (JSON_parse (jlit
    "{'candidates':[{'content':{'parts':[{'thought':true,'text':'A'},{'thought':true,'text':'B'},{'thoughtSignature':'SIG'}]}},{'content':{'parts':[{'text':'hello'}]}}]}")).

(** A response whose first part is [null]. *)
Definition null_part : val :=
  default JNull (JSON_parse (jlit
    "{'candidates':[{'content':{'parts':[null,{'thought':true,'text':'A'},{'thoughtSignature':'SIG'}]}},{'content':{'parts':[{'thought':true,'text':'B'},{'thoughtSignature':'SIG2'}]}}]}")).

Definition null_part_line : jstring :=
  jlit "data: {'response':{'candidates':[{'content':{'parts':[null,{'thought':true,'text':'A'},{'thoughtSignature':'SIG'}]}}]}}".

(** A part that carries a signature and no thought, and an environment
    whose buffer holds ['AB'] for candidate 0. *)
Definition signed_part : val := JObj [(lit "thoughtSignature", JStr (lit "SIG"))].

Definition thinking_env : Transformer.Env (W := list (jstring * jstring * val)) :=
  {| Transformer.signatureStore := SignatureStore.createSignatureStore;
     Transformer.thoughtBuffer := {[ 0%Z := lit "AB" ]};
     Transformer.injected := false;
     Transformer.world := [] |}.

Definition signed_env : Transformer.Env (W := list (jstring * jstring * val)) :=
  {| Transformer.signatureStore :=
       {[ lit "session" := {| SignatureStore.text := lit "AB";
                              SignatureStore.signature := JStr (lit "SIG") |} ]};
     Transformer.thoughtBuffer := {[ 0%Z := lit "AB" ]};
     Transformer.injected := false;
     Transformer.world := [(lit "session", lit "AB", JStr (lit "SIG"))] |}.

(** A line whose response thinks ['AB'] and then carries a signature, and
    the stream that is this line, in one chunk. *)
Definition thinking_line : jstring :=
  jlit "data: {'response':{'candidates':[{'content':{'parts':[{'thought':true,'text':'AB'},{'thoughtSignature':'SIG'}]}}]}}".

Definition thinking_chunks : list (list Byte.byte) :=
  [Utf8.encode (thinking_line ++ [newline])].

(** The log of [logging] before any call. *)
Definition no_calls : list (jstring * jstring * val) := [].

(** A store that holds an entry of another session. *)
Definition other_store : gmap jstring SignatureStore.SignedThinking :=
  {[ lit "other" := {| SignatureStore.text := lit "old";
                       SignatureStore.signature := JStr (lit "OLD") |} ]}.

(** Callbacks whose [onInjectDebug] appends the debug text to the response
    and counts its calls; options that carry a debug text; a transformer
    that has injected it already, after one call. *)
Definition debugging : Transformer.StreamingCallbacks (W := nat) :=
  {| Transformer.onCacheSignature := None;
     Transformer.onInjectDebug := Some (fun r t n => (Normal (JArr [r; JStr t]), S n));
     Transformer.transformThinkingParts := None |}.

Definition verbose : Transformer.StreamingOptions :=
  {| Transformer.cacheSignatures := None;
     Transformer.signatureSessionKey := None;
     Transformer.debugText := Some (lit "dbg") |}.

Definition injected_stream : Transformer.Stream (W := nat) :=
  {| Transformer.decoder := Utf8.fresh; Transformer.buffer := [];
     Transformer.env :=
       {| Transformer.signatureStore := SignatureStore.createSignatureStore;
          Transformer.thoughtBuffer := ThoughtBuffer.createThoughtBuffer;
          Transformer.injected := true;
          Transformer.world := 1 |};
     Transformer.enqueued := [] |}.

(** A payload of three lines, none transformable: an event, an empty
    line, the end marker. *)
Definition done_payload : jstring :=
  lit "event: ping" ++ [newline] ++ [newline] ++ lit "data: [DONE]".

(** Two parts that think ['A'] and ['B']. *)
Definition thought_A : val :=
  JObj [(lit "thought", JBool true); (lit "text", JStr (lit "A"))].

Definition thought_B : val :=
  JObj [(lit "thought", JBool true); (lit "text", JStr (lit "B"))].



Definition bare_block : val :=
  JObj [(lit "type", JStr (lit "text")); (lit "signature", JStr (lit "SIG"))].

(** A text of three lines, none transformable, one with a two-byte
    character; its bytes, cut inside that character. *)
Definition ping_text : jstring :=
  lit "event: ping" ++ [newline] ++ lit ": caf" ++ [233%N] ++ [newline]
  ++ lit "data: [DONE]" ++ [newline].

Definition ping_chunks : list (list Byte.byte) :=
  [take 18 (Utf8.encode ping_text); drop 18 (Utf8.encode ping_text)].

(** A line with a two-byte character, as bytes: [data: {"response":{"t":"é"}}]. *)
Definition accent_line : list Byte.byte :=
  Utf8.encode (jlit "data: {'response':{'t':'" ++ [233%N] ++ jlit "'}}").

(** An [Auth] for the examples: the refresh blob is the refresh token. *)
Definition blob_auth : Token.Auth :=
  {| Token.parseRefreshParts := fun blob =>
       {| Token.refreshToken := JStr blob; Token.projectId := JUndefined;
          Token.managedProjectId := JUndefined |};
     Token.formatRefreshParts := fun parts =>
       match Token.refreshToken parts with JStr t => t | _ => [] end;
     Token.calculateTokenExpiry := fun startTime expires_in =>
       match expires_in with
       | JNum d =>
           if (0 <=? Reference.exp10 d)%Z then
             {| Reference.mant :=
                  startTime + Reference.mant d * 10 ^ Reference.exp10 d * 1000;
                Reference.exp10 := 0 |}
           else
             {| Reference.mant :=
                  startTime * 10 ^ (- Reference.exp10 d) + Reference.mant d * 1000;
                Reference.exp10 := Reference.exp10 d |}
       | _ => {| Reference.mant := startTime; Reference.exp10 := 0 |}
       end |}.

Definition stored_auth : Token.OAuthAuthDetails :=
  {| Token.refresh := lit "1//refresh"; Token.access := Some (lit "ya29.old");
     Token.expires := None |}.

(** A world where the auth and a project context are cached under the
    refresh blob. *)
Definition cached_world : Token.World :=
  {| Token.authCache := {[ lit "1//refresh" := stored_auth ]};
     Token.projectContextCache := {[ lit "1//refresh" ]};
     Token.attempts := 0; Token.slept := []; Token.draws := 0 |}.

(** An endpoint that cannot be reached: [fetch] rejects with a TypeError. *)
Definition offline : Token.Network :=
  {| Token.endpoint := fun _ => Throw (Token.OtherError true (lit "fetch failed"));
     Token.random := fun _ => 1 # 2;
     Token.clock := fun _ => 1700000000000%Z |}.

(** An endpoint that gives every request the same response. *)
Definition always (r : Token.Response) : Token.Network :=
  {| Token.endpoint := fun _ => Normal r;
     Token.random := fun _ => 1 # 2;
     Token.clock := fun _ => 1700000000000%Z |}.

(** HTTP 503 with a body that is no JSON text, and its classification. *)
Definition unavailable_response : Token.Response :=
  {| Token.r_status := 503; Token.r_statusText := lit "Service Unavailable";
     Token.r_body := Normal (lit "upstream connect error") |}.

Definition unavailable_error : Token.AntigravityTokenRefreshError :=
  {| Token.message :=
       lit "Antigravity token refresh failed (503 Service Unavailable) - upstream connect error";
     Token.code := JUndefined;
     Token.description := JStr (lit "upstream connect error");
     Token.status := 503;
     Token.statusText := lit "Service Unavailable" |}.




(** HTTP 400 with the OAuth error of a revoked grant, and its
    classification. *)
Definition revoked_response : Token.Response :=
  {| Token.r_status := 400; Token.r_statusText := lit "Bad Request";
     Token.r_body :=
       Normal (jlit "{'error':'invalid_grant','error_description':'Token has been expired or revoked.'}") |}.


Definition revoked : Token.Network := always revoked_response.

(** HTTP 200 with a new access token, no [expires_in] and no new refresh
    token; the auth it makes at the clock's reading, one hour ahead. *)
Definition granted_response : Token.Response :=
  {| Token.r_status := 200; Token.r_statusText := lit "OK";
     Token.r_body := Normal (jlit "{'access_token':'ya29.new'}") |}.

Definition granted : Token.Network := always granted_response.

Definition granted_auth : Token.OAuthAuthDetails :=
  {| Token.refresh := lit "1//refresh"; Token.access := Some (lit "ya29.new");
     Token.expires := Some {| Reference.mant := 1700003600000; Reference.exp10 := 0 |} |}.

(** An endpoint that answers the first requests with [rs], in order, and
    every later one with [final]. *)
Definition sequence (rs : list Token.Response) (final : Token.Response) : Token.Network :=
  {| Token.endpoint := fun n => Normal (default final (rs !! n));
     Token.random := fun _ => 1 # 2;
     Token.clock := fun _ => 1700000000000%Z |}.

(** Unavailable twice, then the grant. *)
Definition flaky : Token.Network :=
  sequence [unavailable_response; unavailable_response] granted_response.

(** HTTP 401 with the OAuth error of an unknown client, and its
    classification. *)
Definition rejected_response : Token.Response :=
  {| Token.r_status := 401; Token.r_statusText := lit "Unauthorized";
     Token.r_body :=
       Normal (jlit "{'error':'invalid_client','error_description':'The OAuth client was not found.'}") |}.

Definition rejected_error : Token.AntigravityTokenRefreshError :=
  {| Token.message :=
       lit "Antigravity token refresh failed (401 Unauthorized) - invalid_client: The OAuth client was not found.";
     Token.code := JStr (lit "invalid_client");
     Token.description := JStr (lit "The OAuth client was not found.");
     Token.status := 401;
     Token.statusText := lit "Unauthorized" |}.

(** Unavailable once, then the client is rejected. *)
Definition flaky_rejected : Token.Network :=
  sequence [unavailable_response] rejected_response.



(** An account manager whose state is its list of accounts: every
    account refreshes with [stored_auth], and updates and saves change
    nothing. *)
Definition list_manager : RefreshCheck.AccountManager :=
  {| RefreshCheck.manager := list RefreshQueue.ManagedAccount;
     RefreshCheck.getAccounts := fun m => m;
     RefreshCheck.toAuthDetails := fun _ _ => Normal stored_auth;
     RefreshCheck.updateFromAuth := fun _ _ m => (Normal tt, m);
     RefreshCheck.saveToDisk := fun m => (Normal tt, m) |}.

(** Two accounts whose tokens expire in ten and in twenty minutes, a
    running queue that manages them, and a schedule on which [stop()] is
    called during every refresh. *)
Definition soon : RefreshQueue.ManagedAccount :=
  {| RefreshQueue.index := 0; RefreshQueue.expires := Some 1700000600000%Z |}.

Definition later : RefreshQueue.ManagedAccount :=
  {| RefreshQueue.index := 1; RefreshQueue.expires := Some 1700001200000%Z |}.

Definition running_queue : RefreshCheck.Queue (AM := list_manager) :=
  RefreshCheck.Build_Queue (AM := list_manager)
    {| RefreshCheck.isRunning := true; RefreshCheck.intervalHandle := Some 7%Z;
       RefreshCheck.isRefreshing := true;
       RefreshCheck.lastCheckTime := 1700000000000;
       RefreshCheck.lastRefreshTime := 0;
       RefreshCheck.refreshCount := 0; RefreshCheck.errorCount := 0 |}
    (Some [soon; later])
    cached_world.

Definition stopping : RefreshCheck.Schedule :=
  {| RefreshCheck.now := 1700000000000;
     RefreshCheck.refreshed_at := fun _ => 1700000000250%Z;
     RefreshCheck.stopped_during := fun _ => true |}.

(** HTTP 200 whose body is no JSON text. *)
Definition garbled_response : Token.Response :=
  {| Token.r_status := 200; Token.r_statusText := lit "OK";
     Token.r_body := Normal (lit "<html>") |}.

Definition garbled : Token.Network := always garbled_response.

End Examples.

(** * Properties *)

(** ** The thought buffer *)

Module ThoughtBufferProps.
Import Js ThoughtBuffer.

(** C2, as stated, fails: after [set(0, 'A')] and [set(0, 'B')] the
    buffer holds ['B'] at index 0, not the concatenation ['AB']. *)
Lemma set_does_not_append :
  get 0 (set 0 (lit "B") (set 0 (lit "A") createThoughtBuffer)) = Some (lit "B")
  /\ Some (lit "B") <> Some (lit "A" ++ lit "B").
Proof. split; [reflexivity | discriminate]. Qed.

(** C2, amended: [set] replaces the text of its index, so after
    [set(i, t1)] and [set(i, t2)], [get(i)] is [t2]; the text accumulates
    only because the caller writes back [(get(i) ?? '') + text], and after
    two such writes [get(i)] is the old text followed by [t1] and [t2]. *)
Theorem set_replaces (buffer : gmap Z jstring) (i : Z) (t1 t2 : jstring) :
  get i (set i t2 (set i t1 buffer)) = Some t2
  /\ (let append t b := set i (default [] (get i b) ++ t) b in
      get i (append t2 (append t1 buffer))
      = Some (default [] (get i buffer) ++ t1 ++ t2)).
Proof.
  unfold get, set. split.
  - apply lookup_insert_eq.
  - cbn. rewrite !lookup_insert_eq. cbn. by rewrite <- app_assoc.
Qed.

End ThoughtBufferProps.

(** ** The proactive refresh queue *)

Module RefreshQueueProps.
Import RefreshQueue.

(** C7, as stated, fails: an account whose [expires] is set to [0] never
    needs refresh, whatever the clock says. *)
Lemma needsRefresh_zero_expiry :
  let account := {| index := 0; expires := Some 0%Z |} in
  ~ (needsRefresh DEFAULT_PROACTIVE_REFRESH_CONFIG 1000 account = true
     <-> exists e, expires account = Some e
                   /\ (1000 + bufferSeconds DEFAULT_PROACTIVE_REFRESH_CONFIG * 1000 >= e)%Z).
Proof.
  cbn. intros [_ H]. discriminate H. exists 0%Z. split; [reflexivity | lia].
Qed.

(** C7, amended: [needsRefresh] is true iff [expires] is set, is not [0]
    and [now + bufferSeconds * 1000 >= expires]; [isExpired] is true iff
    [expires] is set, is not [0] and [now >= expires]. Both are false when
    [expires] is unset, and both comparisons are inclusive. *)
Theorem needsRefresh_isExpired_spec (config : ProactiveRefreshConfig) (now : Z)
  (account : ManagedAccount) :
  (needsRefresh config now account = true
   <-> exists e, expires account = Some e /\ e <> 0%Z
                 /\ (now + bufferSeconds config * 1000 >= e)%Z)
  /\ (isExpired now account = true
      <-> exists e, expires account = Some e /\ e <> 0%Z /\ (now >= e)%Z)
  /\ (expires account = None ->
      needsRefresh config now account = false /\ isExpired now account = false).
Proof.
  unfold needsRefresh, isExpired, no_expiry.
  destruct (expires account) as [e|] eqn:He.
  - destruct (Z.eqb_spec e 0) as [->|Hne].
    + repeat split; try discriminate.
      * intros (e' & [= <-] & Hz & _). congruence.
      * intros (e' & [= <-] & Hz & _). congruence.
    + repeat split; try discriminate.
      * intros H. apply Z.leb_le in H. exists e. repeat split; [done | lia].
      * intros (e' & [= <-] & _ & H). apply Z.leb_le. lia.
      * intros H. apply Z.leb_le in H. exists e. repeat split; [done | lia].
      * intros (e' & [= <-] & _ & H). apply Z.leb_le. lia.
  - repeat split; try discriminate.
    + intros (e' & [=] & _).
    + intros (e' & [=] & _).
Qed.

End RefreshQueueProps.

(** ** The signature store *)

Module SignatureStoreProps.
Import Js SignatureStore.

Section Store.
Context `{P : Platform}.

Lemma run_snoc (calls : list call) (c : call) :
  run (calls ++ [c]) = step (run calls) c.
Proof. unfold run. by rewrite foldl_app. Qed.

(** The store is its history: under every key lies what was written
    last, if no [delete] followed. *)
Lemma run_lookup (calls : list call) (key : jstring) :
  run calls !! key = snd <$> latest key (rev calls).
Proof.
  induction calls as [|c calls IH] using rev_ind; [done|].
  rewrite run_snoc, rev_app_distr. cbn. unfold step.
  destruct (what c) as [k|k v|k|k]; try exact IH.
  - unfold set. case_bool_decide as Hk.
    + subst k. by rewrite lookup_insert_eq.
    + by rewrite lookup_insert_ne.
  - unfold delete. case_bool_decide as Hk.
    + subst k. by rewrite lookup_delete_eq.
    + by rewrite lookup_delete_ne.
Qed.

(** C1, amended: the store holds at most one entry per session key, the
    one written last, and never drops it: for every sequence of calls and
    whatever the clock reads, [get(key)] returns the value of the latest
    [set(key, _)] that no [delete(key)] followed, [has(key)] tells whether
    there is one, and the keys held are exactly those. There is no TTL and
    no bound on the number of keys. *)
Theorem store_keeps_latest (calls : list call) (key : jstring) :
  get key (run calls) = snd <$> latest key (rev calls)
  /\ has key (run calls) = bool_decide (is_Some (latest key (rev calls)))
  /\ (key ∈ dom (run calls) <-> is_Some (latest key (rev calls))).
Proof.
  unfold get, has. rewrite elem_of_dom, run_lookup.
  destruct (latest key (rev calls)) as [[t v]|]; cbn.
  - repeat split; eauto.
  - repeat split; intros [? [=]].
Qed.

End Store.

#[local] Existing Instance Reference.platform.

(** C1, as stated, fails: no TTL is enforced. Whatever the TTL, an entry
    written at time 0 is still returned one millisecond after it should
    have expired. *)
Lemma store_never_expires :
  ~ exists ttl : Z, (0 <= ttl)%Z /\ expires_after ttl.
Proof.
  intros (ttl & Hpos & H).
  set (v := {| text := lit "AB"; signature := JStr (lit "sig") |}).
  specialize (H [ {| at_ms := 0; what := Set_ (lit "session") v |} ]
                (ttl + 1)%Z (lit "session") 0%Z v eq_refl ltac:(lia)).
  discriminate H.
Qed.

End SignatureStoreProps.

(** ** The retry policy *)

Module RetryPolicyProps.
Import RetryPolicy.
Local Open Scope Q_scope.








Example getRetryDelay_examples :
  getRetryDelay 0 0 = 80%Z /\ getRetryDelay 2 (1 # 2) = 400%Z
  /\ getRetryDelay 5 (999 # 1000) = 2399%Z.
Proof. vm_compute. repeat split. Qed.

End RetryPolicyProps.

(** ** The line transformer *)

Module TransformerProps.
Import Js Transformer.

Section Lines.
Context `{P : Platform} {W : Type}.
Implicit Types (callbacks : StreamingCallbacks (W := W)) (options : StreamingOptions).
Implicit Types (e : Env (W := W)).

(** C8: a line that is not transformable is returned as it is, and
    nothing is written: when it lacks the marker, when the payload after
    the marker is empty, when the payload is not valid JSON (the
    SyntaxError is caught), or when the parsed payload has no [response].
    [transformSseLine] returns on every line: no exception leaves it. *)
Theorem transformSseLine_passthrough (line : jstring) callbacks options e :
  not_transformable line ->
  transformSseLine line callbacks options e = (line, e).
Proof.
  unfold not_transformable, transformSseLine.
  intros Hnot.
  destruct (startsWith line (lit "data:")) eqn:Hstart; [cbn|done].
  destruct (nonempty (trim (slice 5 line))) eqn:Hjson; [cbn|done].
  destruct Hnot as [H | [H | [H | (parsed & H & Hr)]]].
  - discriminate H.
  - rewrite H in Hjson. discriminate Hjson.
  - unfold rewrite_line. by rewrite H.
  - unfold rewrite_line, lacks_response in *. rewrite H. unfold bind, lift.
    destruct parsed as [| | | | |l|l]; cbn in *; try done.
    destruct (own (field_name f_response) l) as [v|]; cbn in *; [|done].
    by destruct v.
Qed.

Lemma split_nl_single (line : jstring) :
  newline ∉ line -> split_nl line = [line].
Proof.
  induction line as [|c line IH]; [done|].
  intros Hnl. apply not_elem_of_cons in Hnl as [Hc Hline]. cbn.
  destruct (N.eqb_spec c newline) as [->|_]; [done|].
  by rewrite IH.
Qed.

Lemma with_world_id e : with_world e (world e) = e.
Proof. by destruct e. Qed.

(** What [transformSseLine] does when neither caching nor debug injection
    is on: the rewrite of [transformStreamingPayload], on the callbacks'
    state alone. *)
Lemma transformSseLine_plain (line : jstring) callbacks options e :
  caching_key options = None ->
  debug_injection callbacks options (injected e) = None ->
  transformSseLine line callbacks options e =
  let '(out, w) :=
    transform_payload_line (transformThinkingParts callbacks) line (world e) in
  (out, with_world e w).
Proof.
  intros Hcache Hdebug. unfold transformSseLine, transform_payload_line.
  destruct (startsWith line (lit "data:")); cbn; [|by rewrite with_world_id].
  destruct (nonempty (trim (slice 5 line))); cbn; [|by rewrite with_world_id].
  unfold rewrite_line. rewrite Hcache.
  destruct (JSON_parse (trim (slice 5 line))) as [parsed|];
    [|cbn; by rewrite with_world_id].
  unfold bind at 1. unfold lift at 1.
  destruct (prop parsed f_response) as [response|[]];
    [|by rewrite with_world_id].
  destruct (defined response); [|cbn; by rewrite with_world_id].
  unfold bind, ret. rewrite Hdebug.
  destruct (transformThinkingParts callbacks) as [f|]; [|by rewrite with_world_id].
  unfold call. by destruct (f response (world e)) as [[transformed|[]] w].
Qed.

(** C10: on a single line with no newline in it, and for every
    [transformThinkingParts] callback, [transformStreamingPayload] and
    [transformSseLine] with signature caching off and no debug text
    produce the same string (and leave the callback's owner in the same
    state; the store, the buffer and the debug flag are untouched). *)
Theorem transform_paths_agree (line : jstring) callbacks options e :
  newline ∉ line ->
  cacheSignatures options <> Some true ->
  debugText options = None ->
  transformSseLine line callbacks options e =
  let '(out, w) :=
    transformStreamingPayload line (transformThinkingParts callbacks) (world e) in
  (out, with_world e w).
Proof.
  intros Hnl Hcache Hdebug.
  rewrite transformSseLine_plain.
  - unfold transformStreamingPayload. rewrite (split_nl_single line Hnl). cbn.
    by destruct (transform_payload_line _ line (world e)).
  - unfold caching_key. by destruct (cacheSignatures options) as [[]|].
  - unfold debug_injection. by rewrite Hdebug.
Qed.

End Lines.

(** *** Chunk boundaries *)

Section Chunks.
Context `{P : Platform} {W : Type}.
Implicit Types (callbacks : StreamingCallbacks (W := W)) (options : StreamingOptions).
Implicit Types (e : Env (W := W)) (s : Stream (W := W)).

(** The decoder reads byte by byte: a chunk boundary, anywhere, changes
    neither the text nor the state it ends in. *)
Lemma decode_app (d : Utf8.decoder) (a b : list Byte.byte) :
  Utf8.decode d (a ++ b) =
  let '(d1, t1) := Utf8.decode d a in
  let '(d2, t2) := Utf8.decode d1 b in
  (d2, t1 ++ t2).
Proof.
  revert d. induction a as [|x a IH]; intros d; cbn.
  - by destruct (Utf8.decode d b).
  - destruct (Utf8.decode_byte d x) as [d1 s1]. rewrite IH.
    destruct (Utf8.decode d1 a) as [d2 s2].
    destruct (Utf8.decode d2 b) as [d3 s3]. by rewrite app_assoc.
Qed.

Lemma split_nl_nonempty (t : jstring) : split_nl t <> [].
Proof.
  destruct t as [|c t]; cbn; [done|].
  destruct (c =? newline)%N; [done|]. by destruct (split_nl t).
Qed.

Lemma split_nl_complete_pending (t : jstring) :
  split_nl t = complete t ++ [pending t].
Proof. apply app_removelast_last, split_nl_nonempty. Qed.

Lemma complete_pending_cons (c : N) (t : jstring) :
  (complete (c :: t), pending (c :: t)) =
  if (c =? newline)%N then ([] :: complete t, pending t)
  else match complete t with
       | [] => ([], c :: pending t)
       | l :: ls => ((c :: l) :: ls, pending t)
       end.
Proof.
  unfold complete, pending. cbn [split_nl].
  pose proof (split_nl_complete_pending t) as Ht. unfold complete, pending in Ht.
  destruct (c =? newline)%N.
  - destruct (split_nl t) as [|l ls] eqn:E; [by destruct (split_nl_nonempty t)|].
    done.
  - destruct (split_nl t) as [|l ls] eqn:E; [by destruct (split_nl_nonempty t)|].
    destruct ls as [|l' ls]; [done|]. cbn in *. done.
Qed.

(** The lines of a text that arrives in two pieces: the complete lines of
    the first piece, then the lines of what was held back followed by the
    second piece. *)
Lemma split_nl_app (t u : jstring) :
  split_nl (t ++ u) = complete t ++ split_nl (pending t ++ u).
Proof.
  induction t as [|c t IH]; [done|].
  pose proof (complete_pending_cons c t) as Hc.
  cbn [app split_nl]. rewrite IH.
  destruct (c =? newline)%N eqn:Ec.
  - injection Hc as -> ->. done.
  - destruct (complete t) as [|l ls] eqn:El.
    + injection Hc as -> ->. cbn [app split_nl]. by rewrite Ec.
    + injection Hc as -> ->. done.
Qed.

Lemma complete_app (t u : jstring) :
  complete (t ++ u) = complete t ++ complete (pending t ++ u).
Proof.
  unfold complete at 1. rewrite split_nl_app.
  rewrite (split_nl_complete_pending (pending t ++ u)).
  by rewrite app_assoc, removelast_last.
Qed.

Lemma pending_app (t u : jstring) :
  pending (t ++ u) = pending (pending t ++ u).
Proof.
  unfold pending at 1. rewrite split_nl_app.
  rewrite (split_nl_complete_pending (pending t ++ u)).
  by rewrite app_assoc, last_last.
Qed.

Lemma emit_lines_app callbacks options (l1 l2 : list jstring) e :
  emit_lines callbacks options (l1 ++ l2) e =
  let '(o1, e1) := emit_lines callbacks options l1 e in
  let '(o2, e2) := emit_lines callbacks options l2 e1 in
  (o1 ++ o2, e2).
Proof.
  revert e. induction l1 as [|l l1 IH]; intros e; cbn.
  - by destruct (emit_lines callbacks options l2 e).
  - destruct (transformSseLine l callbacks options e) as [t e1]. rewrite IH.
    destruct (emit_lines callbacks options l1 e1) as [o1 e2].
    by destruct (emit_lines callbacks options l2 e2).
Qed.

(** Writing a chunk in two pieces is writing it whole. *)
Lemma transform_app callbacks options (a b : list Byte.byte) s :
  transform callbacks options b (transform callbacks options a s)
  = transform callbacks options (a ++ b) s.
Proof.
  unfold transform. rewrite decode_app.
  destruct (Utf8.decode (decoder s) a) as [d1 t1].
  fold (pending (buffer s ++ t1)) (complete (buffer s ++ t1)).
  destruct (emit_lines callbacks options (complete (buffer s ++ t1)) (env s))
    as [o1 e1] eqn:E1.
  cbn [decoder buffer env enqueued].
  destruct (Utf8.decode d1 b) as [d2 t2].
  fold (pending (pending (buffer s ++ t1) ++ t2))
       (complete (pending (buffer s ++ t1) ++ t2))
       (pending (buffer s ++ t1 ++ t2)) (complete (buffer s ++ t1 ++ t2)).
  rewrite (app_assoc (buffer s) t1 t2).
  rewrite (complete_app (buffer s ++ t1) t2), (pending_app (buffer s ++ t1) t2).
  rewrite emit_lines_app, E1.
  destruct (emit_lines callbacks options
              (complete (pending (buffer s ++ t1) ++ t2)) e1) as [o2 e2].
  by rewrite app_assoc.
Qed.

(** C3: for every line with its terminating newline, and every place [k]
    where its bytes are cut in two chunks (inside a multi-byte UTF-8
    character or not), the transformer fed the two chunks and flushed ends
    in the same state, having enqueued the same chunks, hence the same
    bytes, as the transformer fed the whole line and flushed. *)
Theorem chunk_split_invariant callbacks options s (line : list Byte.byte) (k : nat) :
  let bytes := line ++ [Byte.x0a] in
  pipe callbacks options [take k bytes; drop k bytes] s
  = pipe callbacks options [bytes] s
  /\ output (pipe callbacks options [take k bytes; drop k bytes] s)
     = output (pipe callbacks options [bytes] s).
Proof.
  intros bytes.
  assert (pipe callbacks options [take k bytes; drop k bytes] s
          = pipe callbacks options [bytes] s) as H.
  { unfold pipe. cbn [foldl]. by rewrite transform_app, take_drop. }
  split; [exact H | by rewrite H].
Qed.

Lemma foldl_transform callbacks options (chunks : list (list Byte.byte))
  (c : list Byte.byte) s :
  foldl (fun s chunk => transform callbacks options chunk s)
        (transform callbacks options c s) chunks
  = transform callbacks options (c ++ concat chunks) s.
Proof.
  revert c. induction chunks as [|c' chunks IH]; intros c; cbn.
  - by rewrite app_nil_r.
  - by rewrite transform_app, IH, app_assoc.
Qed.

(** X1: However a stream is cut into chunks, a fresh transformer ends in the
    same state, having enqueued the same chunks, as when the stream comes
    in one piece. *)
Theorem chunking_is_invisible callbacks options
  (store : gmap jstring SignedThinking) (w : W) (chunks : list (list Byte.byte)) :
  pipe callbacks options chunks (createStreamingTransformer store w)
  = pipe callbacks options [concat chunks] (createStreamingTransformer store w).
Proof.
  unfold pipe. destruct chunks as [|c chunks]; cbn [foldl concat].
  - reflexivity.
  - by rewrite foldl_transform.
Qed.

End Chunks.

(** *** The scan for signatures *)

Section Scan.
Context `{P : Platform} {W : Type}.
Implicit Types (callbacks : StreamingCallbacks (W := W)) (e : Env (W := W)).

(** Accumulating a thought writes the buffer at its index, and nothing
    else. *)
Lemma accumulate_thought_frame (index : Z) (p : val) e r e' :
  accumulate_thought index p e = (r, e') ->
  signatureStore e' = signatureStore e /\ world e' = world e
  /\ injected e' = injected e.
Proof.
  unfold accumulate_thought, bind, lift, thought, set_thought, ret.
  intros H. repeat case_match; simplify_eq/=; done.
Qed.

Lemma cache_part_signature_spec callbacks (key : jstring) (index : Z) (p : val) e r e' :
  cache_part_signature callbacks key index p e = (r, e') ->
  thoughtBuffer e' = thoughtBuffer e
  /\ ((signatureStore e' <> signatureStore e \/ world e' <> world e) ->
      truthy (prop_opt p f_thoughtSignature) = true
      /\ exists t, t <> [] /\ thoughtBuffer e !! index = Some t
         /\ (r = Normal tt ->
             signatureStore e' !! key
             = Some {| text := t; signature := prop_opt p f_thoughtSignature |})).
Proof.
  unfold cache_part_signature, cache_signature, bind, lift, thought, store_set,
    call, ret, with_world, ThoughtBuffer.get, SignatureStore.set.
  intros H.
  destruct p as [| | | | | |l]; simplify_eq/=;
    try (split; [done|]; intros [?|?]; done).
  destruct (truthy (default JUndefined (own (field_name f_thoughtSignature) l)))
    eqn:Hsig; simplify_eq/=; [|split; [done|]; intros [?|?]; done].
  destruct (thoughtBuffer e !! index) as [t|] eqn:Ht; simplify_eq/=;
    [|split; [done|]; intros [?|?]; done].
  destruct t as [|c t]; simplify_eq/=; [split; [done|]; intros [?|?]; done|].
  destruct (onCacheSignature callbacks) as [f|]; simplify_eq/=.
  - destruct (f key (c :: t) _ (world e)) as [[[]|[]] w] eqn:Hf; simplify_eq/=.
    + split; [done|]. intros _. split; [done|]. exists (c :: t).
      split; [done|]. split; [done|]. intros _. apply lookup_insert_eq.
    + split; [done|]. intros _. split; [done|]. exists (c :: t).
      split; [done|]. split; [done|]. intros [=].
  - split; [done|]. intros _. split; [done|]. exists (c :: t).
    split; [done|]. split; [done|]. intros _. apply lookup_insert_eq.
Qed.

(** X8: A part stores an entry or notifies the callback only when it carries
    a signature and the text accumulated for its candidate, this part
    included, is not empty; what is stored is the signature paired with
    exactly that text. *)
Theorem signature_cached_only_with_text callbacks (key : jstring) (index : Z)
  (p : val) e r e' :
  scan_part callbacks key index p e = (r, e') ->
  signatureStore e' <> signatureStore e \/ world e' <> world e ->
  truthy (prop_opt p f_thoughtSignature) = true
  /\ exists t, t <> [] /\ thoughtBuffer e' !! index = Some t
     /\ (r = Normal tt ->
         signatureStore e' !! key
         = Some {| text := t; signature := prop_opt p f_thoughtSignature |}).
Proof.
  unfold scan_part. unfold bind at 1.
  destruct (accumulate_thought index p e) as [[[]|[]] e1] eqn:Hacc.
  - intros Hsign Hchanged.
    destruct (accumulate_thought_frame _ _ _ _ _ Hacc) as (Hs & Hw & _).
    destruct (cache_part_signature_spec _ _ _ _ _ _ _ Hsign) as (Hbuf & Hspec).
    rewrite Hbuf. apply Hspec. by rewrite Hs, Hw.
  - intros [= <- <-] Hchanged.
    destruct (accumulate_thought_frame _ _ _ _ _ Hacc) as (Hs & Hw & _).
    by destruct Hchanged.
Qed.

(** The scan goes through a list in order: scanning [l1 ++ l2] is
    scanning [l1] and then, unless that raised, [l2]. *)
Lemma forEach_app {A : Type} (f : A -> nat -> M unit) (l1 l2 : list A) (i : nat) e :
  forEach f (l1 ++ l2) i e =
  bind (forEach f l1 i) (fun _ => forEach f l2 (i + length l1)) e.
Proof.
  revert i e. induction l1 as [|x l1 IH]; intros i e; cbn [forEach app length].
  - unfold bind, ret. by rewrite Nat.add_0_r.
  - unfold bind. destruct (f x i e) as [[[]|[]] e1]; [|done].
    rewrite IH. unfold bind. by rewrite Nat.add_succ_r.
Qed.

End Scan.

Import Examples.
#[local] Existing Instance Reference.platform.

(** [transformSseLine_passthrough] on a line without the marker, a line
    with an empty payload, a line whose payload is no JSON text and a line
    whose payload has no [response]. *)
Lemma transformSseLine_passthrough_witness :
  (not_transformable (lit "event: ping")
   /\ transformSseLine (lit "event: ping") logging caching fresh_env
      = (lit "event: ping", fresh_env))
  /\ (not_transformable (lit "data:   ")
      /\ transformSseLine (lit "data:   ") logging caching fresh_env
         = (lit "data:   ", fresh_env))
  /\ (not_transformable (lit "data: {oops")
      /\ transformSseLine (lit "data: {oops") logging caching fresh_env
         = (lit "data: {oops", fresh_env))
  /\ (not_transformable (jlit "data: {'candidates':[]}")
      /\ transformSseLine (jlit "data: {'candidates':[]}") logging caching fresh_env
         = (jlit "data: {'candidates':[]}", fresh_env)).
Proof.
  assert (not_transformable (lit "event: ping")) as H1 by (left; reflexivity).
  assert (not_transformable (lit "data:   ")) as H2 by (right; left; reflexivity).
  assert (not_transformable (lit "data: {oops")) as H3 by (right; right; left; vm_refl).
  assert (not_transformable (jlit "data: {'candidates':[]}")) as H4.
  { right; right; right. exists (JObj [(lit "candidates", JArr [])]).
    split; [vm_refl | reflexivity]. }
  split; [split; [exact H1 | exact (transformSseLine_passthrough _ _ _ _ H1)]|].
  split; [split; [exact H2 | exact (transformSseLine_passthrough _ _ _ _ H2)]|].
  split; [split; [exact H3 | exact (transformSseLine_passthrough _ _ _ _ H3)]|].
  split; [exact H4 | exact (transformSseLine_passthrough _ _ _ _ H4)].
Defined.

(** [transform_paths_agree] on [data: {"response":{"text":"hi"}}] with a
    callback that wraps the response: both paths give
    [data: [{"text":"hi"}]] and call the callback once. *)
Lemma transform_paths_agree_witness :
  (newline ∉ hi_line)
  /\ cacheSignatures plain <> Some true
  /\ debugText plain = None
  /\ transformSseLine hi_line wrapping plain counting_env
     = (jlit "data: [{'text':'hi'}]", with_world counting_env 1%nat)
  /\ transformStreamingPayload hi_line (transformThinkingParts wrapping) 0%nat
     = (jlit "data: [{'text':'hi'}]", 1%nat).
Proof.
  assert (newline ∉ hi_line) as Hnl
    by (apply (bool_decide_eq_true_1 (newline ∉ hi_line)); vm_refl).
  assert (cacheSignatures plain <> Some true) as Hcache by discriminate.
  assert (debugText plain = None) as Hdebug by reflexivity.
  assert (transformStreamingPayload hi_line (transformThinkingParts wrapping) 0%nat
          = (jlit "data: [{'text':'hi'}]", 1%nat)) as Hpayload by vm_refl.
  split; [exact Hnl|]. split; [exact Hcache|]. split; [exact Hdebug|].
  split; [|exact Hpayload].
  rewrite (transform_paths_agree hi_line wrapping plain counting_env Hnl Hcache Hdebug).
  change (world counting_env) with 0%nat. by rewrite Hpayload.
Defined.

(** [signature_cached_only_with_text] on a part that carries a signature,
    with ['AB'] accumulated for its candidate. *)
Lemma signature_cached_only_with_text_witness :
  scan_part logging (lit "session") 0 signed_part thinking_env = (Normal tt, signed_env)
  /\ (signatureStore signed_env <> signatureStore thinking_env
      \/ world signed_env <> world thinking_env)
  /\ truthy (prop_opt signed_part f_thoughtSignature) = true.
Proof.
  assert (scan_part logging (lit "session") 0 signed_part thinking_env
          = (Normal tt, signed_env)) as Hscan by vm_refl.
  assert (signatureStore signed_env <> signatureStore thinking_env
          \/ world signed_env <> world thinking_env) as Hchanged
    by (right; discriminate).
  split; [exact Hscan|]. split; [exact Hchanged|].
  exact (proj1 (signature_cached_only_with_text _ _ _ _ _ _ _ Hscan Hchanged)).
Defined.

(** A line with a two-byte character, cut between the two bytes of the
    character: the first chunk ends in the middle of it, and the output is
    that of the whole line. *)
Example accent_split :
  let bytes := accent_line ++ [Byte.x0a] in
  let s := createStreamingTransformer createSignatureStore 0%nat in
  snd (Utf8.decode Utf8.fresh (take 25 bytes)) = jlit "data: {'response':{'t':'"
  /\ Utf8.bytes_needed (fst (Utf8.decode Utf8.fresh (take 25 bytes))) = 1%N
  /\ output (pipe wrapping plain [take 25 bytes; drop 25 bytes] s)
     = Utf8.encode (jlit "data: [{'t':'" ++ [233%N] ++ jlit "'}]" ++ [newline])
  /\ output (pipe wrapping plain [bytes] s)
     = Utf8.encode (jlit "data: [{'t':'" ++ [233%N] ++ jlit "'}]" ++ [newline]).
Proof. cbv zeta. split; [vm_refl|]. split; [vm_refl|]. split; vm_refl. Qed.

(** C6, the defect: a part that is [null] raises inside the scan. The
    parts and the candidates after it are not visited: nothing is
    buffered, stored or notified, although the same candidate thinks ['A']
    and carries a signature after the [null], and the next candidate
    thinks ['B'] and carries one. In [transformSseLine] the exception is
    swallowed and the line leaves unrewritten, while the same line is
    rewritten when caching is off. *)
Lemma null_part_aborts_scan :
  cacheThinkingSignaturesFromResponse null_part (lit "session") logging fresh_env
  = (Throw tt, fresh_env)
  /\ transformSseLine null_part_line logging caching fresh_env
     = (null_part_line, fresh_env)
  /\ transformSseLine null_part_line logging plain fresh_env
     = (jlit "data: {'candidates':[{'content':{'parts':[null,{'thought':true,'text':'A'},{'thoughtSignature':'SIG'}]}}]}",
        fresh_env).
Proof. split; [vm_refl|]. split; vm_refl. Qed.

(** The scenario of the specification, on a fresh buffer and store: the
    buffer holds ['AB'] at index 0 and nothing at index 1, the store holds
    the pair of ['AB'] and the signature under the session key, and the
    callback was told once. *)
Example two_candidates_scenario :
  let '(r, e) :=
    cacheThinkingSignaturesFromResponse two_candidates (lit "session") logging fresh_env in
  r = Normal tt
  /\ thoughtBuffer e !! 0%Z = Some (lit "AB")
  /\ thoughtBuffer e !! 1%Z = None
  /\ signatureStore e !! lit "session"
     = Some {| text := lit "AB"; signature := JStr (lit "SIG") |}
  /\ dom (signatureStore e) = {[ lit "session" ]}
  /\ world e = [(lit "session", lit "AB", JStr (lit "SIG"))].
Proof.
  assert (cacheThinkingSignaturesFromResponse two_candidates (lit "session") logging fresh_env
          = (Normal tt,
             {| signatureStore :=
                  {[ lit "session" := {| text := lit "AB"; signature := JStr (lit "SIG") |} ]};
                thoughtBuffer := {[ 0%Z := lit "AB" ]};
                injected := false;
                world := [(lit "session", lit "AB", JStr (lit "SIG"))] |})) as -> by vm_refl.
  cbn [thoughtBuffer signatureStore world].
  split; [done|]. split; [done|]. split; [done|]. split; [apply lookup_singleton_eq|].
  split; [apply dom_singleton_L | done].
Qed.

End TransformerProps.

(** ** Token refresh *)

Module TokenProps.
Import Js Token.

Section Refresh.
Context `{P : Platform} `{A : !Auth}.
Implicit Types (net : Network) (auth : OAuthAuthDetails) (w : World).
Implicit Types (e : AntigravityTokenRefreshError).

Lemma attempt_fails net parts auth w e :
  fails_with net (attempts w) e ->
  attemptTokenRefresh net parts auth w =
  (Throw (RefreshError e),
   if is_str (lit "invalid_grant") (code e) then purged (refresh auth) w
   else attempted w).
Proof.
  intros (r & Hr & Hok & He). unfold attemptTokenRefresh.
  unfold bind at 1. unfold lift at 1. rewrite Hr, Hok. cbn [negb].
  unfold bind at 1. unfold lift_js at 1. rewrite He.
  by destruct (is_str (lit "invalid_grant") (code e)).
Qed.

Lemma not_retryable_auth_code e :
  auth_code e = true -> isRetryableError (RefreshError e) = false.
Proof. unfold auth_code, isRetryableError. by intros ->. Qed.


Lemma refresh_error_status (r : Response) e :
  refresh_error r = Normal e -> status e = r_status r.
Proof.
  unfold refresh_error.
  destruct (parseOAuthErrorPayload _) as [c d].
  destruct (join_truthy _); [|done]. by intros [= <-].
Qed.

(** An attempt whose [fetch] rejects raises what [fetch] raised. *)
Lemma attempt_rejects net parts auth w (error : Thrown) :
  endpoint net (attempts w) = Throw error ->
  attemptTokenRefresh net parts auth w = (Throw error, attempted w).
Proof.
  intros Hr. unfold attemptTokenRefresh, bind, lift. by rewrite Hr.
Qed.

(** The loop when every attempt left raises a retryable error and writes
    nothing but its count: it runs to the bound, sleeping between
    attempts, and ends as the code after the loop decides for the last
    error. *)
Lemma attempt_loop_exhausts net parts auth (errors : nat -> Thrown)
  (max_retries remaining attempt : nat) (last : option Thrown) w :
  (attempt + remaining = S max_retries)%nat ->
  (remaining > 0)%nat ->
  (forall i w', (i < remaining)%nat -> attempts w' = (attempts w + i)%nat ->
     attemptTokenRefresh net parts auth w' = (Throw (errors (attempt + i)%nat), attempted w')
     /\ isRetryableError (errors (attempt + i)%nat) = true) ->
  attempt_loop net max_retries parts auth remaining attempt last w =
  exhausted (Some (errors max_retries))
            (attempted (retries net attempt (remaining - 1) w)).
Proof.
  revert attempt last w.
  induction remaining as [|remaining IH]; intros attempt last w Hsum Hpos Hall; [lia|].
  destruct (Hall 0%nat w ltac:(lia) ltac:(lia)) as (Hfail & Hretry).
  rewrite !Nat.add_0_r in *.
  cbn [attempt_loop]. rewrite Hfail, Hretry. cbn [negb].
  destruct remaining as [|remaining].
  - assert (attempt = max_retries) as -> by lia.
    rewrite Nat.leb_refl. reflexivity.
  - assert ((max_retries <=? attempt)%nat = false) as -> by (apply Nat.leb_gt; lia).
    unfold bind at 1. unfold getRetryDelay at 1. unfold bind at 1. unfold sleep at 1.
    cbn [attempts slept draws authCache projectContextCache attempted].
    rewrite IH; [| lia | lia |].
    + cbn [Nat.sub]. by rewrite Nat.sub_0_r.
    + intros i w' Hi Hw'. cbn [attempts] in Hw'.
      specialize (Hall (S i) w' ltac:(lia) ltac:(lia)).
      by rewrite !Nat.add_succ_r in Hall.
Qed.

Lemma four_attempts net w :
  attempted (retries net 0 (S RetryPolicy.MAX_RETRIES - 1) w)
  = {| authCache := authCache w;
       projectContextCache := projectContextCache w;
       attempts := 4 + attempts w;
       slept := slept w
                ++ [RetryPolicy.getRetryDelay 0 (random net (draws w));
                    RetryPolicy.getRetryDelay 1 (random net (1 + draws w));
                    RetryPolicy.getRetryDelay 2 (random net (2 + draws w))];
       draws := 3 + draws w |}.
Proof.
  unfold RetryPolicy.MAX_RETRIES.
  cbn [Nat.sub retries Nat.add]. unfold attempted, retried.
  cbn [authCache projectContextCache attempts slept draws].
  by rewrite <- !app_assoc.
Qed.



(** X21: When [fetch] rejects with a [TypeError] on each of the four attempts,
    the attempts and the sleeps are those of a server error, but the last
    error is swallowed: the result is absent, nothing is raised. *)
Theorem network_errors_are_swallowed net auth w (msg : nat -> jstring) :
  truthy (refreshToken (parseRefreshParts (refresh auth))) = true ->
  (forall i, (i <= RetryPolicy.MAX_RETRIES)%nat ->
     endpoint net (attempts w + i) = Throw (OtherError true (msg i))) ->
  refreshAccessToken net auth w =
  (Normal None,
   {| authCache := authCache w;
      projectContextCache := projectContextCache w;
      attempts := 4 + attempts w;
      slept := slept w
               ++ [RetryPolicy.getRetryDelay 0 (random net (draws w));
                   RetryPolicy.getRetryDelay 1 (random net (1 + draws w));
                   RetryPolicy.getRetryDelay 2 (random net (2 + draws w))];
      draws := 3 + draws w |}).
Proof.
  intros Htoken Hall. unfold refreshAccessToken. rewrite Htoken. cbn [negb].
  rewrite (attempt_loop_exhausts net _ auth (fun i => OtherError true (msg i)));
    [| done | unfold RetryPolicy.MAX_RETRIES; lia |].
  - by rewrite four_attempts.
  - intros i w' Hi Hw'. cbn [Nat.add]. split; [|done].
    apply attempt_rejects. rewrite Hw'.
    apply Hall. unfold RetryPolicy.MAX_RETRIES in *. lia.
Qed.

End Refresh.

Import Examples.
#[local] Existing Instance Reference.platform.
#[local] Existing Instance blob_auth.





(** [network_errors_are_swallowed] on an endpoint that cannot be reached. *)
Lemma network_errors_are_swallowed_witness :
  truthy (refreshToken (parseRefreshParts (refresh stored_auth))) = true
  /\ (forall i, (i <= RetryPolicy.MAX_RETRIES)%nat ->
        endpoint offline (attempts cached_world + i)
        = Throw (OtherError true (lit "fetch failed")))
  /\ refreshAccessToken offline stored_auth cached_world
     = (Normal None,
        {| authCache := authCache cached_world;
           projectContextCache := projectContextCache cached_world;
           attempts := 4; slept := [100; 200; 400]%Z; draws := 3 |}).
Proof.
  assert (truthy (refreshToken (parseRefreshParts (refresh stored_auth))) = true)
    as Htoken by reflexivity.
  assert (forall i, (i <= RetryPolicy.MAX_RETRIES)%nat ->
            endpoint offline (attempts cached_world + i)
            = Throw (OtherError true (lit "fetch failed"))) as Hall
    by (intros i _; reflexivity).
  split; [exact Htoken|]. split; [exact Hall|].
  rewrite (network_errors_are_swallowed offline stored_auth cached_world
             (fun _ => lit "fetch failed") Htoken Hall).
  vm_refl.
Defined.


End TokenProps.

(** ** The retry loop, whatever the endpoint answers *)

Module RefreshProps.
Import Js Token.

Section Loop.
Context `{P : Platform} `{A : !Auth}.
Implicit Types (net : Network) (auth : OAuthAuthDetails) (w : World).
Implicit Types (e : AntigravityTokenRefreshError) (parts : RefreshParts).

(** An attempt reads the world only through its count of attempts, and
    writes the caches only when it raises [invalid_grant]. *)
Lemma attempt_outcome net parts auth w :
  attemptTokenRefresh net parts auth w
  = (outcome net parts auth (attempts w), after_attempt net (refresh auth) w).
Proof.
  unfold outcome, attemptTokenRefresh, after_attempt, revoked_at, purged, attempted.
  unfold bind, lift, lift_js, throw, ret, invalidateProjectContextCache, clearCachedAuth.
  cbn [attempts authCache projectContextCache slept draws fst].
  destruct (endpoint net (attempts w)) as [response|error]; [|done].
  destruct (ok response); cbn [negb andb].
  - destruct (json response) as [payload|error]; [|done].
    destruct (prop payload f_access_token) as [access_token|]; [|done].
    destruct access_token as [| | | |[|c token]| |]; try done.
    destruct (prop payload f_expires_in) as [expires_in|]; [|done].
    destruct (truthy expires_in).
    + destruct (le_zero expires_in); [|done].
      by destruct (prop payload f_refresh_token).
    + by destruct (prop payload f_refresh_token).
  - destruct (refresh_error response) as [e|]; [|done].
    by destruct (is_str (lit "invalid_grant") (code e)).
Qed.

(** An attempt that purges the caches raises [invalid_grant]. *)
Lemma revoked_at_outcome net parts auth n :
  revoked_at net n = true ->
  exists e, outcome net parts auth n = Throw (RefreshError e)
            /\ is_str (lit "invalid_grant") (code e) = true.
Proof.
  unfold revoked_at, outcome, attemptTokenRefresh.
  unfold bind, lift, lift_js, throw, ret, invalidateProjectContextCache, clearCachedAuth.
  cbn [attempts authCache projectContextCache slept draws fst].
  destruct (endpoint net n) as [response|error]; [|done].
  destruct (ok response); cbn [negb andb]; [done|].
  destruct (refresh_error response) as [e|]; [|done].
  intros He. rewrite He. by exists e.
Qed.

Lemma retryable_not_revoked net parts auth n (error : Thrown) :
  outcome net parts auth n = Throw error ->
  isRetryableError error = true ->
  revoked_at net n = false.
Proof.
  intros Ho Hr. destruct (revoked_at net n) eqn:Hrev; [|done].
  destruct (revoked_at_outcome net parts auth n Hrev) as (e & He & Hcode).
  rewrite He in Ho. injection Ho as <-.
  cbn [isRetryableError] in Hr. by rewrite Hcode in Hr.
Qed.

Lemma retries_spec net (attempt n : nat) w :
  retries net attempt n w
  = {| authCache := authCache w; projectContextCache := projectContextCache w;
       attempts := attempts w + n;
       slept := slept w ++ backoff net attempt (draws w) n;
       draws := draws w + n |}.
Proof.
  revert attempt w. induction n as [|n IH]; intros attempt w.
  - cbn [retries]. unfold backoff. cbn [seq map].
    rewrite app_nil_r, !Nat.add_0_r. by destruct w.
  - cbn [retries]. rewrite IH. unfold retried, backoff.
    cbn [authCache projectContextCache attempts slept draws seq map].
    rewrite <- seq_shift, map_map, <- app_assoc, !Nat.add_0_r. cbn [app].
    f_equal; [lia| |lia]. do 2 f_equal.
    apply map_ext. intros i. by rewrite !Nat.add_succ_r.
Qed.

(** The loop over a run of [k] attempts that raise retryable errors: each
    is followed by its sleep, and the loop goes on with what is left. *)
Lemma attempt_loop_retries net parts auth (errors : nat -> Thrown)
  (max_retries remaining attempt k : nat) (last : option Thrown) w :
  (attempt + k <= max_retries)%nat ->
  (k < remaining)%nat ->
  (forall i, (i < k)%nat ->
     outcome net parts auth (attempts w + i) = Throw (errors i)
     /\ isRetryableError (errors i) = true) ->
  attempt_loop net max_retries parts auth remaining attempt last w
  = attempt_loop net max_retries parts auth (remaining - k) (attempt + k)
      (match k with O => last | S k' => Some (errors k') end)
      (retries net attempt k w).
Proof.
  revert remaining attempt last w errors.
  induction k as [|k IH]; intros remaining attempt last w errors Hmax Hrem Hall.
  - by rewrite Nat.sub_0_r, Nat.add_0_r.
  - destruct remaining as [|remaining]; [lia|].
    destruct (Hall 0%nat ltac:(lia)) as (Ho & Hretry). rewrite Nat.add_0_r in Ho.
    cbn [attempt_loop]. rewrite attempt_outcome, Ho, Hretry. cbn [negb].
    assert ((max_retries <=? attempt)%nat = false) as -> by (apply Nat.leb_gt; lia).
    unfold after_attempt. rewrite (retryable_not_revoked _ _ _ _ _ Ho Hretry).
    unfold bind at 1. unfold getRetryDelay at 1. unfold bind at 1. unfold sleep at 1.
    cbn [attempts slept draws authCache projectContextCache attempted].
    rewrite (IH remaining (S attempt) _ _ (fun i => errors (S i))); [| lia | lia |].
    + cbn [retries Nat.sub]. rewrite Nat.add_succ_r. cbn [Nat.add].
      f_equal. by destruct k.
    + intros i Hi. cbn [attempts].
      specialize (Hall (S i) ltac:(lia)). by rewrite Nat.add_succ_r in Hall.
Qed.

Lemma refresh_with_token net auth w :
  truthy (refreshToken (parseRefreshParts (refresh auth))) = true ->
  refreshAccessToken net auth w
  = attempt_loop net RetryPolicy.MAX_RETRIES (parseRefreshParts (refresh auth)) auth
      (S RetryPolicy.MAX_RETRIES) 0 None w.
Proof. intros H. unfold refreshAccessToken. by rewrite H. Qed.

Lemma fails_with_outcome net parts auth n e :
  fails_with net n e ->
  outcome net parts auth n = Throw (RefreshError e)
  /\ revoked_at net n = is_str (lit "invalid_grant") (code e).
Proof.
  intros (r & Hr & Hok & He).
  unfold outcome, revoked_at, attemptTokenRefresh.
  unfold bind, lift, lift_js, throw, ret, invalidateProjectContextCache, clearCachedAuth.
  cbn [attempts authCache projectContextCache slept draws fst].
  rewrite Hr, Hok, He. cbn [negb andb].
  by destruct (is_str (lit "invalid_grant") (code e)).
Qed.

(** X16: After [k] attempts that raised retryable errors ([k] at most
    [MAX_RETRIES]), an attempt that succeeds ends the call: the refreshed
    auth is cached and returned, the project context of the old blob is
    dropped, and there were [k + 1] attempts and [k] sleeps, the [i]-th of
    the backoff delay of attempt [i]. *)
Theorem refresh_recovers net auth w (errors : nat -> Thrown) (k : nat)
  (updatedAuth : OAuthAuthDetails) :
  truthy (refreshToken (parseRefreshParts (refresh auth))) = true ->
  (k <= RetryPolicy.MAX_RETRIES)%nat ->
  (forall i, (i < k)%nat ->
     outcome net (parseRefreshParts (refresh auth)) auth (attempts w + i) = Throw (errors i)
     /\ isRetryableError (errors i) = true) ->
  outcome net (parseRefreshParts (refresh auth)) auth (attempts w + k) = Normal updatedAuth ->
  refreshAccessToken net auth w =
  (Normal (Some updatedAuth),
   {| authCache := <[refresh updatedAuth := updatedAuth]> (authCache w);
      projectContextCache := projectContextCache w ∖ {[refresh auth]};
      attempts := attempts w + k + 1;
      slept := slept w ++ backoff net 0 (draws w) k;
      draws := draws w + k |}).
Proof.
  intros Htoken Hk Hall Hok. rewrite (refresh_with_token _ _ _ Htoken).
  unfold RetryPolicy.MAX_RETRIES in *.
  rewrite (attempt_loop_retries net _ auth errors 3 4 0 k); [| lia | lia | done].
  rewrite retries_spec.
  destruct (4 - k)%nat as [|remaining] eqn:Hrem; [lia|].
  cbn [attempt_loop]. rewrite attempt_outcome. cbn [attempts]. rewrite Hok.
  unfold after_attempt. cbn [attempts].
  destruct (revoked_at net (attempts w + k)) eqn:Hrev.
  { destruct (revoked_at_outcome net (parseRefreshParts (refresh auth)) auth _ Hrev)
      as (e & He & _). congruence. }
  unfold bind, storeCachedAuth, invalidateProjectContextCache, ret, attempted.
  cbn [authCache projectContextCache attempts slept draws].
  do 2 f_equal. lia.
Qed.

(** X17: After [k] attempts that raised retryable errors, an error response
    that is classified as not retryable ends the call: its error is
    raised after [k + 1] attempts and [k] sleeps. The caches are purged of
    the old blob when its code is [invalid_grant], and are left as they
    were for every other code, [invalid_client] included. *)
Theorem refresh_gives_up net auth w (errors : nat -> Thrown) (k : nat) e :
  truthy (refreshToken (parseRefreshParts (refresh auth))) = true ->
  (k <= RetryPolicy.MAX_RETRIES)%nat ->
  (forall i, (i < k)%nat ->
     outcome net (parseRefreshParts (refresh auth)) auth (attempts w + i) = Throw (errors i)
     /\ isRetryableError (errors i) = true) ->
  fails_with net (attempts w + k) e ->
  isRetryableError (RefreshError e) = false ->
  refreshAccessToken net auth w =
  (Throw (RefreshError e),
   {| authCache :=
        if is_str (lit "invalid_grant") (code e)
        then delete (refresh auth) (authCache w) else authCache w;
      projectContextCache :=
        if is_str (lit "invalid_grant") (code e)
        then projectContextCache w ∖ {[refresh auth]} else projectContextCache w;
      attempts := attempts w + k + 1;
      slept := slept w ++ backoff net 0 (draws w) k;
      draws := draws w + k |}).
Proof.
  intros Htoken Hk Hall Hfail Hno. rewrite (refresh_with_token _ _ _ Htoken).
  unfold RetryPolicy.MAX_RETRIES in *.
  rewrite (attempt_loop_retries net _ auth errors 3 4 0 k); [| lia | lia | done].
  rewrite retries_spec.
  destruct (4 - k)%nat as [|remaining] eqn:Hrem; [lia|].
  cbn [attempt_loop]. rewrite attempt_outcome. cbn [attempts].
  destruct (fails_with_outcome net (parseRefreshParts (refresh auth)) auth _ _ Hfail)
    as (-> & Hrev).
  rewrite Hno. cbn [negb]. unfold after_attempt. cbn [attempts]. rewrite Hrev.
  unfold purged, attempted. cbn [authCache projectContextCache attempts slept draws].
  destruct (is_str (lit "invalid_grant") (code e)); do 2 f_equal; lia.
Qed.



(** X19: A response that is [ok] but whose body is no JSON text makes
    [response.json()] raise a syntax error; unless its message mentions
    [fetch], the error is neither retried nor raised: the call returns
    [undefined] after that one attempt. *)
Theorem unparsable_grant_is_swallowed net auth w (r : Response) (body : jstring) :
  truthy (refreshToken (parseRefreshParts (refresh auth))) = true ->
  endpoint net (attempts w) = Normal r ->
  ok r = true ->
  r_body r = Normal body ->
  JSON_parse body = None ->
  includes (syntax_error_message body) (lit "fetch") = false ->
  refreshAccessToken net auth w = (Normal None, attempted w).
Proof.
  intros Htoken Hr Hok Hbody Hparse Hmsg. rewrite (refresh_with_token _ _ _ Htoken).
  unfold RetryPolicy.MAX_RETRIES. cbn [attempt_loop].
  unfold attemptTokenRefresh, bind, lift, json. rewrite Hr, Hok, Hbody, Hparse.
  cbn [negb isRetryableError orb]. by rewrite Hmsg.
Qed.

Lemma after_attempt_counts net (blob : jstring) w :
  attempts (after_attempt net blob w) = S (attempts w)
  /\ slept (after_attempt net blob w) = slept w
  /\ draws (after_attempt net blob w) = draws w.
Proof. unfold after_attempt. by destruct (revoked_at net (attempts w)). Qed.

Lemma backoff_cons net (attempt d n : nat) :
  backoff net attempt d (S n)
  = RetryPolicy.getRetryDelay attempt (random net d) :: backoff net (S attempt) (S d) n.
Proof.
  unfold backoff. cbn [seq map]. rewrite !Nat.add_0_r. f_equal.
  rewrite <- seq_shift, map_map. apply map_ext. intros i.
  by rewrite !Nat.add_succ_r.
Qed.

(** What the loop does to the counters, whatever the endpoint answers. *)
Lemma attempt_loop_trace net parts auth (max_retries remaining attempt : nat)
  (last : option Thrown) w (r : completion Thrown (option OAuthAuthDetails)) w' :
  (attempt + remaining = S max_retries)%nat ->
  attempt_loop net max_retries parts auth remaining attempt last w = (r, w') ->
  exists n : nat,
    (n <= remaining)%nat /\ ((0 < remaining)%nat -> (0 < n)%nat)
    /\ attempts w' = attempts w + n
    /\ slept w' = slept w ++ backoff net attempt (draws w) (n - 1)
    /\ draws w' = draws w + (n - 1)
    /\ (forall err, r = Throw err -> exists e, err = RefreshError e).
Proof.
  revert attempt last w.
  induction remaining as [|remaining IH]; intros attempt last w Hsum Hloop.
  - exists 0%nat. cbn [attempt_loop] in Hloop.
    assert (w' = w /\ forall err, r = Throw err -> exists e, err = RefreshError e)
      as (-> & Hr).
    { destruct last as [[e| |]|]; cbn in Hloop; injection Hloop as <- <-;
        (split; [done|]); intros err [= <-]; by eexists. }
    rewrite app_nil_r, !Nat.add_0_r. repeat split; [lia | lia | done].
  - cbn [attempt_loop] in Hloop. rewrite attempt_outcome in Hloop.
    destruct (after_attempt_counts net (refresh auth) w) as (Ha & Hs & Hd).
    set (w1 := after_attempt net (refresh auth) w) in *.
    assert (forall r0 w0, (r0, w0) = (r, w') ->
              attempts w0 = S (attempts w) -> slept w0 = slept w -> draws w0 = draws w ->
              (forall err, r0 = Throw err -> exists e, err = RefreshError e) ->
              exists n : nat,
                (n <= S remaining)%nat /\ ((0 < S remaining)%nat -> (0 < n)%nat)
                /\ attempts w' = attempts w + n
                /\ slept w' = slept w ++ backoff net attempt (draws w) (n - 1)
                /\ draws w' = draws w + (n - 1)
                /\ (forall err, r = Throw err -> exists e, err = RefreshError e))
      as Hone.
    { intros r0 w0 [= <- <-] Ha0 Hs0 Hd0 Hr0. exists 1%nat.
      rewrite Ha0, Hs0, Hd0. cbn [Nat.sub]. unfold backoff. cbn [seq map].
      rewrite app_nil_r. repeat split; [lia | lia | lia | lia | done]. }
    destruct (outcome net parts auth (attempts w)) as [updatedAuth|error].
    + unfold bind, storeCachedAuth, invalidateProjectContextCache, ret in Hloop.
      apply (Hone _ _ Hloop); [done..|]. intros err [=].
    + destruct (isRetryableError error) eqn:Hretry; cbn [negb] in Hloop.
      * destruct (max_retries <=? attempt)%nat eqn:Hmax.
        -- destruct error as [e| |]; cbn [exhausted] in Hloop;
             (apply (Hone _ _ Hloop); [done..|]).
           ++ intros err [= <-]. by eexists.
           ++ intros err [=].
           ++ intros err [=].
        -- apply Nat.leb_gt in Hmax.
           unfold bind at 1 in Hloop. unfold getRetryDelay at 1 in Hloop.
           unfold bind at 1 in Hloop. unfold sleep at 1 in Hloop.
           apply IH in Hloop as (n & Hn & Hpos & Hatt & Hsl & Hdr & Hr); [|lia].
           cbn [attempts slept draws] in Hatt, Hsl, Hdr.
           exists (S n). rewrite Hatt, Hsl, Hdr, Ha, Hs, Hd.
           specialize (Hpos ltac:(lia)).
           destruct n as [|n]; [lia|]. cbn [Nat.sub] in *. rewrite Nat.sub_0_r in *.
           rewrite backoff_cons, <- app_assoc. cbn [app].
           repeat split; [lia | lia | lia | lia | done].
      * destruct error as [e| |].
        -- apply (Hone _ _ Hloop); [done..|]. intros err [= <-]. by eexists.
        -- apply (Hone _ _ Hloop); [done..|]. intros err [=].
        -- apply (Hone _ _ Hloop); [done..|]. intros err [=].
Qed.


(** X13: Whatever the endpoint answers, [refreshAccessToken] makes at most
    [MAX_RETRIES + 1] attempts, and none exactly when the blob carries no
    refresh token; it sleeps once between two attempts and not after the
    last, the [i]-th sleep being the backoff delay of attempt [i]; and the
    only error it ever raises is the error of this module. *)
Theorem refresh_is_bounded net auth w :
  exists n : nat,
    (n <= S RetryPolicy.MAX_RETRIES)%nat
    /\ (n = 0%nat <-> truthy (refreshToken (parseRefreshParts (refresh auth))) = false)
    /\ attempts (snd (refreshAccessToken net auth w)) = attempts w + n
    /\ slept (snd (refreshAccessToken net auth w))
       = slept w ++ backoff net 0 (draws w) (n - 1)
    /\ draws (snd (refreshAccessToken net auth w)) = draws w + (n - 1)
    /\ (forall err, fst (refreshAccessToken net auth w) = Throw err ->
          exists e, err = RefreshError e).
Proof.
  destruct (truthy (refreshToken (parseRefreshParts (refresh auth)))) eqn:Htoken.
  - rewrite (refresh_with_token _ _ _ Htoken).
    destruct (attempt_loop _ _ _ _ _ _ _ w) as [r w'] eqn:Hloop.
    apply attempt_loop_trace in Hloop as (n & Hn & Hpos & Hrest); [|done].
    exists n. split; [done|]. split; [|done].
    specialize (Hpos ltac:(lia)). split; [lia | done].
  - exists 0%nat. unfold refreshAccessToken. rewrite Htoken. cbn.
    rewrite app_nil_r, !Nat.add_0_r. repeat split; [lia | done..].
Qed.

(** What the loop does to the caches, whatever the endpoint answers. *)
Lemma attempt_loop_caches net parts auth (max_retries remaining attempt : nat)
  (last : option Thrown) w (r : completion Thrown (option OAuthAuthDetails)) w' :
  attempt_loop net max_retries parts auth remaining attempt last w = (r, w') ->
  match r with
  | Normal (Some updatedAuth) =>
      authCache w' = <[refresh updatedAuth := updatedAuth]> (authCache w)
      /\ projectContextCache w' = projectContextCache w ∖ {[refresh auth]}
  | Normal None =>
      authCache w' = authCache w /\ projectContextCache w' = projectContextCache w
  | Throw err =>
      (authCache w' = authCache w /\ projectContextCache w' = projectContextCache w)
      \/ (exists e, err = RefreshError e
                    /\ is_str (lit "invalid_grant") (code e) = true
                    /\ authCache w' = delete (refresh auth) (authCache w)
                    /\ projectContextCache w'
                       = projectContextCache w ∖ {[refresh auth]})
  end.
Proof.
  revert attempt last w.
  induction remaining as [|remaining IH]; intros attempt last w Hloop.
  - cbn [attempt_loop] in Hloop.
    destruct last as [[e| |]|]; cbn in Hloop; injection Hloop as <- <-; auto.
  - cbn [attempt_loop] in Hloop. rewrite attempt_outcome in Hloop.
    unfold after_attempt in Hloop.
    destruct (outcome net parts auth (attempts w)) as [updatedAuth|error] eqn:Ho.
    + destruct (revoked_at net (attempts w)) eqn:Hrev.
      { destruct (revoked_at_outcome net parts auth _ Hrev) as (e & He & _). congruence. }
      unfold bind, storeCachedAuth, invalidateProjectContextCache, ret in Hloop.
      by injection Hloop as <- <-.
    + destruct (isRetryableError error) eqn:Hretry; cbn [negb] in Hloop.
      * rewrite (retryable_not_revoked _ _ _ _ _ Ho Hretry) in Hloop.
        destruct (max_retries <=? attempt)%nat.
        -- destruct error as [e| |]; cbn in Hloop; injection Hloop as <- <-; auto.
        -- unfold bind at 1 in Hloop. unfold getRetryDelay at 1 in Hloop.
           unfold bind at 1 in Hloop. unfold sleep at 1 in Hloop.
           by apply IH in Hloop.
      * destruct (revoked_at net (attempts w)) eqn:Hrev.
        -- destruct (revoked_at_outcome net parts auth _ Hrev) as (e & He & Hcode).
           rewrite He in Ho. injection Ho as <-. injection Hloop as <- <-.
           right. by exists e.
        -- destruct error as [e| |]; injection Hloop as <- <-; auto.
Qed.

(** X14: Whatever the endpoint answers, the caches change in two cases only.
    When the call returns a refreshed auth, the auth is filed under its
    refresh blob and the project context of the old blob is dropped. When
    the caches were purged of the old blob, the call has raised an error
    whose code is [invalid_grant]. In every other case (a result that is
    [undefined], any other error raised) both caches are as they were. *)
Theorem caches_follow_the_result net auth w :
  match refreshAccessToken net auth w with
  | (Normal (Some updatedAuth), w') =>
      authCache w' = <[refresh updatedAuth := updatedAuth]> (authCache w)
      /\ projectContextCache w' = projectContextCache w ∖ {[refresh auth]}
  | (Normal None, w') =>
      authCache w' = authCache w /\ projectContextCache w' = projectContextCache w
  | (Throw err, w') =>
      (authCache w' = authCache w /\ projectContextCache w' = projectContextCache w)
      \/ (exists e, err = RefreshError e
                    /\ is_str (lit "invalid_grant") (code e) = true
                    /\ authCache w' = delete (refresh auth) (authCache w)
                    /\ projectContextCache w'
                       = projectContextCache w ∖ {[refresh auth]})
  end.
Proof.
  unfold refreshAccessToken.
  destruct (truthy (refreshToken (parseRefreshParts (refresh auth)))); cbn [negb].
  - destruct (attempt_loop _ _ _ _ _ _ _ w) as [r w'] eqn:Hloop.
    apply attempt_loop_caches in Hloop. by destruct r as [[a|]|err].
  - done.
Qed.

Local Open Scope Q_scope.



Local Close Scope Q_scope.

End Loop.

Import Examples.
#[local] Existing Instance Reference.platform.
#[local] Existing Instance blob_auth.

(** [refresh_recovers] on an endpoint that is unavailable twice and then
    grants: three attempts, two sleeps, the new auth cached. *)
Lemma refresh_recovers_witness :
  truthy (refreshToken (parseRefreshParts (refresh stored_auth))) = true
  /\ (2 <= RetryPolicy.MAX_RETRIES)%nat
  /\ (forall i, (i < 2)%nat ->
        outcome flaky (parseRefreshParts (refresh stored_auth)) stored_auth
          (attempts cached_world + i) = Throw (RefreshError unavailable_error)
        /\ isRetryableError (RefreshError unavailable_error) = true)
  /\ outcome flaky (parseRefreshParts (refresh stored_auth)) stored_auth
       (attempts cached_world + 2) = Normal granted_auth
  /\ refreshAccessToken flaky stored_auth cached_world
     = (Normal (Some granted_auth),
        {| authCache := {[ lit "1//refresh" := granted_auth ]};
           projectContextCache := ∅;
           attempts := 3; slept := [100; 200]%Z; draws := 2 |}).
Proof.
  assert (truthy (refreshToken (parseRefreshParts (refresh stored_auth))) = true)
    as Htoken by reflexivity.
  assert (2 <= RetryPolicy.MAX_RETRIES)%nat as Hk by (unfold RetryPolicy.MAX_RETRIES; lia).
  assert (forall i, (i < 2)%nat ->
            outcome flaky (parseRefreshParts (refresh stored_auth)) stored_auth
              (attempts cached_world + i) = Throw (RefreshError unavailable_error)
            /\ isRetryableError (RefreshError unavailable_error) = true) as Hall.
  { intros [|[|i]] Hi; [split; vm_refl..|lia]. }
  assert (outcome flaky (parseRefreshParts (refresh stored_auth)) stored_auth
            (attempts cached_world + 2) = Normal granted_auth) as Hok by vm_refl.
  split; [exact Htoken|]. split; [exact Hk|]. split; [exact Hall|]. split; [exact Hok|].
  rewrite (refresh_recovers flaky stored_auth cached_world
             (fun _ => RefreshError unavailable_error) 2 granted_auth Htoken Hk Hall Hok).
  vm_refl.
Defined.

Lemma rejected_fails : fails_with flaky_rejected 1 rejected_error.
Proof.
  exists rejected_response. split; [reflexivity|]. split; [reflexivity|]. vm_refl.
Qed.

(** [refresh_gives_up] on an endpoint that is unavailable once and then
    rejects the client: two attempts, one sleep, the error raised, and
    the caches still hold the auth and the project context. *)
Lemma refresh_gives_up_witness :
  truthy (refreshToken (parseRefreshParts (refresh stored_auth))) = true
  /\ (1 <= RetryPolicy.MAX_RETRIES)%nat
  /\ (forall i, (i < 1)%nat ->
        outcome flaky_rejected (parseRefreshParts (refresh stored_auth)) stored_auth
          (attempts cached_world + i) = Throw (RefreshError unavailable_error)
        /\ isRetryableError (RefreshError unavailable_error) = true)
  /\ fails_with flaky_rejected (attempts cached_world + 1) rejected_error
  /\ isRetryableError (RefreshError rejected_error) = false
  /\ refreshAccessToken flaky_rejected stored_auth cached_world
     = (Throw (RefreshError rejected_error),
        {| authCache := {[ lit "1//refresh" := stored_auth ]};
           projectContextCache := {[ lit "1//refresh" ]};
           attempts := 2; slept := [100]%Z; draws := 1 |}).
Proof.
  assert (truthy (refreshToken (parseRefreshParts (refresh stored_auth))) = true)
    as Htoken by reflexivity.
  assert (1 <= RetryPolicy.MAX_RETRIES)%nat as Hk by (unfold RetryPolicy.MAX_RETRIES; lia).
  assert (forall i, (i < 1)%nat ->
            outcome flaky_rejected (parseRefreshParts (refresh stored_auth)) stored_auth
              (attempts cached_world + i) = Throw (RefreshError unavailable_error)
            /\ isRetryableError (RefreshError unavailable_error) = true) as Hall.
  { intros [|i] Hi; [split; vm_refl|lia]. }
  assert (isRetryableError (RefreshError rejected_error) = false) as Hno by vm_refl.
  split; [exact Htoken|]. split; [exact Hk|]. split; [exact Hall|].
  split; [exact rejected_fails|]. split; [exact Hno|].
  rewrite (refresh_gives_up flaky_rejected stored_auth cached_world
             (fun _ => RefreshError unavailable_error) 1 rejected_error
             Htoken Hk Hall rejected_fails Hno).
  vm_refl.
Defined.



(** [unparsable_grant_is_swallowed] on an endpoint that answers 200 with
    a page of HTML. *)
Lemma unparsable_grant_is_swallowed_witness :
  truthy (refreshToken (parseRefreshParts (refresh stored_auth))) = true
  /\ endpoint garbled (attempts cached_world) = Normal garbled_response
  /\ ok garbled_response = true
  /\ r_body garbled_response = Normal (lit "<html>")
  /\ JSON_parse (lit "<html>") = None
  /\ includes (syntax_error_message (lit "<html>")) (lit "fetch") = false
  /\ refreshAccessToken garbled stored_auth cached_world
     = (Normal None, attempted cached_world).
Proof.
  assert (truthy (refreshToken (parseRefreshParts (refresh stored_auth))) = true)
    as Htoken by reflexivity.
  assert (JSON_parse (lit "<html>") = None) as Hparse by vm_refl.
  assert (includes (syntax_error_message (lit "<html>")) (lit "fetch") = false)
    as Hmsg by vm_refl.
  split; [exact Htoken|]. split; [reflexivity|]. split; [reflexivity|].
  split; [reflexivity|]. split; [exact Hparse|]. split; [exact Hmsg|].
  exact (unparsable_grant_is_swallowed garbled stored_auth cached_world
           garbled_response (lit "<html>") Htoken eq_refl eq_refl eq_refl Hparse Hmsg).
Defined.


End RefreshProps.

(** ** Streams and payloads *)

Module StreamProps.
Import Js Transformer.

Section Invariants.
Context `{P : Platform} {W : Type}.
Implicit Types (callbacks : StreamingCallbacks (W := W)) (options : StreamingOptions).
Implicit Types (e : Env (W := W)) (s : Stream (W := W)).

Lemma evolves_refl (key : option jstring) e : evolves key e e.
Proof.
  repeat split; auto. intros i t Ht. exists []. by rewrite app_nil_r.
Qed.

Lemma evolves_trans (key : option jstring) e1 e2 e3 :
  evolves key e1 e2 -> evolves key e2 e3 -> evolves key e1 e3.
Proof.
  intros (Ha1 & Hb1 & Hc1 & Hd1 & He1) (Ha2 & Hb2 & Hc2 & Hd2 & He2).
  split; [|split; [|split; [|split]]].
  - intros k Hk. by rewrite Ha2, Ha1.
  - intros k v Hv. destruct (Hb2 k v Hv) as [Hv2|Hne]; [|by right]. by apply Hb1.
  - intros i t Ht. destruct (Hc1 i t Ht) as (t1 & Ht1).
    destruct (Hc2 i _ Ht1) as (t2 & Ht2). exists (t1 ++ t2). by rewrite app_assoc.
  - auto.
  - intros Hk. destruct (He1 Hk) as (<- & <-). by apply He2.
Qed.


Lemma keeps_ret {A : Type} (key : option jstring) (a : A) :
  keeps (W := W) key (ret a).
Proof. intros e. apply evolves_refl. Qed.

Lemma keeps_lift {A : Type} (key : option jstring) (c : completion unit A) :
  keeps (W := W) key (lift c).
Proof. intros e. apply evolves_refl. Qed.

Lemma keeps_throw {A : Type} (key : option jstring) :
  keeps (W := W) key (throw (A := A)).
Proof. intros e. apply evolves_refl. Qed.

Lemma keeps_bind {A B : Type} (key : option jstring) (m : M (W := W) A)
  (k : A -> M (W := W) B) :
  keeps key m -> (forall a, keeps key (k a)) -> keeps key (bind m k).
Proof.
  intros Hm Hk e. unfold bind. specialize (Hm e).
  destruct (m e) as [[a|x] e1]; [|done].
  eapply evolves_trans; [exact Hm | apply Hk].
Qed.

Lemma keeps_call {A : Type} (key : option jstring) (f : W -> completion unit A * W) :
  keeps key (call f).
Proof.
  intros e. unfold call. destruct (f (world e)) as [r w]. cbn.
  repeat split; auto. intros i t Ht. exists []. by rewrite app_nil_r.
Qed.

Lemma keeps_thought (key : option jstring) (index : Z) :
  keeps (W := W) key (thought index).
Proof. intros e. apply evolves_refl. Qed.

Lemma keeps_set_injected (key : option jstring) : keeps (W := W) key set_injected.
Proof.
  intros e. cbn. repeat split; auto. intros i t Ht. exists []. by rewrite app_nil_r.
Qed.

Lemma keeps_store_set (key : jstring) (v : SignedThinking) :
  text v <> [] -> keeps (W := W) (Some key) (store_set key v).
Proof.
  intros Hv e. cbn. unfold SignatureStore.set.
  split; [|split; [|split; [|split]]];
    cbn [signatureStore thoughtBuffer injected world]; [| | |done|done].
  - intros k Hk. apply lookup_insert_ne. congruence.
  - intros k v'. destruct (decide (key = k)) as [<-|Hne].
    + rewrite lookup_insert_eq. intros [= <-]. by right.
    + rewrite lookup_insert_ne; [|done]. by left.
  - intros i t Ht. exists []. by rewrite app_nil_r.
Qed.

Lemma keeps_forEach {A : Type} (key : option jstring)
  (f : A -> nat -> M (W := W) unit) (l : list A) (i : nat) :
  (forall a j, keeps key (f a j)) -> keeps key (forEach f l i).
Proof.
  intros Hf. revert i. induction l as [|a l IH]; intros i; cbn [forEach].
  - apply keeps_ret.
  - apply keeps_bind; [apply Hf | intros _; apply IH].
Qed.

Lemma keeps_cache_signature callbacks (key fullText : jstring) (signature : val) :
  fullText <> [] -> keeps (Some key) (cache_signature callbacks key fullText signature).
Proof.
  intros Hne. unfold cache_signature. apply keeps_bind.
  - destruct (onCacheSignature callbacks); [apply keeps_call | apply keeps_ret].
  - intros _. by apply keeps_store_set.
Qed.

Lemma keeps_accumulate_thought (key : option jstring) (index : Z) (p : val) :
  key <> None -> keeps (W := W) key (accumulate_thought index p).
Proof.
  intros Hkey. unfold accumulate_thought.
  apply keeps_bind; [apply keeps_lift|]. intros p_thought.
  apply keeps_bind; [apply keeps_lift|]. intros p_type.
  destruct (is_true p_thought || is_str (lit "thinking") p_type); [|apply keeps_ret].
  apply keeps_bind; [apply keeps_lift|]. intros p_text.
  apply keeps_bind; [apply keeps_lift|]. intros p_thinking.
  destruct (truthy _); [|apply keeps_ret].
  intros e. unfold bind, thought, lift, set_thought, ThoughtBuffer.get, ThoughtBuffer.set.
  destruct (toString _) as [s|]; [|apply evolves_refl]. cbn.
  split; [|split; [|split; [|split]]];
    cbn [signatureStore thoughtBuffer injected world]; [done|auto|..|done|done].
  intros i t Ht. destruct (decide (index = i)) as [<-|Hne].
  - rewrite lookup_insert_eq, Ht. by exists s.
  - rewrite lookup_insert_ne; [|done]. exists []. by rewrite app_nil_r.
Qed.

Lemma keeps_cache_part_signature callbacks (key : jstring) (index : Z) (p : val) :
  keeps (Some key) (cache_part_signature callbacks key index p).
Proof.
  unfold cache_part_signature.
  apply keeps_bind; [apply keeps_lift|]. intros sig.
  destruct (truthy sig); [|apply keeps_ret].
  apply keeps_bind; [apply keeps_thought|]. intros fullText.
  destruct fullText as [|c t]; [apply keeps_ret|]. by apply keeps_cache_signature.
Qed.

Lemma keeps_scan_candidate callbacks (key : jstring) (cand : val) (index : nat) :
  keeps (Some key) (scan_candidate callbacks key cand index).
Proof.
  unfold scan_candidate. destruct (negb _); [apply keeps_ret|].
  apply keeps_bind; [apply keeps_lift|]. intros [| | | | |ps|]; try apply keeps_ret.
  apply keeps_forEach. intros part _. unfold scan_part.
  apply keeps_bind; [by apply keeps_accumulate_thought|].
  intros _. apply keeps_cache_part_signature.
Qed.

Lemma keeps_scan_blocks callbacks (key : jstring) (blocks : list val)
  (thinkingText : jstring) :
  keeps (Some key) (scan_blocks callbacks key blocks thinkingText).
Proof.
  revert thinkingText. induction blocks as [|b blocks IH]; intros thinkingText;
    cbn [scan_blocks]; [apply keeps_ret|].
  apply keeps_bind.
  { destruct (is_str _ _); [|apply keeps_ret].
    apply keeps_bind; [apply keeps_lift|]. intros s. apply keeps_ret. }
  intros thinkingText'. apply keeps_bind; [|intros _; apply IH].
  destruct (truthy _); cbn [andb]; [|apply keeps_ret].
  destruct thinkingText' as [|c t]; [apply keeps_ret|]. by apply keeps_cache_signature.
Qed.

Lemma keeps_cacheThinkingSignaturesFromResponse callbacks (key : jstring) (response : val) :
  keeps (Some key) (cacheThinkingSignaturesFromResponse response key callbacks).
Proof.
  unfold cacheThinkingSignaturesFromResponse. destruct (_ || _); [apply keeps_ret|].
  apply keeps_bind; [apply keeps_lift|]. intros candidates. apply keeps_bind.
  { destruct candidates as [| | | | |cs|]; try apply keeps_ret.
    apply keeps_forEach. intros cand j. apply keeps_scan_candidate. }
  intros _. apply keeps_bind; [apply keeps_lift|].
  intros [| | | | |bs|]; try apply keeps_ret. apply keeps_scan_blocks.
Qed.

Lemma keeps_rewrite_line (json : jstring) callbacks options :
  keeps (caching_key options) (rewrite_line json callbacks options).
Proof.
  unfold rewrite_line. destruct (JSON_parse json) as [parsed|]; [|apply keeps_throw].
  apply keeps_bind; [apply keeps_lift|]. intros parsed_response.
  destruct (defined parsed_response); [|apply keeps_ret].
  apply keeps_bind.
  { destruct (caching_key options) as [key|]; [|apply keeps_ret].
    apply keeps_cacheThinkingSignaturesFromResponse. }
  intros _. apply keeps_bind.
  { intros e. destruct (debug_injection callbacks options (injected e)) as [inject|].
    - apply keeps_bind; [apply keeps_call|]. intros r.
      apply keeps_bind; [apply keeps_set_injected|]. intros _. apply keeps_ret.
    - apply evolves_refl. }
  intros response. apply keeps_bind; [|intros t; apply keeps_ret].
  destruct (transformThinkingParts callbacks); [apply keeps_call | apply keeps_ret].
Qed.

Lemma transformSseLine_evolves (line : jstring) callbacks options e :
  evolves (caching_key options) e (snd (transformSseLine line callbacks options e)).
Proof.
  unfold transformSseLine. destruct (negb _); [apply evolves_refl|].
  destruct (negb _); [apply evolves_refl|].
  pose proof (keeps_rewrite_line (trim (slice 5 line)) callbacks options e) as H.
  by destruct (rewrite_line _ callbacks options e) as [[[out|]|x] e'].
Qed.

Lemma emit_lines_evolves (lines : list jstring) callbacks options e :
  evolves (caching_key options) e (snd (emit_lines callbacks options lines e)).
Proof.
  revert e. induction lines as [|line lines IH]; intros e; cbn [emit_lines].
  - apply evolves_refl.
  - pose proof (transformSseLine_evolves line callbacks options e) as H1.
    destruct (transformSseLine line callbacks options e) as [t e1].
    specialize (IH e1). destruct (emit_lines callbacks options lines e1) as [o e2].
    eapply evolves_trans; [exact H1 | exact IH].
Qed.

Lemma transform_evolves (chunk : list Byte.byte) callbacks options s :
  evolves (caching_key options) (env s) (env (transform callbacks options chunk s)).
Proof.
  unfold transform. destruct (Utf8.decode (decoder s) chunk) as [d t].
  pose proof (emit_lines_evolves (removelast (split_nl (buffer s ++ t)))
                callbacks options (env s)) as H.
  by destruct (emit_lines _ _ _ (env s)) as [o e].
Qed.

Lemma pipe_evolves (chunks : list (list Byte.byte)) callbacks options s :
  evolves (caching_key options) (env s) (env (pipe callbacks options chunks s)).
Proof.
  unfold pipe. revert s. induction chunks as [|c chunks IH]; intros s; cbn [foldl].
  - unfold flush. destruct (Utf8.decode_end (decoder s)) as [d t].
    destruct (nonempty (buffer s ++ t)); [|apply evolves_refl].
    pose proof (transformSseLine_evolves (buffer s ++ t) callbacks options (env s)) as H.
    by destruct (transformSseLine _ _ _ (env s)) as [o e].
  - eapply evolves_trans; [apply transform_evolves | apply IH].
Qed.

(** X5: A stream writes the signature store under its own session key only:
    what is stored under any other key is, when the stream is closed,
    what it was before the first chunk, whatever the chunks hold and
    whatever the callbacks do. *)
Theorem stream_writes_its_session_only callbacks options
  (chunks : list (list Byte.byte)) s (k : jstring) :
  caching_key options <> Some k ->
  signatureStore (env (pipe callbacks options chunks s)) !! k
  = signatureStore (env s) !! k.
Proof.
  intros Hk. destruct (pipe_evolves chunks callbacks options s) as (H & _).
  by apply H.
Qed.

(** X6: No stream stores a signature with an empty text: when the store holds
    no entry with an empty text before the first chunk, it holds none
    when the stream is closed. *)
Theorem stored_text_is_never_empty callbacks options
  (chunks : list (list Byte.byte)) s :
  (forall k v, signatureStore (env s) !! k = Some v -> text v <> []) ->
  forall k v,
    signatureStore (env (pipe callbacks options chunks s)) !! k = Some v ->
    text v <> [].
Proof.
  intros Hbefore k v Hv.
  destruct (pipe_evolves chunks callbacks options s) as (_ & H & _).
  destruct (H k v Hv) as [Hold|Hne]; [by eapply Hbefore | exact Hne].
Qed.

Lemma caching_key_no_debug options : caching_key (no_debug options) = caching_key options.
Proof. reflexivity. Qed.

Lemma debug_injection_done callbacks options :
  debug_injection callbacks options true = None.
Proof.
  unfold debug_injection.
  destruct (debugText options) as [t|], (onInjectDebug callbacks) as [f|]; try done.
  by rewrite andb_false_r.
Qed.

Lemma debug_injection_no_debug callbacks options (already : bool) :
  debug_injection callbacks (no_debug options) already = None.
Proof. reflexivity. Qed.

Lemma bind_ext_at {A B : Type} (m : M (W := W) A) (k1 k2 : A -> M B) e :
  (forall a e1, m e = (Normal a, e1) -> k1 a e1 = k2 a e1) ->
  bind m k1 e = bind m k2 e.
Proof. intros H. unfold bind. destruct (m e) as [[a|x] e1]; [by apply H | done]. Qed.

Lemma transformSseLine_no_debug (line : jstring) callbacks options e :
  injected e = true ->
  transformSseLine line callbacks options e
  = transformSseLine line callbacks (no_debug options) e.
Proof.
  intros Hinj. unfold transformSseLine.
  destruct (negb (startsWith line (lit "data:"))); [done|].
  destruct (negb (nonempty (trim (slice 5 line)))); [done|].
  assert (rewrite_line (trim (slice 5 line)) callbacks options e
          = rewrite_line (trim (slice 5 line)) callbacks (no_debug options) e) as ->; [|done].
  unfold rewrite_line. rewrite caching_key_no_debug.
  destruct (JSON_parse (trim (slice 5 line))) as [parsed|]; [|done].
  apply bind_ext_at. intros response e0 [= _ <-].
  destruct (defined response); [|done].
  apply bind_ext_at. intros [] e1 Hscan.
  assert (injected e1 = true) as Hstill.
  { assert (evolves (caching_key options) e e1) as (_ & _ & _ & H & _); [|by apply H].
    change e1 with (snd (Normal (E := unit) (), e1)). rewrite <- Hscan.
    destruct (caching_key options);
      [apply keeps_cacheThinkingSignaturesFromResponse | apply keeps_ret]. }
  unfold bind. rewrite Hstill, debug_injection_done.
  by rewrite debug_injection_no_debug.
Qed.

Lemma emit_lines_no_debug (lines : list jstring) callbacks options e :
  injected e = true ->
  emit_lines callbacks options lines e = emit_lines callbacks (no_debug options) lines e.
Proof.
  revert e. induction lines as [|line lines IH]; intros e Hinj; cbn [emit_lines]; [done|].
  rewrite <- (transformSseLine_no_debug line callbacks options e Hinj).
  pose proof (transformSseLine_evolves line callbacks options e) as (_ & _ & _ & H & _).
  destruct (transformSseLine line callbacks options e) as [t e1].
  by rewrite IH; [|apply H].
Qed.

Lemma transform_no_debug (chunk : list Byte.byte) callbacks options s :
  injected (env s) = true ->
  transform callbacks options chunk s = transform callbacks (no_debug options) chunk s.
Proof.
  intros Hinj. unfold transform. destruct (Utf8.decode (decoder s) chunk) as [d t].
  by rewrite emit_lines_no_debug.
Qed.

(** X7: The debug text is injected once per stream: from the moment the flag
    [debugState.injected] is set, the stream runs as one that was given no
    debug text, to its close. *)
Theorem debug_text_is_injected_once callbacks options
  (chunks : list (list Byte.byte)) s :
  injected (env s) = true ->
  pipe callbacks options chunks s = pipe callbacks (no_debug options) chunks s.
Proof.
  unfold pipe. revert s. induction chunks as [|c chunks IH]; intros s Hinj; cbn [foldl].
  - unfold flush. destruct (Utf8.decode_end (decoder s)) as [d t].
    by rewrite transformSseLine_no_debug.
  - rewrite <- (transform_no_debug c callbacks options s Hinj). apply IH.
    destruct (transform_evolves c callbacks options s) as (_ & _ & _ & H & _).
    by apply H.
Qed.

End Invariants.

(** *** The output of a stream, line by line *)

Section Output.
Context `{P : Platform} {W : Type}.
Implicit Types (callbacks : StreamingCallbacks (W := W)) (options : StreamingOptions).
Implicit Types (e : Env (W := W)) (s : Stream (W := W)).

Lemma split_nl_no_newline (t l : jstring) : l ∈ split_nl t -> newline ∉ l.
Proof.
  revert l. induction t as [|c t IH]; intros l; cbn [split_nl].
  - intros ->%list_elem_of_singleton. apply not_elem_of_nil.
  - destruct (N.eqb_spec c newline) as [->|Hc].
    + intros [->|Hl]%elem_of_cons; [apply not_elem_of_nil | by apply IH].
    + destruct (split_nl t) as [|l0 ls] eqn:E.
      * intros ->%list_elem_of_singleton. apply not_elem_of_cons. split; [done|].
        apply not_elem_of_nil.
      * intros [->|Hl]%elem_of_cons.
        -- apply not_elem_of_cons. split; [done|]. apply IH. by left.
        -- apply IH. by right.
Qed.

Lemma pending_no_newline (t : jstring) : newline ∉ pending t.
Proof.
  apply (split_nl_no_newline t). rewrite TransformerProps.split_nl_complete_pending.
  apply elem_of_app. right. by left.
Qed.

(** What follows the last newline of a text grows with a tail that has no
    newline, and the complete lines stay. *)
Lemma split_nl_tail (t u : jstring) :
  newline ∉ u ->
  complete (t ++ u) = complete t /\ pending (t ++ u) = pending t ++ u.
Proof.
  intros Hu.
  assert (split_nl (pending t ++ u) = [pending t ++ u]) as Hone.
  { apply TransformerProps.split_nl_single. intros [H|H]%elem_of_app; [|done].
    by apply (pending_no_newline t). }
  split.
  - rewrite TransformerProps.complete_app.
    assert (complete (pending t ++ u) = []) as ->; [|apply app_nil_r].
    unfold complete. by rewrite Hone.
  - rewrite TransformerProps.pending_app.
    generalize (pending t ++ u), Hone. intros x Hx. unfold pending. by rewrite Hx.
Qed.

Lemma decode_end_no_newline (d : Utf8.decoder) : newline ∉ snd (Utf8.decode_end d).
Proof.
  unfold Utf8.decode_end. destruct (Utf8.bytes_needed d =? 0)%N; cbn.
  - apply not_elem_of_nil.
  - destruct (Utf8.bom_seen d); cbn; by intros [?|?%elem_of_nil]%elem_of_cons.
Qed.

Lemma transform_nil callbacks options (store : gmap jstring SignedThinking) (w : W) :
  transform callbacks options [] (createStreamingTransformer store w)
  = createStreamingTransformer store w.
Proof. reflexivity. Qed.

(** The state of a fresh transformer when the stream is closed. *)
Lemma pipe_fresh callbacks options (store : gmap jstring SignedThinking)
  (w : W) (chunks : list (list Byte.byte)) (d d_end : Utf8.decoder)
  (t t_end : jstring) (out : list (list Byte.byte)) e :
  Utf8.decode Utf8.fresh (concat chunks) = (d, t) ->
  Utf8.decode_end d = (d_end, t_end) ->
  emit_lines callbacks options (complete (t ++ t_end))
    (env (createStreamingTransformer store w)) = (out, e) ->
  pipe callbacks options chunks (createStreamingTransformer store w)
  = {| decoder := d_end; buffer := pending (t ++ t_end);
       env := if nonempty (pending (t ++ t_end))
              then snd (transformSseLine (pending (t ++ t_end)) callbacks options e)
              else e;
       enqueued :=
         out ++ if nonempty (pending (t ++ t_end))
                then [Utf8.encode
                        (fst (transformSseLine (pending (t ++ t_end)) callbacks options e))]
                else [] |}.
Proof.
  intros Hdec Hend Hemit. unfold pipe.
  assert (foldl (fun s chunk => transform callbacks options chunk s)
            (createStreamingTransformer store w) chunks
          = transform callbacks options (concat chunks) (createStreamingTransformer store w))
    as ->.
  { destruct chunks as [|c chunks]; cbn [foldl concat]; [done|].
    apply TransformerProps.foldl_transform. }
  unfold transform. cbn [decoder buffer env enqueued createStreamingTransformer app].
  rewrite Hdec.
  pose proof (decode_end_no_newline d) as Hnl. rewrite Hend in Hnl. cbn [snd] in Hnl.
  destruct (split_nl_tail t t_end Hnl) as (Hc & Hp). rewrite Hc, Hp in *.
  fold (complete t) (pending t).
  cbn [env createStreamingTransformer] in Hemit. rewrite Hemit.
  unfold flush. cbn [decoder buffer env enqueued]. rewrite Hend.
  destruct (nonempty (pending t ++ t_end)); [|by rewrite app_nil_r].
  by destruct (transformSseLine _ callbacks options e) as [tl e'].
Qed.

(** X2: What a fresh transformer has done when the stream is closed, in terms
    of the text the bytes decode to: each line that a newline ends was
    transformed in order, by [transformSseLine] on the state the lines
    before it left, and enqueued as one chunk that ends with a newline;
    what follows the last newline, when it is not empty, was transformed
    last and enqueued without a newline. The chunk boundaries play no
    part. *)
Theorem stream_is_linewise callbacks options (store : gmap jstring SignedThinking)
  (w : W) (chunks : list (list Byte.byte)) :
  let s0 := createStreamingTransformer store w in
  let '(d, t) := Utf8.decode Utf8.fresh (concat chunks) in
  let '(d_end, t_end) := Utf8.decode_end d in
  let '(out, e) := emit_lines callbacks options (complete (t ++ t_end)) (env s0) in
  let last := pending (t ++ t_end) in
  pipe callbacks options chunks s0
  = {| decoder := d_end; buffer := last;
       env := if nonempty last
              then snd (transformSseLine last callbacks options e) else e;
       enqueued :=
         out ++ if nonempty last
                then [Utf8.encode (fst (transformSseLine last callbacks options e))]
                else [] |}.
Proof.
  intros s0.
  destruct (Utf8.decode Utf8.fresh (concat chunks)) as [d t] eqn:Hdec.
  destruct (Utf8.decode_end d) as [d_end t_end] eqn:Hend.
  destruct (emit_lines callbacks options (complete (t ++ t_end)) (env s0))
    as [out e] eqn:Hemit.
  by apply pipe_fresh with (d := d).
Qed.

End Output.

(** *** The payload that comes whole *)

Section Payload.
Context `{P : Platform} {W : Type}.
Implicit Types (callbacks : StreamingCallbacks (W := W)) (options : StreamingOptions).
Implicit Types (e : Env (W := W)) (s : Stream (W := W)).
Implicit Types (f : option (val -> W -> completion unit val * W)).

(** Splitting at the newlines and joining with newlines gives the text
    back. *)
Lemma join_split_nl (t : jstring) : join [newline] (split_nl t) = t.
Proof.
  induction t as [|c t IH]; [done|]. cbn [split_nl].
  destruct (N.eqb_spec c newline) as [->|Hc].
  - destruct (split_nl t) as [|l ls] eqn:E;
      [by destruct (TransformerProps.split_nl_nonempty t)|].
    cbn [join app] in *. by rewrite IH.
  - destruct (split_nl t) as [|l ls] eqn:E;
      [by destruct (TransformerProps.split_nl_nonempty t)|].
    destruct ls as [|l' ls]; cbn [join app] in *; by rewrite <- IH.
Qed.

Lemma transform_payload_line_passthrough f (line : jstring) (w : W) :
  not_transformable line -> transform_payload_line f line w = (line, w).
Proof.
  unfold not_transformable, transform_payload_line. intros Hnot.
  destruct (startsWith line (lit "data:")) eqn:Hstart; [cbn|done].
  destruct (nonempty (trim (slice 5 line))) eqn:Hjson; [cbn|done].
  destruct Hnot as [H | [H | [H | (parsed & H & Hr)]]].
  - discriminate H.
  - rewrite H in Hjson. discriminate Hjson.
  - by rewrite H.
  - unfold lacks_response in *. rewrite H.
    destruct parsed as [| | | | |l|l]; cbn in *; try done.
    destruct (own (field_name f_response) l) as [v|]; cbn in *; [|done].
    by destruct v.
Qed.

Lemma map_lines_passthrough f (lines : list jstring) (w : W) :
  Forall not_transformable lines ->
  map_lines (transform_payload_line f) lines w = (lines, w).
Proof.
  induction 1 as [|line lines Hline _ IH]; cbn [map_lines]; [done|].
  by rewrite transform_payload_line_passthrough, IH.
Qed.

(** X4: A payload none of whose lines is transformable is returned as it is,
    newline for newline, and the callback is not called. *)
Theorem payload_passthrough (payload : jstring) f (w : W) :
  Forall not_transformable (split_nl payload) ->
  transformStreamingPayload payload f w = (payload, w).
Proof.
  intros Hnot. unfold transformStreamingPayload.
  by rewrite map_lines_passthrough, join_split_nl.
Qed.

(** The encoder looks one code unit ahead, and a newline is no half of a
    pair: a text is encoded up to a newline as it is alone. *)
Lemma encode_newline (a b : jstring) :
  Utf8.encode (a ++ newline :: b) = Utf8.encode (a ++ [newline]) ++ Utf8.encode b.
Proof.
  remember (length a) as n eqn:Hn. revert a Hn.
  induction n as [n IH] using lt_wf_ind. intros a Hn.
  destruct a as [|c a]; [done|]. cbn [app Utf8.encode].
  destruct ((55296 <=? c) && (c <=? 56319))%N.
  - destruct a as [|d a]; cbn [app].
    { change ((56320 <=? newline) && (newline <=? 57343))%N with false. cbn iota.
      by rewrite <- app_assoc. }
    destruct ((56320 <=? d) && (d <=? 57343))%N.
    + rewrite <- app_assoc. f_equal. apply (IH (length a)); [cbn in Hn; lia | done].
    + rewrite <- app_assoc. f_equal.
      apply (IH (length (d :: a)) ltac:(cbn in *; lia) (d :: a) eq_refl).
  - destruct ((56320 <=? c) && (c <=? 57343))%N; rewrite <- app_assoc; f_equal;
      apply (IH (length a)); cbn in Hn; (lia || done).
Qed.

Lemma encode_lines (ls : list jstring) (x : jstring) :
  concat (map (fun l => Utf8.encode (l ++ [newline])) ls) ++ Utf8.encode x
  = Utf8.encode (join [newline] (ls ++ [x])).
Proof.
  induction ls as [|l ls IH]; [done|]. cbn [map concat app].
  assert (join [newline] (l :: ls ++ [x]) = l ++ newline :: join [newline] (ls ++ [x]))
    as -> by (cbn [join]; by destruct (ls ++ [x]) eqn:E; [destruct ls|]).
  by rewrite (encode_newline l (join [newline] (ls ++ [x]))), <- IH, app_assoc.
Qed.

Lemma map_lines_app (g : jstring -> W -> jstring * W) (l1 l2 : list jstring) (w : W) :
  map_lines g (l1 ++ l2) w =
  let '(o1, w1) := map_lines g l1 w in
  let '(o2, w2) := map_lines g l2 w1 in
  (o1 ++ o2, w2).
Proof.
  revert w. induction l1 as [|l l1 IH]; intros w; cbn [map_lines app].
  - by destruct (map_lines g l2 w).
  - destruct (g l w) as [l' w1]. rewrite IH.
    destruct (map_lines g l1 w1) as [o1 w2]. by destruct (map_lines g l2 w2).
Qed.

Lemma debug_injection_off callbacks options (already : bool) :
  debugText options = None -> debug_injection callbacks options already = None.
Proof. intros H. unfold debug_injection. by rewrite H. Qed.

(** Without caching and without debug text, the lines of a stream are
    transformed as the lines of a payload are. *)
Lemma emit_lines_plain callbacks options (lines : list jstring) e :
  caching_key options = None ->
  debugText options = None ->
  emit_lines callbacks options lines e =
  let '(ls, w') :=
    map_lines (transform_payload_line (transformThinkingParts callbacks)) lines (world e) in
  (map (fun l => Utf8.encode (l ++ [newline])) ls, with_world e w').
Proof.
  intros Hcache Hdebug. revert e.
  induction lines as [|line lines IH]; intros e; cbn [emit_lines map_lines].
  - by rewrite TransformerProps.with_world_id.
  - rewrite TransformerProps.transformSseLine_plain;
      [|done|by apply debug_injection_off].
    destruct (transform_payload_line _ line (world e)) as [l' w1].
    rewrite IH. cbn [world with_world].
    by destruct (map_lines _ lines w1) as [ls w2].
Qed.

(** X3: The two paths agree on a whole stream. Without signature caching and
    without debug text, the bytes that a fresh transformer has enqueued
    when the stream is closed are the UTF-8 encoding of what
    [transformStreamingPayload] returns for the text the stream decodes
    to, whatever the chunking; the callback's owner ends in the same
    state, and the store is as it was given. *)
Theorem streaming_agrees_with_payload callbacks options
  (store : gmap jstring SignedThinking) (w : W) (chunks : list (list Byte.byte)) :
  caching_key options = None ->
  debugText options = None ->
  let '(d, t) := Utf8.decode Utf8.fresh (concat chunks) in
  let closed := pipe callbacks options chunks (createStreamingTransformer store w) in
  let '(out, w') :=
    transformStreamingPayload (t ++ snd (Utf8.decode_end d))
      (transformThinkingParts callbacks) w in
  output closed = Utf8.encode out
  /\ world (env closed) = w'
  /\ signatureStore (env closed) = store.
Proof.
  intros Hcache Hdebug.
  destruct (Utf8.decode Utf8.fresh (concat chunks)) as [d t] eqn:Hdec.
  destruct (Utf8.decode_end d) as [d_end t_end] eqn:Hend. cbn [snd].
  set (text := t ++ t_end).
  pose proof (emit_lines_plain callbacks options (complete text)
                (env (createStreamingTransformer store w)) Hcache Hdebug) as Hemit.
  unfold transformStreamingPayload.
  rewrite (TransformerProps.split_nl_complete_pending text), map_lines_app.
  cbn [env createStreamingTransformer world] in Hemit.
  destruct (map_lines _ (complete text) w) as [ls w1].
  rewrite (pipe_fresh callbacks options store w chunks d d_end t t_end _ _ Hdec Hend Hemit).
  fold text. unfold output. cbn [enqueued env map_lines].
  destruct (nonempty (pending text)) eqn:Hlast.
  - rewrite TransformerProps.transformSseLine_plain;
      [|done|by apply debug_injection_off].
    cbn [world with_world].
    destruct (transform_payload_line _ (pending text) w1) as [l' w2].
    cbn [fst snd world with_world signatureStore].
    rewrite concat_app. cbn [concat]. rewrite app_nil_r, encode_lines. done.
  - destruct (pending text) as [|c x]; [|done].
    change (transform_payload_line (transformThinkingParts callbacks) [] w1)
      with (@nil N, w1).
    cbn [world with_world signatureStore].
    rewrite app_nil_r, <- encode_lines. cbn [Utf8.encode]. by rewrite app_nil_r.
Qed.

End Payload.

Import Examples.
#[local] Existing Instance Reference.platform.

(** [stream_writes_its_session_only] on a stream that stores a signature
    under its key while the store holds an entry of another session. *)
Lemma stream_writes_its_session_only_witness :
  caching_key caching <> Some (lit "other")
  /\ signatureStore
       (env (pipe logging caching thinking_chunks
               (createStreamingTransformer other_store no_calls)))
     !! lit "other"
     = signatureStore (env (createStreamingTransformer other_store no_calls)) !! lit "other".
Proof.
  assert (caching_key caching <> Some (lit "other")) as Hk
    by (intros H; vm_compute in H; discriminate H).
  split; [exact Hk|].
  exact (stream_writes_its_session_only logging caching thinking_chunks
           (createStreamingTransformer other_store no_calls) (lit "other") Hk).
Defined.

(** [stored_text_is_never_empty] on a stream that stores a signature in
    an empty store. *)
Lemma stored_text_is_never_empty_witness :
  (forall k v,
     signatureStore (env (createStreamingTransformer createSignatureStore no_calls)) !! k
     = Some v -> text v <> [])
  /\ signatureStore
       (env (pipe logging caching thinking_chunks
               (createStreamingTransformer createSignatureStore no_calls)))
     !! lit "session"
     = Some {| text := lit "AB"; signature := JStr (lit "SIG") |}
  /\ forall k v,
       signatureStore
         (env (pipe logging caching thinking_chunks
                 (createStreamingTransformer createSignatureStore no_calls))) !! k = Some v ->
       text v <> [].
Proof.
  assert (forall k v,
            signatureStore (env (createStreamingTransformer createSignatureStore no_calls)) !! k
            = Some v -> text v <> []) as Hbefore.
  { intros k v Hv. cbn in Hv. unfold createSignatureStore in Hv.
    by rewrite lookup_empty in Hv. }
  split; [exact Hbefore|]. split; [vm_refl|].
  exact (stored_text_is_never_empty logging caching thinking_chunks
           (createStreamingTransformer createSignatureStore no_calls) Hbefore).
Defined.

(** [debug_text_is_injected_once] on a transformer that has injected the
    text: the callback is not called for the next line. *)
Lemma debug_text_is_injected_once_witness :
  injected (env injected_stream) = true
  /\ world (env (pipe debugging verbose [Utf8.encode (hi_line ++ [newline])]
                  injected_stream)) = 1%nat
  /\ pipe debugging verbose [Utf8.encode (hi_line ++ [newline])] injected_stream
     = pipe debugging (no_debug verbose) [Utf8.encode (hi_line ++ [newline])]
         injected_stream.
Proof.
  assert (injected (env injected_stream) = true) as Hinj by reflexivity.
  split; [exact Hinj|]. split; [vm_refl|].
  exact (debug_text_is_injected_once debugging verbose
           [Utf8.encode (hi_line ++ [newline])] injected_stream Hinj).
Defined.

(** [payload_passthrough] on an event, an empty line and the end marker. *)
Lemma payload_passthrough_witness :
  Forall not_transformable (split_nl done_payload)
  /\ transformStreamingPayload done_payload (transformThinkingParts wrapping) 0%nat
     = (done_payload, 0%nat).
Proof.
  assert (Forall not_transformable (split_nl done_payload)) as Hnot.
  { assert (split_nl done_payload = [lit "event: ping"; []; lit "data: [DONE]"])
      as -> by vm_refl.
    apply List.Forall_cons; [left; reflexivity|].
    apply List.Forall_cons; [left; reflexivity|].
    apply List.Forall_cons; [right; right; left; vm_refl|].
    apply List.Forall_nil. }
  split; [exact Hnot|].
  exact (payload_passthrough done_payload (transformThinkingParts wrapping) 0%nat Hnot).
Defined.

(** [streaming_agrees_with_payload] on a line cut in two chunks, with a
    callback that wraps the response. *)
Lemma streaming_agrees_with_payload_witness :
  caching_key plain = None
  /\ debugText plain = None
  /\ output (pipe wrapping plain
               [take 9 (Utf8.encode (hi_line ++ [newline]));
                drop 9 (Utf8.encode (hi_line ++ [newline]))]
               (createStreamingTransformer createSignatureStore 0%nat))
     = Utf8.encode (jlit "data: [{'text':'hi'}]" ++ [newline])
  /\ let '(d, t) :=
       Utf8.decode Utf8.fresh
         (concat [take 9 (Utf8.encode (hi_line ++ [newline]));
                  drop 9 (Utf8.encode (hi_line ++ [newline]))]) in
     let closed :=
       pipe wrapping plain
         [take 9 (Utf8.encode (hi_line ++ [newline]));
          drop 9 (Utf8.encode (hi_line ++ [newline]))]
         (createStreamingTransformer createSignatureStore 0%nat) in
     let '(out, w') :=
       transformStreamingPayload (t ++ snd (Utf8.decode_end d))
         (transformThinkingParts wrapping) 0%nat in
     output closed = Utf8.encode out
     /\ world (env closed) = w'
     /\ signatureStore (env closed) = createSignatureStore.
Proof.
  assert (caching_key plain = None) as Hcache by reflexivity.
  assert (debugText plain = None) as Hdebug by reflexivity.
  split; [exact Hcache|]. split; [exact Hdebug|]. split; [vm_refl|].
  exact (streaming_agrees_with_payload wrapping plain createSignatureStore 0%nat
           [take 9 (Utf8.encode (hi_line ++ [newline]));
            drop 9 (Utf8.encode (hi_line ++ [newline]))] Hcache Hdebug).
Defined.

End StreamProps.

(** ** The refresh window and the jitter *)

Module RefreshWindowProps.
Import RefreshQueue.

(** X22: The accounts that a check refreshes are those whose token expires
    within the buffer: after the reading of the clock, and not later than
    [bufferSeconds] seconds after it. They come in the order of the
    manager's list, and with a buffer that is not positive there are
    none. *)
Theorem refresh_window (config : ProactiveRefreshConfig) (now : Z)
  (accounts : list ManagedAccount) :
  (forall account,
     In account (getAccountsNeedingRefresh config now accounts)
     <-> In account accounts
         /\ exists e, expires account = Some e /\ e <> 0%Z
                      /\ (now < e <= now + bufferSeconds config * 1000)%Z)
  /\ sublist (getAccountsNeedingRefresh config now accounts) accounts
  /\ ((bufferSeconds config <= 0)%Z -> getAccountsNeedingRefresh config now accounts = []).
Proof.
  assert (forall account,
            (if isExpired now account then false else needsRefresh config now account) = true
            <-> exists e, expires account = Some e /\ e <> 0%Z
                          /\ (now < e <= now + bufferSeconds config * 1000)%Z) as Hsel.
  { intros account. unfold isExpired, needsRefresh, no_expiry.
    destruct (expires account) as [e|]; [|split; [done|by intros (e & [=] & _)]].
    destruct (Z.eqb_spec e 0) as [->|Hne].
    - split; [done|]. by intros (e & [= <-] & Hz & _).
    - destruct (Z.leb_spec e now) as [Hle|Hgt].
      + split; [done|]. intros (e' & [= <-] & _ & H). lia.
      + rewrite Z.leb_le. split.
        * intros H. exists e. by repeat split.
        * intros (e' & [= <-] & _ & H). lia. }
  split; [|split].
  - intros account. unfold getAccountsNeedingRefresh. rewrite filter_In.
    by rewrite Hsel.
  - unfold getAccountsNeedingRefresh.
    induction accounts as [|a accounts IH]; cbn [List.filter]; [constructor|].
    destruct (if isExpired now a then false else needsRefresh config now a);
      by constructor.
  - intros Hbuf. unfold getAccountsNeedingRefresh.
    induction accounts as [|a accounts IH]; cbn [List.filter]; [done|].
    destruct (if isExpired now a then false else needsRefresh config now a) eqn:Ha; [|done].
    apply Hsel in Ha as (e & _ & _ & H). nia.
Qed.


(** X24: The start is urgent exactly when some account has a token that has
    expired or expires within a minute; with a buffer of at least a
    minute, every such account whose token has not expired yet is among
    those the check refreshes. *)
Theorem urgent_needs (config : ProactiveRefreshConfig) (now : Z)
  (accounts : list ManagedAccount) :
  (hasUrgentRefreshNeeds now accounts = true
   <-> exists account e, In account accounts /\ expires account = Some e
                         /\ e <> 0%Z /\ (e <= now + 60000)%Z)
  /\ ((60 <= bufferSeconds config)%Z ->
      forall account e, In account accounts -> expires account = Some e ->
                        e <> 0%Z -> (now < e <= now + 60000)%Z ->
                        In account (getAccountsNeedingRefresh config now accounts)).
Proof.
  split.
  - unfold hasUrgentRefreshNeeds. rewrite existsb_exists. split.
    + intros (account & Hin & H). unfold no_expiry in H.
      destruct (expires account) as [e|] eqn:He; [|done].
      destruct (Z.eqb_spec e 0) as [->|Hne]; [done|].
      apply Z.leb_le in H. exists account, e. repeat split; [done..|lia].
    + intros (account & e & Hin & He & Hne & Hle). exists account. split; [done|].
      unfold no_expiry. rewrite He.
      destruct (Z.eqb_spec e 0) as [->|_]; [done|]. apply Z.leb_le. lia.
  - intros Hbuf account e Hin He Hne Hwin.
    unfold getAccountsNeedingRefresh. rewrite filter_In. split; [done|].
    unfold isExpired, needsRefresh, no_expiry. rewrite He.
    destruct (Z.eqb_spec e 0) as [->|_]; [done|].
    destruct (Z.leb_spec e now); [lia|]. apply Z.leb_le. nia.
Qed.

Local Open Scope Q_scope.


Local Close Scope Q_scope.



End RefreshWindowProps.

(** ** A refresh check *)

Module RefreshCheckProps.
Import Js RefreshCheck.

Section Check.
Context `{P : Platform} `{A : !Token.Auth} `{AM : !AccountManager}.
Implicit Types (net : Token.Network) (sch : Schedule) (q : Queue).
Implicit Types (config : RefreshQueue.ProactiveRefreshConfig).

Lemma refresh_attempts net (auth : Token.OAuthAuthDetails) (w : Token.World) :
  (Token.attempts w <= Token.attempts (snd (Token.refreshAccessToken net auth w))
   <= Token.attempts w + S RetryPolicy.MAX_RETRIES)%nat.
Proof.
  destruct (truthy (Token.refreshToken (Token.parseRefreshParts (Token.refresh auth))))
    eqn:Htoken.
  - rewrite (RefreshProps.refresh_with_token _ _ _ Htoken).
    destruct (Token.attempt_loop _ _ _ _ _ _ _ w) as [r w'] eqn:Hloop.
    apply RefreshProps.attempt_loop_trace in Hloop as (n & Hn & _ & Hatt & _); [|done].
    cbn [snd]. lia.
  - unfold Token.refreshAccessToken. rewrite Htoken. cbn. lia.
Qed.

Lemma within_refl q : within 0 q q.
Proof. unfold within. repeat split; (lia || done). Qed.

Lemma within_trans (k1 k2 : Z) q1 q2 q3 :
  within k1 q1 q2 -> within k2 q2 q3 -> within (k1 + k2) q1 q3.
Proof.
  unfold within.
  intros (Ha1 & Hb1 & Hc1 & Hd1 & He1 & Hf1 & Hg1) (Ha2 & Hb2 & Hc2 & Hd2 & He2 & Hf2 & Hg2).
  repeat split; try lia; try congruence. auto.
Qed.

Lemma within_le (k1 k2 : Z) q q' : (k1 <= k2)%Z -> within k1 q q' -> within k2 q q'.
Proof.
  unfold within. intros Hk (Ha & Hb & Hc & Hd & He & Hf & Hg).
  repeat split; try lia; try done. unfold RetryPolicy.MAX_RETRIES in *. lia.
Qed.

Lemma stop_fields (s : RefreshQueueState) :
  refreshCount (stop s) = refreshCount s /\ errorCount (stop s) = errorCount s
  /\ isRefreshing (stop s) = isRefreshing s /\ lastCheckTime (stop s) = lastCheckTime s
  /\ (isRunning (stop s) = true -> isRunning s = true)
  /\ isRunning (stop s) = false.
Proof. unfold stop. destruct (isRunning s) eqn:E; cbn; rewrite ?E; by repeat split. Qed.

(** One account counts once at most and costs four calls of [fetch] at
    most. *)
Lemma refresh_account_within net sch (i : nat) (account : RefreshQueue.ManagedAccount) q :
  within 1 q (refresh_account net sch i account q).
Proof.
  unfold refresh_account.
  destruct (accountManager q) as [m|]; [|unfold within; cbn; repeat split; (lia || done)].
  destruct (toAuthDetails m account) as [auth|];
    [|unfold within; cbn; repeat split; (lia || done)].
  unfold refreshToken.
  pose proof (refresh_attempts net auth (tokens q)) as Hatt.
  destruct (Token.refreshAccessToken net auth (tokens q)) as [refreshed w].
  cbn [snd] in Hatt.
  set (s := if stopped_during sch i then stop (state q) else state q).
  assert (refreshCount s = refreshCount (state q) /\ errorCount s = errorCount (state q)
          /\ isRefreshing s = isRefreshing (state q)
          /\ lastCheckTime s = lastCheckTime (state q)
          /\ (isRunning s = true -> isRunning (state q) = true))
    as (Hr & He & Hf & Hc & Hrun).
  { subst s. destruct (stopped_during sch i); [|done].
    destruct (stop_fields (state q)) as (? & ? & ? & ? & ? & _). done. }
  clearbody s. unfold RetryPolicy.MAX_RETRIES in *.
  destruct refreshed as [[auth'|]|];
    [destruct (updateFromAuth account auth' m) as [[[]|] m1]| |];
    unfold within, RetryPolicy.MAX_RETRIES; cbn; rewrite ?Hr, ?He, ?Hf, ?Hc;
    repeat split; (lia || done).
Qed.

Lemma refresh_accounts_within net sch (accounts : list RefreshQueue.ManagedAccount)
  (i : nat) q :
  within (Z.of_nat (length accounts)) q (refresh_accounts net sch accounts i q).
Proof.
  revert i q. induction accounts as [|account rest IH]; intros i q; cbn [refresh_accounts].
  - apply within_refl.
  - destruct (isRunning (state q)); cbn [negb].
    + replace (Z.of_nat (length (account :: rest)))
        with (1 + Z.of_nat (length rest))%Z by (cbn [length]; lia).
      eapply within_trans; [apply refresh_account_within | apply IH].
    + eapply within_le; [|apply within_refl]. lia.
Qed.

(** X26: A refresh check is contained, whatever the endpoint answers and
    whatever the account manager throws. A check that finds another one
    in progress changes nothing; a check that sets the flag
    [isRefreshing] clears it when it ends. Each account to refresh
    counts once at most, in [refreshCount] or in [errorCount], so the two
    counters never decrease and grow by no more than the number of
    accounts to refresh; the check calls [fetch] at most
    [MAX_RETRIES + 1] times per account; and it never starts a queue that
    is stopped. *)
Theorem check_is_contained config net sch q :
  let accountsToRefresh :=
    match accountManager q with
    | Some m => RefreshQueue.getAccountsNeedingRefresh config (now sch) (getAccounts m)
    | None => []
    end in
  let q' := runRefreshCheck config net sch q in
  (isRefreshing (state q) = true -> q' = q)
  /\ (isRefreshing (state q) = false -> isRefreshing (state q') = false)
  /\ (refreshCount (state q) <= refreshCount (state q'))%Z
  /\ (errorCount (state q) <= errorCount (state q'))%Z
  /\ (refreshCount (state q') - refreshCount (state q)
      + (errorCount (state q') - errorCount (state q))
      <= Z.of_nat (length accountsToRefresh))%Z
  /\ (Token.attempts (tokens q) <= Token.attempts (tokens q')
      <= Token.attempts (tokens q)
         + S RetryPolicy.MAX_RETRIES * length accountsToRefresh)%nat
  /\ (isRunning (state q') = true -> isRunning (state q) = true).
Proof.
  cbv zeta. unfold runRefreshCheck.
  destruct (isRefreshing (state q)) eqn:Hflag.
  { repeat split; try lia; try done. }
  destruct (accountManager q) as [m|] eqn:Hm.
  2: { rewrite Hflag. repeat split; try lia; try done. }
  set (accounts := RefreshQueue.getAccountsNeedingRefresh config (now sch) (getAccounts m)).
  set (q1 := with_state q _).
  assert (within (Z.of_nat (length accounts)) q1
            (match accounts with
             | [] => q1
             | _ => refresh_accounts net sch accounts 0 q1
             end)) as Hin.
  { pose proof (refresh_accounts_within net sch accounts 0 q1) as H.
    by destruct accounts. }
  destruct Hin as (Ha & Hb & Hc & Hd & He & _ & _).
  set (q2 := match accounts with [] => q1 | _ => _ end) in *. clearbody q2.
  subst q1. cbn [state tokens with_state refreshCount errorCount isRunning isRefreshing] in *.
  unfold RetryPolicy.MAX_RETRIES in *.
  repeat split; try done; try lia.
Qed.

(** X27: Stopping the queue ends a check at the account it is waiting for.
    When [stop()] is called while the refresh of an account is awaited,
    that refresh is still applied and counted, and no account after it is
    begun; and a check that finds the queue stopped begins no account at
    all. *)
Theorem stop_ends_the_check net sch (account : RefreshQueue.ManagedAccount)
  (rest : list RefreshQueue.ManagedAccount) (i : nat) q (m : manager)
  (auth : Token.OAuthAuthDetails) :
  accountManager q = Some m ->
  toAuthDetails m account = Normal auth ->
  stopped_during sch i = true ->
  refresh_accounts net sch (account :: rest) i q
  = (if isRunning (state q) then refresh_account net sch i account q else q)
  /\ isRunning (state (refresh_accounts net sch (account :: rest) i q)) = false.
Proof.
  intros Hm Hauth Hstop. cbn [refresh_accounts].
  destruct (isRunning (state q)) eqn:Hrun; cbn [negb]; [|done].
  assert (isRunning (state (refresh_account net sch i account q)) = false) as Hoff.
  { unfold refresh_account. rewrite Hm, Hauth, Hstop.
    destruct (refreshToken net auth account (tokens q)) as [refreshed w].
    destruct (stop_fields (state q)) as (_ & _ & _ & _ & _ & Hoff).
    destruct refreshed as [[auth'|]|];
      [destruct (updateFromAuth account auth' m) as [[[]|] m1]| |]; exact Hoff. }
  assert (refresh_accounts net sch rest (S i) (refresh_account net sch i account q)
          = refresh_account net sch i account q) as ->; [|done].
  destruct rest as [|next rest]; cbn [refresh_accounts]; [done|]. by rewrite Hoff.
Qed.

End Check.

Import Examples.
#[local] Existing Instance Reference.platform.
#[local] Existing Instance blob_auth.
#[local] Existing Instance list_manager.

(** [stop_ends_the_check] on a queue with two accounts to refresh, when
    [stop()] is called during the first refresh: the first account is
    refreshed and counted, the second is not begun. *)
Lemma stop_ends_the_check_witness :
  accountManager running_queue = Some [soon; later]
  /\ toAuthDetails [soon; later] soon = Normal stored_auth
  /\ stopped_during stopping 0 = true
  /\ refreshCount (state (refresh_accounts granted stopping [soon; later] 0 running_queue))
     = 1%Z
  /\ Token.attempts
       (tokens (refresh_accounts granted stopping [soon; later] 0 running_queue))
     = 1%nat
  /\ refresh_accounts granted stopping [soon; later] 0 running_queue
     = (if isRunning (state running_queue)
        then refresh_account granted stopping 0 soon running_queue
        else running_queue)
  /\ isRunning (state (refresh_accounts granted stopping [soon; later] 0 running_queue))
     = false.
Proof.
  assert (accountManager running_queue = Some [soon; later]) as Hm by reflexivity.
  assert (toAuthDetails [soon; later] soon = Normal stored_auth) as Hauth by reflexivity.
  assert (stopped_during stopping 0 = true) as Hstop by reflexivity.
  split; [exact Hm|]. split; [exact Hauth|]. split; [exact Hstop|].
  split; [vm_refl|]. split; [vm_refl|].
  exact (stop_ends_the_check granted stopping soon [later] 0 running_queue
           [soon; later] stored_auth Hm Hauth Hstop).
Defined.

End RefreshCheckProps.

(** ** Text that passes through *)

Module RoundTripProps.
Import Js Utf8 Transformer.

Lemma lor_shiftl (a b : N) : (b < 64)%N -> N.lor (N.shiftl a 6) b = (a * 64 + b)%N.
Proof.
  intros Hb. rewrite N.shiftl_mul_pow2. change (2 ^ 6)%N with 64%N.
  assert (N.land (a * 64) b = 0%N) as Hland.
  { apply N.bits_inj_0. intros n. rewrite N.land_spec.
    destruct (N.ltb_spec n 6) as [Hn|Hn].
    - change 64%N with (2 ^ 6)%N. rewrite N.mul_pow2_bits_low by exact Hn. reflexivity.
    - assert (N.testbit b n = false) as ->; [|apply andb_false_r].
      destruct (N.eq_dec b 0%N) as [->|Hb0]; [apply N.bits_0|].
      apply N.bits_above_log2. apply N.log2_lt_pow2; [lia|].
      apply N.lt_le_trans with (2 ^ 6)%N; [exact Hb|]. apply N.pow_le_mono_r; lia. }
  rewrite <- N.lxor_lor, <- N.add_nocarry_lxor; auto.
Qed.

Lemma land_low (a k m : N) : m = N.ones k -> N.land a m = (a mod 2 ^ k)%N.
Proof. intros ->. apply N.land_ones. Qed.

Lemma byte_to_N (n : N) : (n < 256)%N -> Byte.to_N (default Byte.x00 (Byte.of_N n)) = n.
Proof.
  intros Hn. destruct (Byte.of_N n) as [b|] eqn:E; [by apply Byte.to_of_N|].
  apply Byte.of_N_None_iff in E. lia.
Qed.

(** A continuation byte within the boundaries *)
Lemma handler_continue (cp seen needed lower upper : N) (bom : bool) (r : N) :
  (needed <> 0)%N -> (r < 64)%N -> (lower <= 128 + r <= upper)%N ->
  handler (partial cp seen needed lower upper bom) (128 + r)
  = if (seen + 1 =? needed)%N then (idle bom, [(cp * 64 + r)%N])
    else (partial (cp * 64 + r) (seen + 1) needed 128 191 bom, []).
Proof.
  intros Hn Hr [Hlo Hhi]. unfold handler. cbn [bytes_needed lower_boundary upper_boundary partial code_point bytes_seen bom_seen].
  destruct (N.eqb_spec needed 0) as [?|_]; [done|].
  destruct (N.leb_spec lower (128 + r)); [|lia].
  destruct (N.leb_spec (128 + r) upper); [|lia].
  cbn [andb negb].
  rewrite (land_low (128 + r) 6 63 eq_refl). change (2 ^ 6)%N with 64%N.
  assert ((128 + r) mod 64 = r)%N as -> by nlia.
  rewrite lor_shiftl by done. reflexivity.
Qed.

Lemma serialize_one (seen : bool) (cp : N) :
  serialize seen [cp] = (true, if negb seen && (cp =? 65279)%N then [] else units_of cp).
Proof. cbn. destruct (negb seen && (cp =? 65279)%N); [done|]. by rewrite app_nil_r. Qed.

Lemma decode_scalar (seen : bool) (cp : N) (rest : list Byte.byte) :
  scalar cp ->
  decode (idle seen) (bytes_of cp ++ rest)
  = let '(d, s) := decode (idle true) rest in (d, shown seen cp ++ s).
Proof.
  intros Hcp. unfold bytes_of, shown.
  destruct (N.ltb_spec cp 128) as [H1|H1].
  { cbn [app decode]. unfold decode_byte. rewrite byte_to_N by lia.
    unfold handler. cbn [bytes_needed idle]. cbn [N.eqb]. unfold lead_byte.
    destruct (N.leb_spec cp 127); [|lia]. rewrite serialize_one.
    change (with_bom (idle seen) true) with (idle true).
    by destruct (decode (idle true) rest). }
  destruct (N.ltb_spec cp 2048) as [H2|H2].
  { cbn [app decode]. unfold decode_byte at 1. rewrite byte_to_N by nlia.
    unfold handler at 1. cbn [bytes_needed idle]. cbn [N.eqb]. unfold lead_byte.
    destruct (N.leb_spec (192 + cp / 64) 127); [nlia|].
    destruct (N.leb_spec 194 (192 + cp / 64)); [|nlia].
    destruct (N.leb_spec (192 + cp / 64) 223); [|nlia].
    cbn [andb]. rewrite (land_low _ 5 31 eq_refl). change (2 ^ 5)%N with 32%N.
    assert ((192 + cp / 64) mod 32 = cp / 64)%N as -> by nlia.
    cbn [serialize bom_seen idle].
    change (with_bom ?d seen) with (partial (cp / 64) 0 1 128 191 seen).
    unfold decode_byte at 1. rewrite byte_to_N by nlia.
    rewrite handler_continue; [|lia|nlia|nlia].
    change (0 + 1 =? 1)%N with true. cbn iota.
    assert (cp / 64 * 64 + cp mod 64 = cp)%N as -> by nlia.
    cbn [bom_seen idle]. rewrite serialize_one.
    change (with_bom (idle seen) true) with (idle true).
    cbn [app]. by destruct (decode (idle true) rest). }
  destruct (N.ltb_spec cp 65536) as [H3|H3].
  { cbn [app decode]. unfold decode_byte at 1. rewrite byte_to_N by nlia.
    unfold handler at 1. cbn [bytes_needed idle]. cbn [N.eqb]. unfold lead_byte.
    destruct (N.leb_spec (224 + cp / 4096) 127); [nlia|].
    destruct (N.leb_spec 194 (224 + cp / 4096)); [|nlia].
    destruct (N.leb_spec (224 + cp / 4096) 223); [nlia|].
    destruct (N.leb_spec 224 (224 + cp / 4096)); [|nlia].
    destruct (N.leb_spec (224 + cp / 4096) 239); [|nlia].
    cbn [andb]. rewrite (land_low _ 4 15 eq_refl). change (2 ^ 4)%N with 16%N.
    assert ((224 + cp / 4096) mod 16 = cp / 4096)%N as -> by nlia.
    cbn [serialize bom_seen idle].
    set (lo := if (224 + cp / 4096 =? 224)%N then 160%N else 128%N).
    set (hi := if (224 + cp / 4096 =? 237)%N then 159%N else 191%N).
    change (with_bom ?d seen) with (partial (cp / 4096) 0 2 lo hi seen).
    assert (lo <= 128 + cp / 64 mod 64 <= hi)%N as Hbounds.
    { subst lo hi. destruct (N.eqb_spec (224 + cp / 4096) 224), (N.eqb_spec (224 + cp / 4096) 237);
        unfold scalar in Hcp; nlia. }
    clearbody lo hi.
    unfold decode_byte at 1. rewrite byte_to_N by nlia.
    rewrite handler_continue; [|lia|nlia|done].
    change (0 + 1 =? 2)%N with false. change (0 + 1)%N with 1%N. cbn iota.
    assert (cp / 4096 * 64 + cp / 64 mod 64 = cp / 64)%N as -> by nlia.
    cbn [serialize bom_seen partial].
    change (with_bom ?d seen) with (partial (cp / 64) 1 2 128 191 seen).
    unfold decode_byte at 1. rewrite byte_to_N by nlia.
    rewrite handler_continue; [|lia|nlia|nlia].
    change (1 + 1 =? 2)%N with true. cbn iota.
    assert (cp / 64 * 64 + cp mod 64 = cp)%N as -> by nlia.
    cbn [bom_seen idle]. rewrite serialize_one.
    change (with_bom (idle seen) true) with (idle true).
    cbn [app]. by destruct (decode (idle true) rest). }
  cbn [app decode]. unfold decode_byte at 1. rewrite byte_to_N by (unfold scalar in Hcp; nlia).
  unfold scalar in Hcp.
  unfold handler at 1. cbn [bytes_needed idle]. cbn [N.eqb]. unfold lead_byte.
  destruct (N.leb_spec (240 + cp / 262144) 127); [nlia|].
  destruct (N.leb_spec 194 (240 + cp / 262144)); [|nlia].
  destruct (N.leb_spec (240 + cp / 262144) 223); [nlia|].
  destruct (N.leb_spec 224 (240 + cp / 262144)); [|nlia].
  destruct (N.leb_spec (240 + cp / 262144) 239); [nlia|].
  destruct (N.leb_spec 240 (240 + cp / 262144)); [|nlia].
  destruct (N.leb_spec (240 + cp / 262144) 244); [|nlia].
  cbn [andb]. rewrite (land_low _ 3 7 eq_refl). change (2 ^ 3)%N with 8%N.
  assert ((240 + cp / 262144) mod 8 = cp / 262144)%N as -> by nlia.
  cbn [serialize bom_seen idle].
  set (lo := if (240 + cp / 262144 =? 240)%N then 144%N else 128%N).
  set (hi := if (240 + cp / 262144 =? 244)%N then 143%N else 191%N).
  change (with_bom ?d seen) with (partial (cp / 262144) 0 3 lo hi seen).
  assert (lo <= 128 + cp / 4096 mod 64 <= hi)%N as Hbounds.
  { subst lo hi.
    destruct (N.eqb_spec (240 + cp / 262144) 240), (N.eqb_spec (240 + cp / 262144) 244); nlia. }
  clearbody lo hi.
  unfold decode_byte at 1. rewrite byte_to_N by nlia.
  rewrite handler_continue; [|lia|nlia|done].
  change (0 + 1 =? 3)%N with false. change (0 + 1)%N with 1%N. cbn iota.
  assert (cp / 262144 * 64 + cp / 4096 mod 64 = cp / 4096)%N as -> by nlia.
  cbn [serialize bom_seen partial].
  change (with_bom ?d seen) with (partial (cp / 4096) 1 3 128 191 seen).
  unfold decode_byte at 1. rewrite byte_to_N by nlia.
  rewrite handler_continue; [|lia|nlia|nlia].
  change (1 + 1 =? 3)%N with false. change (1 + 1)%N with 2%N. cbn iota.
  assert (cp / 4096 * 64 + cp / 64 mod 64 = cp / 64)%N as -> by nlia.
  cbn [serialize bom_seen partial].
  change (with_bom ?d seen) with (partial (cp / 64) 2 3 128 191 seen).
  unfold decode_byte at 1. rewrite byte_to_N by nlia.
  rewrite handler_continue; [|lia|nlia|nlia].
  change (2 + 1 =? 3)%N with true. cbn iota.
  assert (cp / 64 * 64 + cp mod 64 = cp)%N as -> by nlia.
  cbn [bom_seen idle]. rewrite serialize_one.
  change (with_bom (idle seen) true) with (idle true).
  cbn [app]. by destruct (decode (idle true) rest).
Qed.

Lemma decode_encode (seen : bool) (s : jstring) :
  well_formed s = true ->
  seen || negb (starts_with_bom s) = true ->
  decode (idle seen) (encode s) = (idle (seen || nonempty s), s).
Proof.
  remember (length s) as n eqn:Hn. revert seen s Hn.
  induction n as [n IH] using lt_wf_ind. intros seen s Hn Hwf Hbom.
  destruct s as [|c s]; [by rewrite orb_false_r|].
  cbn [nonempty]. rewrite orb_true_r. cbn [well_formed encode] in *.
  destruct (N.leb_spec 55296 c) as [Hc1|Hc1], (N.leb_spec c 56319) as [Hc2|Hc2];
    cbn [andb] in *.
  1: { destruct s as [|d s]; [done|].
    destruct (N.leb_spec 56320 d) as [Hd1|Hd1], (N.leb_spec d 57343) as [Hd2|Hd2];
      cbn [andb] in *; try done.
    rewrite decode_scalar by (unfold scalar; nlia).
    rewrite (IH (length s) ltac:(cbn in Hn; lia) true s eq_refl Hwf eq_refl).
    unfold shown, units_of.
    destruct (N.eqb_spec (65536 + (c - 55296) * 1024 + (d - 56320)) 65279); [nlia|].
    rewrite andb_false_r.
    destruct (N.ltb_spec (65536 + (c - 55296) * 1024 + (d - 56320)) 65536); [nlia|].
    cbn [app orb]. do 3 f_equal; [|f_equal]; nlia. }
  all: destruct (N.leb_spec 56320 c), (N.leb_spec c 57343); cbn [andb] in *;
    try done; try lia.
  all: apply andb_true_iff in Hwf as [Hlt Hwf]; apply N.ltb_lt in Hlt.
  all: rewrite decode_scalar by (unfold scalar; lia).
  all: rewrite (IH (length s) ltac:(cbn in Hn; lia) true s eq_refl Hwf eq_refl).
  all: unfold shown, units_of; destruct (N.ltb_spec c 65536); [|lia].
  all: cbn [starts_with_bom] in Hbom.
  all: destruct seen; cbn [negb andb orb] in *; [done|].
  all: by destruct (c =? 65279)%N.
Qed.

Section Passthrough.
Context `{P : Platform} {W : Type}.
Implicit Types (callbacks : StreamingCallbacks (W := W)) (options : StreamingOptions).
Implicit Types (e : Env (W := W)).

Lemma transformSseLine_leaves (line : jstring) callbacks options e :
  not_transformable line ->
  transformSseLine line callbacks options e = (line, e).
Proof.
  unfold not_transformable, transformSseLine.
  intros Hnot.
  destruct (startsWith line (lit "data:")) eqn:Hstart; [cbn|done].
  destruct (nonempty (trim (slice 5 line))) eqn:Hjson; [cbn|done].
  destruct Hnot as [H | [H | [H | (parsed & H & Hr)]]].
  - discriminate H.
  - rewrite H in Hjson. discriminate Hjson.
  - unfold rewrite_line. by rewrite H.
  - unfold rewrite_line, lacks_response in *. rewrite H. unfold bind, lift.
    destruct parsed as [| | | | |l|l]; cbn in *; try done.
    destruct (own (field_name f_response) l) as [v|]; cbn in *; [|done].
    by destruct v.
Qed.

Lemma emit_lines_leaves (lines : list jstring) callbacks options e :
  Forall not_transformable lines ->
  emit_lines callbacks options lines e
  = (map (fun l => Utf8.encode (l ++ [newline])) lines, e).
Proof.
  induction 1 as [|line lines Hline _ IH]; cbn [emit_lines map]; [done|].
  by rewrite transformSseLine_leaves, IH.
Qed.

(** X9: A stream none of whose lines is transformable comes out byte for
    byte. When the chunks are the UTF-8 encoding of a text whose
    surrogates come in pairs and which does not start with a byte order
    mark, and no line of the text is transformable, the bytes enqueued
    when the stream is closed are the bytes that were written, whatever
    the chunking, the options and the callbacks; and the store, the
    buffer of thoughts, the debug flag and the callbacks' owner are as
    they were. *)
Theorem stream_passthrough callbacks options (store : gmap jstring SignedThinking)
  (w : W) (chunks : list (list Byte.byte)) (text : jstring) :
  concat chunks = Utf8.encode text ->
  well_formed text = true ->
  starts_with_bom text = false ->
  Forall not_transformable (split_nl text) ->
  output (pipe callbacks options chunks (createStreamingTransformer store w))
  = concat chunks
  /\ env (pipe callbacks options chunks (createStreamingTransformer store w))
     = env (createStreamingTransformer store w).
Proof.
  intros Hbytes Hwf Hbom Hnot.
  assert (Utf8.decode Utf8.fresh (concat chunks) = (idle (nonempty text), text)) as Hdec.
  { rewrite Hbytes. apply (decode_encode false); [done|]. by rewrite Hbom. }
  assert (Utf8.decode_end (idle (nonempty text)) = (idle (nonempty text), [])) as Hend
    by reflexivity.
  rewrite TransformerProps.split_nl_complete_pending in Hnot.
  apply Forall_app in Hnot as (Hlines & Hlast).
  apply Forall_cons in Hlast as (Hlast & _).
  pose proof (emit_lines_leaves (complete text) callbacks options
                (env (createStreamingTransformer store w)) Hlines) as Hemit.
  rewrite <- (app_nil_r text) in Hemit at 1.
  rewrite (StreamProps.pipe_fresh callbacks options store w chunks _ _ _ _ _ _
             Hdec Hend Hemit).
  rewrite app_nil_r. unfold output. cbn [enqueued env].
  rewrite transformSseLine_leaves by done. cbn [fst snd].
  rewrite Hbytes.
  assert (Utf8.encode text
          = concat (map (fun l => Utf8.encode (l ++ [newline])) (complete text))
            ++ Utf8.encode (pending text)) as ->.
  { rewrite StreamProps.encode_lines, <- TransformerProps.split_nl_complete_pending.
    by rewrite StreamProps.join_split_nl. }
  destruct (pending text) as [|c t]; cbn [nonempty].
  - split; [|done]. cbn [Utf8.encode]. by rewrite !app_nil_r.
  - split; [|done]. rewrite concat_app. cbn [concat]. by rewrite app_nil_r.
Qed.

End Passthrough.

Import Examples.
#[local] Existing Instance Reference.platform.

(** [stream_passthrough] on an event, a comment and the end marker, cut
    inside a two-byte character, with caching on. *)
Lemma stream_passthrough_witness :
  concat ping_chunks = Utf8.encode ping_text
  /\ well_formed ping_text = true
  /\ starts_with_bom ping_text = false
  /\ Forall not_transformable (split_nl ping_text)
  /\ output (pipe logging caching ping_chunks
               (createStreamingTransformer createSignatureStore no_calls))
     = concat ping_chunks.
Proof.
  assert (concat ping_chunks = Utf8.encode ping_text) as Hbytes.
  { unfold ping_chunks. cbn [concat]. by rewrite app_nil_r, take_drop. }
  assert (well_formed ping_text = true) as Hwf by vm_refl.
  assert (starts_with_bom ping_text = false) as Hbom by reflexivity.
  assert (Forall not_transformable (split_nl ping_text)) as Hnot.
  { assert (split_nl ping_text
            = [lit "event: ping"; lit ": caf" ++ [233%N]; lit "data: [DONE]"; []])
      as -> by vm_refl.
    apply List.Forall_cons; [left; reflexivity|].
    apply List.Forall_cons; [left; reflexivity|].
    apply List.Forall_cons; [right; right; left; vm_refl|].
    apply List.Forall_cons; [left; reflexivity|].
    apply List.Forall_nil. }
  split; [exact Hbytes|]. split; [exact Hwf|]. split; [exact Hbom|].
  split; [exact Hnot|].
  exact (proj1 (stream_passthrough logging caching createSignatureStore no_calls
                  ping_chunks ping_text Hbytes Hwf Hbom Hnot)).
Defined.

End RoundTripProps.

(** ** Thoughts, then a signature *)

Module ScanProps.
Import Js Transformer.

Section Parts.
Context `{P : Platform} {W : Type}.
Implicit Types (callbacks : StreamingCallbacks (W := W)) (e : Env (W := W)).

Lemma prop_of_object (p : val) (f g : field) :
  defined (prop_opt p g) = true -> prop p f = Normal (prop_opt p f).
Proof. by destruct p. Qed.

Lemma thinks_object (p : val) (t : jstring) :
  thinks p t -> forall f, prop p f = Normal (prop_opt p f).
Proof.
  intros (Hmark & _) f. destruct p; try done.
Qed.

(** A part that thinks appends its text to the buffer of its candidate. *)
Lemma scan_thinks callbacks (key : jstring) (index : Z) (p : val) (t : jstring) e :
  thinks p t ->
  scan_part callbacks key index p e
  = (Normal tt,
     {| signatureStore := signatureStore e;
        thoughtBuffer :=
          <[index := default [] (thoughtBuffer e !! index) ++ t]> (thoughtBuffer e);
        injected := injected e; world := world e |}).
Proof.
  intros Hp. pose proof (thinks_object p t Hp) as Hobj.
  destruct Hp as (Hmark & Htext & Hne & Hsig).
  unfold scan_part, accumulate_thought, cache_part_signature.
  unfold bind, lift, thought, set_thought, ret, ThoughtBuffer.get, ThoughtBuffer.set.
  rewrite !Hobj, Hmark, Htext, Hsig. cbn [truthy toString].
  by destruct t.
Qed.

Lemma scan_thoughts callbacks (key : jstring) (index : Z) (parts : list val)
  (texts : list jstring) (i : nat) e :
  Forall2 thinks parts texts ->
  forEach (fun part _ => scan_part callbacks key index part) parts i e
  = (Normal tt,
     {| signatureStore := signatureStore e;
        thoughtBuffer :=
          match texts with
          | [] => thoughtBuffer e
          | _ => <[index := default [] (thoughtBuffer e !! index) ++ concat texts]>
                   (thoughtBuffer e)
          end;
        injected := injected e; world := world e |}).
Proof.
  intros Hall. revert i e.
  induction Hall as [|p t parts texts Hp _ IH]; intros i e; cbn [forEach].
  - by destruct e.
  - unfold bind. rewrite (scan_thinks _ _ _ _ _ _ Hp), IH.
    cbn [signatureStore thoughtBuffer injected world concat].
    do 2 f_equal. rewrite lookup_insert_eq. cbn [default].
    destruct texts as [|t' texts].
    + cbn [concat]. by rewrite app_nil_r.
    + by rewrite insert_insert_eq, app_assoc.
Qed.

Lemma signs_object (p : val) (signature : val) :
  signs p signature -> forall f, prop p f = Normal (prop_opt p f).
Proof.
  intros (_ & Hsig & Htruthy) f. destruct p; try done; by subst.
Qed.

(** A part that only signs pairs its signature with what the buffer of
    its candidate holds. *)
Lemma scan_signs callbacks (key : jstring) (index : Z) (p : val) (signature : val)
  (fullText : jstring) e :
  signs p signature ->
  thoughtBuffer e !! index = Some fullText ->
  fullText <> [] ->
  (forall f, onCacheSignature callbacks = Some f ->
             fst (f key fullText signature (world e)) = Normal tt) ->
  scan_part callbacks key index p e
  = (Normal tt,
     {| signatureStore :=
          <[key := {| text := fullText; signature := signature |}]> (signatureStore e);
        thoughtBuffer := thoughtBuffer e;
        injected := injected e;
        world :=
          match onCacheSignature callbacks with
          | Some f => snd (f key fullText signature (world e))
          | None => world e
          end |}).
Proof.
  intros Hp Hbuf Hne Hcall. pose proof (signs_object p signature Hp) as Hobj.
  destruct Hp as (Hmark & Hsig & Htruthy).
  unfold scan_part, accumulate_thought, cache_part_signature, cache_signature.
  unfold bind, lift, thought, ret, store_set, call, with_world,
    ThoughtBuffer.get, SignatureStore.set.
  rewrite !Hobj, Hmark, Hsig, Htruthy, Hbuf. unfold default, from_option, id.
  destruct fullText as [|c full]; [done|]. cbn [nonempty].
  destruct (onCacheSignature callbacks) as [f|]; [|done].
  specialize (Hcall f eq_refl).
  destruct (f key (c :: full) signature (world e)) as [r w]. cbn [fst] in Hcall.
  by subst r.
Qed.

(** X10: A signature is paired with all the thoughts before it. When the parts
    of a candidate are parts that think the texts [texts], in order (one
    at least), and then a part that only signs, the scan returns
    normally; the buffer of the candidate holds what it held followed by
    the texts, concatenated in order; the store holds, under the session
    key, the signature paired with exactly that text; and
    [onCacheSignature], when given, was called once, with the key, that
    text and the signature. *)
Theorem signature_pairs_with_all_thoughts callbacks (key : jstring) (index : Z)
  (part : val) (parts : list val) (text : jstring) (texts : list jstring)
  (p : val) (signature : val) e :
  Forall2 thinks (part :: parts) (text :: texts) ->
  signs p signature ->
  let fullText := default [] (thoughtBuffer e !! index) ++ concat (text :: texts) in
  (forall f, onCacheSignature callbacks = Some f ->
             fst (f key fullText signature (world e)) = Normal tt) ->
  forEach (fun part _ => scan_part callbacks key index part) (part :: parts ++ [p]) 0 e
  = (Normal tt,
     {| signatureStore :=
          <[key := {| text := fullText; signature := signature |}]> (signatureStore e);
        thoughtBuffer := <[index := fullText]> (thoughtBuffer e);
        injected := injected e;
        world :=
          match onCacheSignature callbacks with
          | Some f => snd (f key fullText signature (world e))
          | None => world e
          end |}).
Proof.
  intros Hparts Hp fullText Hcall.
  assert (fullText <> []) as Hne.
  { apply Forall2_cons in Hparts as ((_ & _ & Ht & _) & _).
    subst fullText. cbn [concat]. destruct text; [done|].
    by destruct (default [] (thoughtBuffer e !! index)). }
  change (part :: parts ++ [p]) with ((part :: parts) ++ [p]).
  rewrite TransformerProps.forEach_app. unfold bind at 1.
  rewrite (scan_thoughts _ _ _ _ _ _ _ Hparts). cbn [forEach].
  unfold bind at 1.
  rewrite (scan_signs callbacks key index p signature fullText); try done.
  cbn [thoughtBuffer]. apply lookup_insert_eq.
Qed.

End Parts.

(** *** Content blocks *)

Section Blocks.
Context `{P : Platform} {W : Type}.
Implicit Types (callbacks : StreamingCallbacks (W := W)) (e : Env (W := W)).



(** X12: A signature whose thinking came in an earlier response is dropped:
    the text of the blocks is kept for the response at hand, not in the
    buffer of thoughts. When no block of a response is of type
    ['thinking'], the scan of its blocks writes nothing and calls
    nothing, whatever signatures the blocks carry and whatever the buffer
    holds. *)
Theorem block_signature_without_thinking_is_dropped callbacks (key : jstring)
  (blocks : list val) e :
  Forall (fun b => is_str (lit "thinking") (prop_opt b f_type) = false) blocks ->
  scan_blocks callbacks key blocks [] e = (Normal tt, e).
Proof.
  induction 1 as [|b blocks Hb _ IH]; cbn [scan_blocks]; [done|].
  rewrite Hb. unfold bind at 1 2. unfold ret at 1. cbn [nonempty].
  rewrite andb_false_r. unfold ret at 1. exact IH.
Qed.

End Blocks.

Import Examples.
#[local] Existing Instance Reference.platform.

(** [signature_pairs_with_all_thoughts] on two thoughts and a signature,
    with a callback that logs its calls. *)
Lemma signature_pairs_with_all_thoughts_witness :
  Forall2 thinks [thought_A; thought_B] [lit "A"; lit "B"]
  /\ signs signed_part (JStr (lit "SIG"))
  /\ (forall f, onCacheSignature logging = Some f ->
                fst (f (lit "session") (lit "AB") (JStr (lit "SIG")) (world fresh_env))
                = Normal tt)
  /\ forEach (fun part _ => scan_part logging (lit "session") 0 part)
       [thought_A; thought_B; signed_part] 0 fresh_env
     = (Normal tt, signed_env).
Proof.
  assert (Forall2 thinks [thought_A; thought_B] [lit "A"; lit "B"]) as Hparts.
  { apply Forall2_cons. split; [|apply Forall2_cons; split; [|apply Forall2_nil_2]].
    - split; [reflexivity|]. split; [reflexivity|]. split; [discriminate | reflexivity].
    - split; [reflexivity|]. split; [reflexivity|]. split; [discriminate | reflexivity]. }
  assert (signs signed_part (JStr (lit "SIG"))) as Hp.
  { split; [reflexivity|]. split; reflexivity. }
  assert (forall f, onCacheSignature logging = Some f ->
            fst (f (lit "session") (lit "AB") (JStr (lit "SIG")) (world fresh_env))
            = Normal tt) as Hcall by (by intros f [= <-]).
  split; [exact Hparts|]. split; [exact Hp|]. split; [exact Hcall|].
  change [thought_A; thought_B; signed_part]
    with (thought_A :: [thought_B] ++ [signed_part]).
  rewrite (signature_pairs_with_all_thoughts logging (lit "session") 0
             thought_A [thought_B] (lit "A") [lit "B"] signed_part (JStr (lit "SIG"))
             fresh_env Hparts Hp Hcall).
  vm_refl.
Defined.


(** [block_signature_without_thinking_is_dropped] on a block that carries
    a signature, when the buffer holds the thoughts of earlier lines. *)
Lemma block_signature_without_thinking_is_dropped_witness :
  Forall (fun b => is_str (lit "thinking") (prop_opt b f_type) = false) [bare_block]
  /\ truthy (prop_opt bare_block f_signature) = true
  /\ scan_blocks logging (lit "session") [bare_block] [] thinking_env
     = (Normal tt, thinking_env).
Proof.
  assert (Forall (fun b => is_str (lit "thinking") (prop_opt b f_type) = false)
            [bare_block]) as Hblocks.
  { apply List.Forall_cons; [reflexivity | apply List.Forall_nil]. }
  split; [exact Hblocks|]. split; [reflexivity|].
  exact (block_signature_without_thinking_is_dropped logging (lit "session")
           [bare_block] thinking_env Hblocks).
Defined.

End ScanProps.

(** ** From the body of an error response to the outcome *)

Module ErrorBodyProps.
Import Js Token.

Section Body.
Context `{P : Platform} `{A : !Auth}.
Implicit Types (net : Network) (auth : OAuthAuthDetails) (w : World).

(** X20: Whatever its status, an error response whose body is a JSON object
    with the string [invalid_grant] as its [error], and whose
    [error_description] is absent or a string, ends the call at once:
    one attempt, no sleep, the caches purged of the old blob, and an
    error raised that carries the code [invalid_grant], the status of the
    response and, as its description, the [error_description] when there
    is one that is not empty and the body itself otherwise. *)
Theorem revoked_body_is_terminal net auth w (r : Response) (body : jstring)
  (members : list (jstring * val)) (described : option jstring) :
  truthy (refreshToken (parseRefreshParts (refresh auth))) = true ->
  endpoint net (attempts w) = Normal r ->
  ok r = false ->
  r_body r = Normal body ->
  body <> [] ->
  JSON_parse body = Some (JObj members) ->
  own (lit "error") members = Some (JStr (lit "invalid_grant")) ->
  own (lit "error_description") members = option_map JStr described ->
  exists e,
    refreshAccessToken net auth w = (Throw (RefreshError e), purged (refresh auth) w)
    /\ code e = JStr (lit "invalid_grant")
    /\ status e = r_status r
    /\ description e
       = JStr (match described with
               | Some (c :: d) => c :: d
               | _ => body
               end).
Proof.
  intros Htoken Hr Hok Hbody Hne Hparse Herror Hdesc.
  assert (exists e, refresh_error r = Normal e
                    /\ code e = JStr (lit "invalid_grant")
                    /\ status e = r_status r
                    /\ description e
                       = JStr (match described with
                               | Some (c :: d) => c :: d
                               | _ => body
                               end)) as (e & He & Hcode & Hstatus & Hdescription).
  { unfold refresh_error, parseOAuthErrorPayload. rewrite Hbody.
    destruct body as [|b body]; [done|]. rewrite Hparse.
    cbn [truthy typeof_object negb orb prop_opt].
    change (field_name f_error) with (lit "error").
    change (field_name f_error_description) with (lit "error_description").
    rewrite Herror, Hdesc. cbn [default typeof_string negb andb].
    destruct described as [[|c d]|]; cbn [option_map default truthy nonempty andb];
      cbn [join_truthy truthy nonempty existsb nullish_or of_text toString orb];
      eexists; (split; [reflexivity|]); cbn [code status description]; done. }
  exists e. split; [|done].
  rewrite (RefreshProps.refresh_with_token _ _ _ Htoken).
  unfold RetryPolicy.MAX_RETRIES. cbn [attempt_loop].
  assert (fails_with net (attempts w) e) as Hfail by (by exists r).
  rewrite (TokenProps.attempt_fails _ _ _ _ _ Hfail), Hcode.
  change (is_str (lit "invalid_grant") (JStr (lit "invalid_grant"))) with
    (bool_decide (lit "invalid_grant" = lit "invalid_grant")).
  rewrite bool_decide_eq_true_2 by done.
  rewrite TokenProps.not_retryable_auth_code; [done|].
  unfold auth_code. rewrite Hcode. cbn [is_str]. by rewrite bool_decide_eq_true_2.
Qed.

End Body.

Import Examples.
#[local] Existing Instance Reference.platform.
#[local] Existing Instance blob_auth.

(** [revoked_body_is_terminal] on an endpoint that answers 400 with the
    OAuth error of a revoked grant. *)
Lemma revoked_body_is_terminal_witness :
  truthy (refreshToken (parseRefreshParts (refresh stored_auth))) = true
  /\ endpoint revoked (attempts cached_world) = Normal revoked_response
  /\ ok revoked_response = false
  /\ r_body revoked_response
     = Normal (jlit "{'error':'invalid_grant','error_description':'Token has been expired or revoked.'}")
  /\ jlit "{'error':'invalid_grant','error_description':'Token has been expired or revoked.'}"
     <> []
  /\ JSON_parse
       (jlit "{'error':'invalid_grant','error_description':'Token has been expired or revoked.'}")
     = Some (JObj [(lit "error", JStr (lit "invalid_grant"));
                   (lit "error_description",
                    JStr (lit "Token has been expired or revoked."))])
  /\ exists e,
       refreshAccessToken revoked stored_auth cached_world
       = (Throw (RefreshError e), purged (refresh stored_auth) cached_world)
       /\ code e = JStr (lit "invalid_grant")
       /\ status e = r_status revoked_response
       /\ description e = JStr (lit "Token has been expired or revoked.").
Proof.
  assert (truthy (refreshToken (parseRefreshParts (refresh stored_auth))) = true)
    as Htoken by reflexivity.
  assert (jlit "{'error':'invalid_grant','error_description':'Token has been expired or revoked.'}"
          <> []) as Hne by discriminate.
  assert (JSON_parse
            (jlit "{'error':'invalid_grant','error_description':'Token has been expired or revoked.'}")
          = Some (JObj [(lit "error", JStr (lit "invalid_grant"));
                        (lit "error_description",
                         JStr (lit "Token has been expired or revoked."))]))
    as Hparse by vm_refl.
  split; [exact Htoken|]. split; [reflexivity|]. split; [reflexivity|].
  split; [reflexivity|]. split; [exact Hne|]. split; [exact Hparse|].
  exact (revoked_body_is_terminal revoked stored_auth cached_world revoked_response
           _ _ (Some (lit "Token has been expired or revoked."))
           Htoken eq_refl eq_refl eq_refl Hne Hparse eq_refl eq_refl).
Defined.

End ErrorBodyProps.
